(** * zsnprintf: a shallow embedding of [zsnprintf.c] and its properties

    The development follows the layout of the C file: the integer
    renderers ([zx64toa], [zo64toa], [zi16toa] ... [zu64toa]), the float
    renderers ([zftoaf], [zftoal]), the sub-specification parser
    ([getFlags], [getWidth], [getPrecision], [getLength], [getSubspec])
    and the scanner / output assembler [zvsnprintf].

    Conventions.
    - C integers are [Z]; every conversion to a fixed-width type is
      written out ([u8], [u16], [u32], [u64], [s32] ...).
    - A renderer [char *f(char *buf, ...)] is embedded as a function that
      returns the characters it stores at [buf] before the terminating
      NUL; the returned pointer is [buf] plus the length of that list.
    - [unsigned width] and [unsigned precision] are non-negative [Z]s;
      offsets into a buffer and loop counters are [nat]s. *)

From Stdlib Require Import ZArith List Ascii String Bool Lia Arith.
From Stdlib Require Import SpecFloat DecimalString.
Import ListNotations.
Local Open Scope Z_scope.

(** ** Fixed-width integers *)

Definition wrap (bits : Z) (x : Z) : Z := x mod 2 ^ bits.
Definition u8 := wrap 8.
Definition u16 := wrap 16.
Definition u32 := wrap 32.
Definition u64 := wrap 64.

(** Conversion to a signed type of [bits] bits (two's complement). *)
Definition swrap (bits : Z) (x : Z) : Z :=
  let r := wrap bits x in
  if r <? 2 ^ (bits - 1) then r else r - 2 ^ bits.

Definition INT16_MAX : Z := 32767.
Definition UINT16_MAX : Z := 65535.
Definition INT32_MIN : Z := -2147483648.
Definition INT32_MAX : Z := 2147483647.
Definition UINT32_MAX : Z := 4294967295.

(** ** Characters and strings *)

Definition chr (z : Z) : ascii := ascii_of_N (Z.to_N (z mod 256)).
Definition ord (c : ascii) : Z := Z.of_N (N_of_ascii c).
Definition str (s : string) : list ascii := list_ascii_of_string s.

Definition NUL : ascii := zero.

(** [#define DTOCHAR(_d) ((_d) + '0')] *)
Definition DTOCHAR (d : Z) : ascii := chr (d + ord "0").

Definition xTOCHAR (x : Z) : ascii :=
  if 10 <=? x then chr (x - 10 + ord "a") else DTOCHAR x.

Definition XTOCHAR (x : Z) : ascii :=
  if 10 <=? x then chr (x - 10 + ord "A") else DTOCHAR x.

(** ** Flags *)

Inductive sign_t := auto_sign | always_sign | sign_or_space.
Inductive exp_form_t := exp_none | exp_e | exp_E.

Record fmt_flags_t := mk_flags {
  leftAlign : bool;
  sign : sign_t;
  altForm : bool;
  zeropad : bool;
  exp : exp_form_t
}.

(** [fmt_flags_t flags = { 0 }] *)
Definition no_flags : fmt_flags_t := mk_flags false auto_sign false false exp_none.

Definition set_leftAlign (f : fmt_flags_t) : fmt_flags_t :=
  mk_flags true (sign f) (altForm f) (zeropad f) (exp f).
Definition set_sign (s : sign_t) (f : fmt_flags_t) : fmt_flags_t :=
  mk_flags (leftAlign f) s (altForm f) (zeropad f) (exp f).
Definition set_altForm (f : fmt_flags_t) : fmt_flags_t :=
  mk_flags (leftAlign f) (sign f) true (zeropad f) (exp f).
Definition set_zeropad (f : fmt_flags_t) : fmt_flags_t :=
  mk_flags (leftAlign f) (sign f) (altForm f) true (exp f).
Definition set_exp (e : exp_form_t) (f : fmt_flags_t) : fmt_flags_t :=
  mk_flags (leftAlign f) (sign f) (altForm f) (zeropad f) e.

Definition sign_eqb (a b : sign_t) : bool :=
  match a, b with
  | auto_sign, auto_sign | always_sign, always_sign
  | sign_or_space, sign_or_space => true
  | _, _ => false
  end.

(** [typedef enum int_size_e { ZS64, ZS32, ZS16 }]: the enumerators are
    numbered in this order, so [ZS64 = 0], [ZS32 = 1], [ZS16 = 2]. *)
Inductive int_size_t := ZS64 | ZS32 | ZS16.

Definition int_size_val (s : int_size_t) : Z :=
  match s with ZS64 => 0 | ZS32 => 1 | ZS16 => 2 end.

(** The C comparison [a >= b] on two [int_size_t] values. *)
Definition size_ge (a b : int_size_t) : bool :=
  int_size_val b <=? int_size_val a.

(** ** Code shared by the integer renderers

    Every renderer consists of the same four pieces: digit extraction,
    the chain [if (d_i) { first_digit = i; }], the width/pad block and
    the fall-through [switch (first_digit)]. *)

(** The chain [if (d_i) { first_digit = i; }] for the digits
    [ds = d_i, d_(i+1), ...], taken in that order. *)
Fixpoint first_nonzero (ds : list Z) (i : nat) (first_digit : nat) : nat :=
  match ds with
  | [] => first_digit
  | d :: ds' => first_nonzero ds' (S i) (if d =? 0 then first_digit else i)
  end.

(** [for (unsigned i = width; i > first_digit; --i) { *buf = c; ++buf; }] *)
Definition pad (c : ascii) (width first_digit : nat) : list ascii :=
  repeat c (width - first_digit).

(** [switch (first_digit) { case k: *buf = tochar(d_k); ++buf; ... case 1: ... }
     *buf = tochar(d0); ++buf;] with [ds = d0, d1, ..., dk]. *)
Definition emit (tochar : Z -> ascii) (ds : list Z) (first_digit : nat) : list ascii :=
  map tochar (rev (firstn (S first_digit) ds)).

(** [if (width > cap) { width = cap; } else { --width; }] *)
Definition zero_based (cap : nat) (width : Z) : nat :=
  if Z.of_nat cap <? width then cap else Z.to_nat (width - 1).

(** The [addSign] macro. *)
Definition addSign (n : Z) (flags : fmt_flags_t) : list ascii :=
  if n <? 0 then str "-"
  else match sign flags with
       | always_sign => str "+"
       | sign_or_space => str " "
       | auto_sign => []
       end.

(** The width block of the unsigned renderers. *)
Definition pad_unsigned (cap : nat) (width : Z) (first_digit : nat)
    (flags : fmt_flags_t) : list ascii :=
  if width =? 0 then []
  else
    let width := zero_based cap width in
    if zeropad flags then pad "0" width first_digit
    else pad " " width first_digit.

(** The width block of the signed renderers, with [addSign] placed as in
    the source: before the zeros, after the spaces. *)
Definition pad_signed (cap : nat) (width : Z) (first_digit : nat) (n : Z)
    (flags : fmt_flags_t) : list ascii :=
  if width =? 0 then addSign n flags
  else
    let width := zero_based cap width in
    if zeropad flags then addSign n flags ++ pad "0" width first_digit
    else pad " " width first_digit ++ addSign n flags.

(** ** Hexadecimal and octal *)

Definition zeros (k : nat) : list Z := repeat 0 k.

Definition zx64toa (size : int_size_t) (n : Z) (width : Z)
    (flags : fmt_flags_t) (upper : bool) : list ascii :=
  let tochar := if upper then XTOCHAR else xTOCHAR in
  let d (i : Z) := Z.land (Z.shiftr n (4 * i)) 15 in
  let lo := [d 0; d 1; d 2; d 3] in
  let mid := if size_ge size ZS32 then [d 4; d 5; d 6; d 7] else zeros 4 in
  let hi := if size_ge size ZS64
            then [d 8; d 9; d 10; d 11; d 12; d 13; d 14; d 15] else zeros 8 in
  let ds := lo ++ mid ++ hi in
  let first_digit := first_nonzero (tl ds) 1 0 in
  pad_unsigned 15 width first_digit flags ++ emit tochar ds first_digit.

Definition zo64toa (size : int_size_t) (n : Z) (width : Z)
    (flags : fmt_flags_t) : list ascii :=
  let d (i : Z) := Z.land (Z.shiftr n (3 * i)) 7 in
  let lo := [d 0; d 1; d 2; d 3; d 4; d 5] in
  let mid := if size_ge size ZS32 then [d 6; d 7; d 8; d 9; d 10] else zeros 5 in
  let hi := if size_ge size ZS64
            then [d 11; d 12; d 13; d 14; d 15; d 16; d 17; d 18; d 19; d 20; d 21]
            else zeros 11 in
  let ds := lo ++ mid ++ hi in
  let first_digit := first_nonzero (tl ds) 1 0 in
  pad_unsigned 21 width first_digit flags ++ emit XTOCHAR ds first_digit.

(** ** Decimal, 16 bits *)

(** Digits [d0 .. d4] of a 16-bit magnitude: the nibbles are recombined
    with the decimal digits of 16, 256 and 4096 as weights. *)
Definition dec16_digits (absn : Z) : list Z :=
  let d0 := u16 (Z.land absn 15) in
  let d1 := u8 (Z.land (Z.shiftr absn 4) 15) in
  let d2 := u8 (Z.land (Z.shiftr absn 8) 15) in
  let d3 := u8 (Z.land (Z.shiftr absn 12) 15) in
  let d0 := u16 (6 * (d3 + d2 + d1) + d0) in
  let q := u8 (d0 / 10) in
  let d0 := u16 (d0 mod 10) in
  let d1 := u8 (q + 9 * d3 + 5 * d2 + d1) in
  let q := u8 (d1 / 10) in
  let d1 := u8 (d1 mod 10) in
  let d2 := u8 (q + 2 * d2) in
  let q := u8 (d2 / 10) in
  let d2 := u8 (d2 mod 10) in
  let d3 := u8 (q + 4 * d3) in
  let q := u8 (d3 / 10) in
  let d3 := u8 (d3 mod 10) in
  let d4 := q in
  [d0; d1; d2; d3; d4].

Definition zi16toa (n : Z) (width : Z) (flags : fmt_flags_t) : list ascii :=
  let absn := u16 (if n <? 0 then - n else n) in
  let ds := dec16_digits absn in
  let first_digit := first_nonzero (tl ds) 1 0 in
  pad_signed 4 width first_digit n flags ++ emit DTOCHAR ds first_digit.

Definition zu16toa (n : Z) (width : Z) (flags : fmt_flags_t) : list ascii :=
  let ds := dec16_digits n in
  let first_digit := first_nonzero (tl ds) 1 0 in
  pad_unsigned 4 width first_digit flags ++ emit DTOCHAR ds first_digit.

(** ** Decimal, 32 bits *)

(** [if (a) { q = a / 10; d = a % 10; } else { q = d = 0; }] *)
Definition divstep (a : Z) : Z * Z :=
  if a =? 0 then (0, 0) else (u8 (a / 10), u8 (a mod 10)).

(** Digits [d0 .. d9] of a 32-bit magnitude. *)
Definition dec32_digits (absn : Z) : list Z :=
  let n0 := u8 (Z.land absn 15) in
  let n1 := u8 (Z.land (Z.shiftr absn 4) 15) in
  let n2 := u8 (Z.land (Z.shiftr absn 8) 15) in
  let n3 := u8 (Z.land (Z.shiftr absn 12) 15) in
  let n4 := u8 (Z.land (Z.shiftr absn 16) 15) in
  let n5 := u8 (Z.land (Z.shiftr absn 20) 15) in
  let n6 := u8 (Z.land (Z.shiftr absn 24) 15) in
  let n7 := u8 (Z.land (Z.shiftr absn 28) 15) in
  let a0 := u16 (6 * (n7 + n6 + n5 + n4 + n3 + n2 + n1) + n0) in
  let '(q, d0) := divstep a0 in
  let a1 := u16 (q + 5 * n7 + n6 + 7 * n5 + 3 * n4 + 9 * n3 + 5 * n2 + n1) in
  let '(q, d1) := divstep a1 in
  let a2 := u16 (q + 4 * n7 + 2 * n6 + 5 * n5 + 5 * n4 + 2 * n2) in
  let '(q, d2) := divstep a2 in
  let a3 := u16 (q + 5 * n7 + 7 * n6 + 8 * n5 + 5 * n4 + 4 * n3) in
  let '(q, d3) := divstep a3 in
  let a4 := u16 (q + 3 * n7 + 7 * n6 + 4 * n5 + 6 * n4) in
  let '(q, d4) := divstep a4 in
  let a5 := u8 (q + 4 * n7 + 7 * n6) in
  let '(q, d5) := divstep a5 in
  let a6 := u8 (q + 8 * n7 + 6 * n6 + n5) in
  let '(q, d6) := divstep a6 in
  let a7 := u8 (q + 6 * n7 + n6) in
  let '(q, d7) := divstep a7 in
  let a8 := u8 (q + 2 * n7) in
  let '(q, d8) := divstep a8 in
  let d9 := q in
  [d0; d1; d2; d3; d4; d5; d6; d7; d8; d9].

Definition zi32toa (n : Z) (width : Z) (flags : fmt_flags_t) : list ascii :=
  let absn := u32 (if n <? 0 then - n else n) in
  let ds := dec32_digits absn in
  let first_digit := first_nonzero (tl ds) 1 0 in
  pad_signed 9 width first_digit n flags ++ emit DTOCHAR ds first_digit.

Definition zu32toa (n : Z) (width : Z) (flags : fmt_flags_t) : list ascii :=
  let ds := dec32_digits n in
  let first_digit := first_nonzero (tl ds) 1 0 in
  pad_unsigned 9 width first_digit flags ++ emit DTOCHAR ds first_digit.

(** ** Decimal, 64 bits *)

(** [while (_n) { int rem = _n % 10; tmp[first_digit] = rem + '0';
                  _n = _n / 10; ++first_digit; }]
    [tmp] holds the characters stored so far, so [first_digit] is its
    length.  A 64-bit magnitude has at most 20 decimal digits; the loop is
    unrolled [fuel] times and [div10_loop_lsd] shows that 20 suffices. *)
Fixpoint div10_loop (fuel : nat) (_n : Z) (tmp : list ascii) : Z * list ascii :=
  match fuel with
  | O => (_n, tmp)
  | S fuel' =>
      if _n =? 0 then (_n, tmp)
      else
        let rem := _n mod 10 in
        div10_loop fuel' (_n / 10) (tmp ++ [chr (rem + ord "0")])
  end.

(** [static inline void reverse(char *buf, unsigned end)]: the swap loop,
    one iteration per unit of fuel. *)
Definition swap (buf : list ascii) (i j : nat) : list ascii :=
  let temp := nth i buf NUL in
  let buf := firstn i buf ++ nth j buf NUL :: skipn (S i) buf in
  firstn j buf ++ temp :: skipn (S j) buf.

Fixpoint reverse_loop (fuel : nat) (buf : list ascii) (start end_ : nat) : list ascii :=
  match fuel with
  | O => buf
  | S fuel' =>
      if (start <? end_)%nat
      then reverse_loop fuel' (swap buf start end_) (S start) (end_ - 1)
      else buf
  end.

Definition reverse (buf : list ascii) (end_ : nat) : list ascii :=
  reverse_loop (S end_) buf 0 end_.

(** The digit block of [zi64toa] / [zu64toa] for a magnitude [_n]:
    returns [tmp] after [reverse] and the final [first_digit]. *)
Definition dec64_digits (_n : Z) : list ascii * nat :=
  if _n =? 0 then ([chr (ord "0")], O)
  else
    let '(_, tmp) := div10_loop 20 _n [] in
    let first_digit := (List.length tmp - 1)%nat in
    (reverse tmp first_digit, first_digit).

Definition zi64toa (n : Z) (width : Z) (flags : fmt_flags_t) : list ascii :=
  if (INT32_MIN <=? n) && (n <=? INT32_MAX) then zi32toa n width flags
  else
    let _n := u64 (if n <? 0 then - n else n) in
    let '(tmp, first_digit) := dec64_digits _n in
    pad_signed 19 width first_digit n flags ++ firstn (S first_digit) tmp.

Definition zu64toa (n : Z) (width : Z) (flags : fmt_flags_t) : list ascii :=
  if n <=? UINT32_MAX then zu32toa n width flags
  else
    let '(tmp, first_digit) := dec64_digits n in
    pad_unsigned 20 width first_digit flags ++ firstn (S first_digit) tmp.

(** ** Platform parameters

    [<limits.h>] and [<float.h>] decide which renderer each macro
    ([zitoa], [zltoa], [zxtoa], [zftoa] ...) names.  They are gathered in
    a record; the renderers above do not depend on it. *)

Record fformat := mk_fformat { prec : Z; emax : Z }.

Definition binary32 : fformat := mk_fformat 24 128.
Definition binary64 : fformat := mk_fformat 53 1024.
Definition x87_extended : fformat := mk_fformat 64 16384.

Inductive length_t := length_int | length_long | length_long_long.

Record platform := mk_platform {
  int_size : int_size_t;       (* UINT_MAX is UINT16_MAX, UINT32_MAX or UINT64_MAX *)
  long_is_64 : bool;           (* ULONG_MAX is UINT64_MAX rather than UINT32_MAX *)
  size_length : length_t;      (* class of SIZE_MAX, for the 'z' modifier *)
  ptrdiff_length : length_t;   (* class of PTRDIFF_MAX, for the 't' modifier *)
  float_fmt : fformat;         (* float *)
  double_fmt : fformat;        (* double *)
  ldouble_fmt : fformat        (* long double *)
}.

Definition size_bits (s : int_size_t) : Z :=
  match s with ZS16 => 16 | ZS32 => 32 | ZS64 => 64 end.

Definition long_size (P : platform) : int_size_t :=
  if long_is_64 P then ZS64 else ZS32.

Definition int_bits (P : platform) : Z := size_bits (int_size P).
Definition long_bits (P : platform) : Z := size_bits (long_size P).

(** Width of [size_t], from the class of [SIZE_MAX]. *)
Definition size_t_bits (P : platform) : Z :=
  match size_length P with
  | length_int => int_bits P
  | length_long => long_bits P
  | length_long_long => 64
  end.

(** LP64 with x87 long double (Linux on x86-64). *)
Definition lp64_x87 : platform :=
  mk_platform ZS32 true length_long length_long binary32 binary64 x87_extended.

(** ILP32 with long double equal to double (32-bit ARM). *)
Definition ilp32 : platform :=
  mk_platform ZS32 false length_int length_int binary32 binary64 binary64.

(** 16-bit int, 32-bit double (Microchip XC16 defaults). *)
Definition xc16 : platform :=
  mk_platform ZS16 false length_int length_int binary32 binary32 binary64.


(** ** Floating point

    Values are [spec_float]s; an operation of a C type is the [SpecFloat]
    operation at that type's precision (round to nearest even,
    [FLT_EVAL_METHOD == 0]). *)

Definition float := spec_float.

(** Conversion to format [F] (exact when [F] is at least as wide). *)
Definition cvt (F : fformat) (x : float) : float :=
  match x with
  | S754_finite s m e => binary_round (prec F) (emax F) s m e
  | _ => x
  end.

(** Conversion of an integer to format [F]. *)
Definition of_int (F : fformat) (z : Z) : float :=
  binary_normalize (prec F) (emax F) z 0 false.

Definition fadd (F : fformat) := SFadd (prec F) (emax F).
Definition fsub (F : fformat) := SFsub (prec F) (emax F).
Definition fmul (F : fformat) := SFmul (prec F) (emax F).
Definition fdiv (F : fformat) := SFdiv (prec F) (emax F).
Definition flt (x y : float) : bool := SFltb x y.

(** The usual arithmetic conversions pick the wider of two formats. *)
Definition wider (F G : fformat) : fformat :=
  if prec F <? prec G then G else F.

(** A decimal floating constant [p / q] of type double. *)
Definition dlit (P : platform) (p q : Z) : float :=
  fdiv (double_fmt P) (of_int (double_fmt P) p) (of_int (double_fmt P) q).

(** Truncation toward zero of a finite value. *)
Definition trunc (x : float) : option Z :=
  match x with
  | S754_zero _ => Some 0
  | S754_finite s m e =>
      let a := if 0 <=? e then Zpos m * 2 ^ e else Zpos m / 2 ^ (- e) in
      Some (if s then - a else a)
  | _ => None
  end.

(** Conversion to a signed / unsigned integer type of [bits] bits; the
    behaviour is undefined ([None]) when the truncated value does not
    fit. *)
Definition to_sint (bits : Z) (x : float) : option Z :=
  match trunc x with
  | Some z => if (- 2 ^ (bits - 1) <=? z) && (z <? 2 ^ (bits - 1)) then Some z else None
  | None => None
  end.

Definition to_uint (bits : Z) (x : float) : option Z :=
  match trunc x with
  | Some z => if (0 <=? z) && (z <? 2 ^ bits) then Some z else None
  | None => None
  end.

Definition isnan (x : float) : bool :=
  match x with S754_nan => true | _ => false end.

Definition isfinite (x : float) : bool :=
  match x with S754_nan | S754_infinity _ => false | _ => true end.

Definition signbit (x : float) : bool :=
  match x with
  | S754_zero s | S754_infinity s | S754_finite s _ _ => s
  | S754_nan => false
  end.

(** What the renderers take from [<math.h>] and the C standard does not
    fix: the results of [log10 F x] and [pow F x y] at format [F], and the
    value of [isinf], of which the standard says only that it is nonzero
    exactly on the infinities. *)
Record libm := mk_libm {
  log10 : fformat -> float -> float;
  pow : fformat -> float -> float -> float;
  isinf : float -> Z
}.

(** ** The renderer macros

    [zitoa], [zutoa], [zxtoa] ... name a renderer according to
    [UINT_MAX]; [zltoa], [zultoa] ... according to [ULONG_MAX].  The
    conversion of the argument to the renderer's parameter type is
    written at the call. *)

Definition zitoa_at (s : int_size_t) (n : Z) (width : Z) (flags : fmt_flags_t) : list ascii :=
  match s with
  | ZS16 => zi16toa (swrap 16 n) width flags
  | ZS32 => zi32toa (swrap 32 n) width flags
  | ZS64 => zi64toa (swrap 64 n) width flags
  end.

Definition zutoa_at (s : int_size_t) (n : Z) (width : Z) (flags : fmt_flags_t) : list ascii :=
  match s with
  | ZS16 => zu16toa (u16 n) width flags
  | ZS32 => zu32toa (u32 n) width flags
  | ZS64 => zu64toa (u64 n) width flags
  end.

Section Macros.
Variable P : platform.

Definition zitoa := zitoa_at (int_size P).
Definition zutoa := zutoa_at (int_size P).
Definition zxtoa n width flags := zx64toa (int_size P) (u64 n) width flags false.
Definition zXtoa n width flags := zx64toa (int_size P) (u64 n) width flags true.
Definition zotoa n width flags := zo64toa (int_size P) (u64 n) width flags.

Definition zltoa := zitoa_at (long_size P).
Definition zultoa := zutoa_at (long_size P).
Definition zlxtoa n width flags := zx64toa (long_size P) (u64 n) width flags false.
Definition zlXtoa n width flags := zx64toa (long_size P) (u64 n) width flags true.
Definition zlotoa n width flags := zo64toa (long_size P) (u64 n) width flags.

Definition zlltoa := zitoa_at ZS64.
Definition zulltoa := zutoa_at ZS64.
Definition zllxtoa n width flags := zx64toa ZS64 (u64 n) width flags false.
Definition zllXtoa n width flags := zx64toa ZS64 (u64 n) width flags true.
Definition zllotoa n width flags := zo64toa ZS64 (u64 n) width flags.
End Macros.

(** ** The float renderers *)

(** Sequencing of steps whose behaviour may be undefined. *)
Notation "x <- e ;; k" := (match e with Some x => k | None => None end)
  (at level 61, e at next level, right associativity).
Notation "' pat <- e ;; k" := (match e with Some pat => k | None => None end)
  (at level 61, pat pattern, e at next level, right associativity).

Definition exp_is_set (flags : fmt_flags_t) : bool :=
  match exp flags with exp_none => false | _ => true end.

(** A signed [int] result; overflow is undefined. *)
Definition int_result (bits : Z) (z : Z) : option Z :=
  if (- 2 ^ (bits - 1) <=? z) && (z <? 2 ^ (bits - 1)) then Some z else None.

Section FloatRenderer.
Variable P : platform.
Variable M : libm.

(** Working format [W]: [float] in [zftoaf], [long double] in [zftoal].
    [expw] is the width passed for the exponent (2, resp. 3). *)
Variable W : fformat.
Variable expw : Z.

(** [x op= c] with [c] a constant of type double: the operation is done
    in the wider of the two types and the result converted back. *)
Definition mul_by_double (x c : float) : float :=
  let C := wider W (double_fmt P) in
  cvt W (fmul C (cvt C x) (cvt C c)).

(** [fabs(f) > 0.0] and [f < 0.0]. *)
Definition gt_zero (x : float) : bool := flt (S754_zero false) x.
Definition lt_zero (x : float) : bool := flt x (S754_zero false).

(** The [switch (precision)]: the clamped precision, [frnd], [fmul]. *)
Definition rounding_consts (precision : Z) : Z * float * float :=
  let k := if (0 <=? precision) && (precision <=? 8) then precision else 9 in
  (k, cvt W (dlit P 5 (10 ^ (k + 1))), cvt W (dlit P (10 ^ k) 1)).

(** The block [if (flags.exp) { ... }] that scales [f] to one leading
    digit; returns [exponent] and [f]. *)
Definition normalize (f : float) (flags : fmt_flags_t) : option (Z * float) :=
  if exp_is_set flags then
    if gt_zero (SFabs f) then
      exponent <- to_sint (int_bits P) (log10 M W (SFabs f)) ;;
      neg_exponent <- int_result (int_bits P) (- exponent) ;;
      let f := fmul W f (pow M W (of_int W 10) (of_int W neg_exponent)) in
      i <- to_sint 32 f ;;
      if i =? 0 then
        exponent' <- int_result (int_bits P) (exponent - 1) ;;
        Some (exponent', mul_by_double f (dlit P 10 1))
      else Some (exponent, f)
    else Some (0, f)
  else Some (0, f).

Definition zftoa_gen (f : float) (width precision : Z) (flags : fmt_flags_t)
    : option (list ascii) :=
  if negb (isfinite f) then
    if isnan f then Some (str "NAN")
    else if isinf M f =? -1 then Some (str "-INF")
    else Some (str "INF")
  else
    let flags :=
      if negb (exp_is_set flags) && flt (of_int W (INT32_MAX - 1)) (SFabs f)
      then set_exp exp_e flags else flags in
    '(exponent, f) <- normalize f flags ;;
    let '(precision, frnd, fmul_) := rounding_consts precision in
    let rounded := if lt_zero f then fsub W f frnd else fadd W f frnd in
    whole <- to_sint 32 rounded ;;
    '(rounded, exponent, whole) <-
       (if exp_is_set flags && (10 <=? whole) then
          let rounded := mul_by_double rounded (dlit P 1 10) in
          exponent <- int_result (int_bits P) (exponent + 1) ;;
          whole <- to_sint 32 rounded ;;
          Some (rounded, exponent, whole)
        else Some (rounded, exponent, whole)) ;;
    let '(minus, flags) :=
      if (whole =? 0) && signbit f
      then (str "-", set_sign auto_sign flags) else ([], flags) in
    let whole_text :=
      if (INT16_MAX <? whole) || (4 <? width)
      then zltoa P whole width flags
      else zitoa P whole width flags in
    let dot := if negb (precision =? 0) || exp_is_set flags then str "." else [] in
    fraction_text <-
      (if negb (precision =? 0) then
         let fraction := SFabs (fmul W fmul_ (fsub W rounded (of_int W whole))) in
         let fraction_flags := set_zeropad no_flags in
         if flt (of_int W UINT16_MAX) fraction || (4 <? precision) then
           v <- to_uint (long_bits P) fraction ;;
           Some (zultoa P v precision fraction_flags)
         else
           v <- to_uint (int_bits P) fraction ;;
           Some (zutoa P v precision fraction_flags)
       else Some []) ;;
    let exponent_flags := set_zeropad (set_sign always_sign no_flags) in
    let exponent_text :=
      match exp flags with
      | exp_e => str "e" ++ zitoa P exponent expw exponent_flags
      | exp_E => str "E" ++ zitoa P exponent expw exponent_flags
      | exp_none => []
      end in
    Some (minus ++ whole_text ++ dot ++ fraction_text ++ exponent_text).
End FloatRenderer.

Definition zftoaf (P : platform) (M : libm) := zftoa_gen P M (float_fmt P) 2.
Definition zftoal (P : platform) (M : libm) := zftoa_gen P M (ldouble_fmt P) 3.

(** [zftoa] is [zftoaf] when double and float have the same mantissa
    width, [zftoal] otherwise; the double argument is converted to the
    parameter type. *)
Definition zftoa (P : platform) (M : libm) (f : float) :=
  if prec (double_fmt P) =? prec (float_fmt P)
  then zftoaf P M (cvt (float_fmt P) f)
  else zftoal P M (cvt (ldouble_fmt P) f).

(** A reference [libm] used to evaluate examples: [log10] returns the
    integer part of the exact logarithm, [pow] the correctly rounded
    power of ten, and [isinf] the sign of an infinity, as the macro of
    glibc does. *)
Fixpoint ilog10 (fuel : nat) (n : Z) : Z :=
  match fuel with
  | O => 0
  | S k => if n <? 10 then 0 else 1 + ilog10 k (n / 10)
  end.

Definition ref_log10 (F : fformat) (x : float) : float :=
  match x with
  | S754_finite false m e =>
      let big := (Z.to_nat (Z.abs e) + Pos.to_nat (Pos.size m))%nat in
      if 0 <=? e then of_int F (ilog10 big (Zpos m * 2 ^ e))
      else if 2 ^ (- e) <=? Zpos m then of_int F (ilog10 big (Zpos m / 2 ^ (- e)))
      else
        let r := 2 ^ (- e) in
        let k := ilog10 big (r / Zpos m) in
        (* [10^k <= 1/x]; the logarithm is [-k] exactly or lies in (-k-1, -k) *)
        of_int F (- k)
  | S754_zero _ => S754_infinity true
  | S754_infinity false => x
  | _ => S754_nan
  end.

Definition ref_pow (F : fformat) (x y : float) : float :=
  match trunc x, trunc y with
  | Some b, Some k =>
      if 0 <=? k then of_int F (b ^ k)
      else fdiv F (of_int F 1) (of_int F (b ^ (- k)))
  | _, _ => S754_nan
  end.

Definition ref_isinf (x : float) : Z :=
  match x with
  | S754_infinity true => -1
  | S754_infinity false => 1
  | _ => 0
  end.

Definition ref_libm : libm := mk_libm ref_log10 ref_pow ref_isinf.

(** An [isinf] that answers 0 or 1, as the macros of musl and of the
    BSDs do. *)
Definition bool_isinf (x : float) : Z :=
  match x with S754_infinity _ => 1 | _ => 0 end.

Definition bool_libm : libm := mk_libm ref_log10 ref_pow bool_isinf.

(** ** C strings

    A [const char *] is the list of the characters found from the pointer
    on; the string ends at the first NUL, or at the end of the list.
    Pointer arithmetic [p + k] is [skipn k]. *)

Definition is_nul (c : ascii) : bool := Ascii.eqb c NUL.

Fixpoint strlen (s : list ascii) : nat :=
  match s with
  | [] => O
  | c :: s' => if is_nul c then O else S (strlen s')
  end.

(** [strchr(s, c)] for [c] other than NUL: the offset of the first [c]. *)
Fixpoint strchr (s : list ascii) (c : ascii) : option nat :=
  match s with
  | [] => None
  | x :: s' =>
      if is_nul x then None
      else if Ascii.eqb x c then Some O
      else option_map S (strchr s' c)
  end.

(** [p != NULL] for a search result. *)
Definition found (r : option nat) : bool :=
  match r with Some _ => true | None => false end.

Definition mem_ascii (c : ascii) (accept : list ascii) : bool :=
  existsb (Ascii.eqb c) accept.

(** [strpbrk(s, accept)]: the offset of the first character of [s] that
    occurs in [accept]. *)
Fixpoint strpbrk (s : list ascii) (accept : list ascii) : option nat :=
  match s with
  | [] => None
  | x :: s' =>
      if is_nul x then None
      else if mem_ascii x accept then Some O
      else option_map S (strpbrk s' accept)
  end.

Fixpoint is_prefix (pat s : list ascii) : bool :=
  match pat, s with
  | [], _ => true
  | p :: pat', x :: s' => negb (is_nul x) && Ascii.eqb p x && is_prefix pat' s'
  | _ :: _, [] => false
  end.

(** [strstr(s, pat) != NULL] *)
Fixpoint strstr (s pat : list ascii) : bool :=
  is_prefix pat s ||
  match s with
  | [] => false
  | x :: s' => negb (is_nul x) && strstr s' pat
  end.

(** [strtol(nptr, endptr, 10)] for a [long] of [bits] bits: the value and
    the new [*endptr] (which is [nptr] when nothing was converted). *)
Definition isspace (c : ascii) : bool :=
  (ord c =? 32) || ((9 <=? ord c) && (ord c <=? 13)).

Definition isdigit (c : ascii) : bool :=
  (ord "0" <=? ord c) && (ord c <=? ord "9").

Fixpoint skip_spaces (s : list ascii) : list ascii :=
  match s with
  | c :: s' => if isspace c then skip_spaces s' else s
  | [] => []
  end.

Fixpoint scan_digits (s : list ascii) (acc : Z) : Z * list ascii :=
  match s with
  | c :: s' => if isdigit c then scan_digits s' (10 * acc + (ord c - ord "0")) else (acc, s)
  | [] => (acc, [])
  end.

Definition saturate (bits : Z) (v : Z) : Z :=
  Z.max (- 2 ^ (bits - 1)) (Z.min (2 ^ (bits - 1) - 1) v).

Definition strtol (bits : Z) (nptr : list ascii) : Z * list ascii :=
  let s := skip_spaces nptr in
  let '(neg, s) :=
    match s with
    | c :: s' =>
        if Ascii.eqb c "-" then (true, s')
        else if Ascii.eqb c "+" then (false, s')
        else (false, s)
    | [] => (false, s)
    end in
  match s with
  | c :: _ =>
      if isdigit c then
        let '(v, rest) := scan_digits s 0 in
        (saturate bits (if neg then - v else v), rest)
      else (0, nptr)
  | [] => (0, nptr)
  end.

(** ** The sub-specification parser *)

Definition ARG_SPECIFIED : Z := -2.
Definition PRECISION_UNSPECIFIED : Z := -1.
Definition DEFAULT_PRECISION : Z := 4.

(** [MAX_WIDTH_SUB_SPEC] is ["0-+ #" "-2147483648" "." "-2147483648" "ll"];
    [sizeof] counts its 30 characters and the NUL. *)
Definition MAX_WIDTH_SUB_SPEC : list ascii := str "0-+ #-2147483648.-2147483648ll".
Definition sizeof_subspec : nat := S (List.length MAX_WIDTH_SUB_SPEC).

(** [char tmp[sizeof(MAX_DEC_FMT_I32 "." MAX_DEC_FMT_I32)]] *)
Definition sizeof_tmp : nat := S (List.length (str "-2147483648.-2147483648")).

(** One pass of the body of the [while] in [getFlags] for the flag
    character [*flag]. *)
Definition apply_flag (flag : ascii) (flags : fmt_flags_t) : fmt_flags_t :=
  if Ascii.eqb flag "-" then set_leftAlign flags
  else if Ascii.eqb flag "+" then set_sign always_sign flags
  else if Ascii.eqb flag " " && negb (sign_eqb (sign flags) always_sign)
       then set_sign sign_or_space flags
  else if Ascii.eqb flag "#" then set_altForm flags
  else if Ascii.eqb flag "0" then set_zeropad flags
  else flags.

(** [while ((flag = strpbrk(subspec, "0-+ #"))) { ...; ++subspec; }] on the
    capped flag string; returns the flags and how far [subspec] moved. *)
Fixpoint getFlags_loop (subspec : list ascii) (flags : fmt_flags_t) : fmt_flags_t * nat :=
  match subspec with
  | [] => (flags, O)
  | _ :: subspec' =>
      match strpbrk subspec (str "0-+ #") with
      | Some k =>
          let flags := apply_flag (nth k subspec NUL) flags in
          let '(flags, moved) := getFlags_loop subspec' flags in
          (flags, S moved)
      | None => (flags, O)
      end
  end.

(** [getFlags]: the flags and the new [*endptr]. *)
Definition getFlags (subspec : list ascii) : fmt_flags_t * list ascii :=
  let capped :=
    match strpbrk subspec (str ".123456789") with
    | Some k => firstn k subspec
    | None => subspec
    end in
  let '(flags, moved) := getFlags_loop capped no_flags in
  (flags, skipn moved subspec).

Section Parser.
Variable P : platform.

(** [getWidth]: the returned [int] and the new [*endptr]. *)
Definition getWidth (subspec : list ascii) : Z * list ascii :=
  match subspec with
  | c :: subspec' =>
      if Ascii.eqb c "*" then (ARG_SPECIFIED, subspec')
      else let '(v, e) := strtol (long_bits P) subspec in (swrap (int_bits P) v, e)
  | [] => let '(v, e) := strtol (long_bits P) subspec in (swrap (int_bits P) v, e)
  end.

(** [getPrecision]: the returned [int] and the new [*endptr]. *)
Definition getPrecision (subspec : list ascii) : Z * list ascii :=
  match strchr subspec "." with
  | None => (PRECISION_UNSPECIFIED, subspec)
  | Some k =>
      let precstr := skipn (S k) subspec in
      match precstr with
      | "*"%char :: _ => (ARG_SPECIFIED, skipn 1 subspec)
      | _ =>
          let '(precval, e) := strtol (long_bits P) precstr in
          if (List.length e =? List.length precstr)%nat
          then (PRECISION_UNSPECIFIED, precstr)
          else (swrap (int_bits P) precval, e)
      end
  end.

Definition getLength (subspec : list ascii) : length_t :=
  if strstr subspec (str "ll") then length_long_long
  else if found (strchr subspec "l") then length_long
  else if found (strchr subspec "L") then length_long
  else if strstr subspec (str "j") then length_long_long
  else if strstr subspec (str "hh") then length_int
  else if strstr subspec (str "h") then length_int
  else if strstr subspec (str "z") then size_length P
  else if strstr subspec (str "t") then ptrdiff_length P
  else length_int.

(** [getSubspec(buf, maxlen, escape, specifier)] with [len] the distance
    from [escape + 1] to [specifier]. *)
Definition getSubspec (maxlen : nat) (after_escape : list ascii) (len : nat) : list ascii :=
  let len := if (maxlen <=? len)%nat then (maxlen - 1)%nat else len in
  firstn len after_escape.
End Parser.

(** ** Arguments

    The [va_list] is the list of the remaining arguments, each tagged
    with the type it was passed as; [va_arg] with another type is
    undefined. *)

Inductive arg :=
  | a_int (v : Z)                  (* int, unsigned *)
  | a_long (v : Z)                 (* long, unsigned long *)
  | a_llong (v : Z)                (* long long, unsigned long long *)
  | a_double (x : float)
  | a_ldouble (x : float)
  | a_ptr (v : Z)                  (* void * *)
  | a_str (s : list ascii)         (* const char *: the string pointed to *)
  | a_intptr (cell : nat).         (* int *: names the int it points to *)

Inductive fault :=
  | BadArgument          (* va_arg with a missing or differently typed argument *)
  | ScratchOverflow      (* a renderer wrote past the end of tmp *)
  | FloatConversion      (* float to integer conversion out of range *)
  | BufferOverrun        (* the destination is shorter than the capacity passed *)
  | WildPointer (cell : nat) (v : Z).
      (* a read through NULL + 1, reached after the store [*cell = v] *)

Inductive result (A : Type) :=
  | Ok (a : A)
  | Undefined (f : fault)
  | OutOfFuel.
Arguments Ok {A} a.
Arguments Undefined {A} f.
Arguments OutOfFuel {A}.

Notation "x <~ e ;; k" :=
  (match e with Ok x => k | Undefined f => Undefined f | OutOfFuel => OutOfFuel end)
  (at level 61, e at next level, right associativity).
Notation "' pat <~ e ;; k" :=
  (match e with Ok pat => k | Undefined f => Undefined f | OutOfFuel => OutOfFuel end)
  (at level 61, pat pattern, e at next level, right associativity).

Definition va_int (ap : list arg) : result (Z * list arg) :=
  match ap with a_int v :: ap' => Ok (v, ap') | _ => Undefined BadArgument end.
Definition va_long (ap : list arg) : result (Z * list arg) :=
  match ap with a_long v :: ap' => Ok (v, ap') | _ => Undefined BadArgument end.
Definition va_llong (ap : list arg) : result (Z * list arg) :=
  match ap with a_llong v :: ap' => Ok (v, ap') | _ => Undefined BadArgument end.
Definition va_double (ap : list arg) : result (float * list arg) :=
  match ap with a_double v :: ap' => Ok (v, ap') | _ => Undefined BadArgument end.
Definition va_ldouble (ap : list arg) : result (float * list arg) :=
  match ap with a_ldouble v :: ap' => Ok (v, ap') | _ => Undefined BadArgument end.
Definition va_ptr (ap : list arg) : result (Z * list arg) :=
  match ap with a_ptr v :: ap' => Ok (v, ap') | _ => Undefined BadArgument end.
Definition va_str (ap : list arg) : result (list ascii * list arg) :=
  match ap with a_str v :: ap' => Ok (v, ap') | _ => Undefined BadArgument end.
Definition va_intptr (ap : list arg) : result (nat * list arg) :=
  match ap with a_intptr v :: ap' => Ok (v, ap') | _ => Undefined BadArgument end.

(** ** The directive scanner *)

Definition conversion_letters : list ascii := str "duxXfFeEgGs%iocpaA".

Definition is_letter (c : ascii) (letters : string) : bool :=
  mem_ascii c (str letters).

(** A renderer has filled [tmp]; the text and its NUL must fit. *)
Definition in_tmp (text : list ascii) : result (list ascii) :=
  if (S (List.length text) <=? sizeof_tmp)%nat then Ok text
  else Undefined ScratchOverflow.

Definition float_in_tmp (r : option (list ascii)) : result (list ascii) :=
  match r with
  | Some text => in_tmp text
  | None => Undefined FloatConversion
  end.

Section Scanner.
Variable P : platform.
Variable M : libm.

Definition uint_of (v : Z) : Z := wrap (int_bits P) v.

(** [#define GMINF 0.0001] and [#define GMAXF 999999.9] *)
Definition GMINF : float := dlit P 1 10000.
Definition GMAXF : float := dlit P 9999999 10.

(** [absv < GMINF || absv > GMAXF] with [absv] of format [F]. *)
Definition outside_g_window (F : fformat) (absv : float) : bool :=
  let C := wider F (double_fmt P) in
  flt (cvt C absv) (cvt C GMINF) || flt (cvt C GMAXF) (cvt C absv).

(** The [flags.exp] selection shared by the two float branches. *)
Definition float_flags (spec : ascii) (F : fformat) (val : float)
    (flags : fmt_flags_t) : fmt_flags_t :=
  if is_letter spec "ea" then set_exp exp_e flags
  else if is_letter spec "EA" then set_exp exp_E flags
  else if is_letter spec "gG" then
    if outside_g_window F (SFabs val) then
      if Ascii.eqb spec "g" then set_exp exp_e flags else set_exp exp_E flags
    else flags
  else flags.

(** [precision == PRECISION_UNSPECIFIED ? DEFAULT_PRECISION : precision] *)
Definition float_precision (precision : Z) : Z :=
  if precision =? uint_of PRECISION_UNSPECIFIED then DEFAULT_PRECISION
  else precision.

(** The integer branch for one length class. *)
Definition render_integer (spec : ascii) (length : length_t) (width : Z)
    (flags : fmt_flags_t) (ap : list arg) : result (list ascii * list arg) :=
  match length with
  | length_int =>
      '(v, ap) <~ va_int ap ;;
      let val := uint_of v in
      text <~ in_tmp
        (if is_letter spec "di" then zitoa P val width flags
         else if Ascii.eqb spec "u" then zutoa P val width flags
         else if Ascii.eqb spec "x" then zxtoa P val width flags
         else if Ascii.eqb spec "X" then zXtoa P val width flags
         else zotoa P val width flags) ;;
      Ok (text, ap)
  | length_long =>
      '(v, ap) <~ va_long ap ;;
      let val := wrap (long_bits P) v in
      text <~ in_tmp
        (if is_letter spec "di" then zltoa P val width flags
         else if Ascii.eqb spec "u" then zultoa P val width flags
         else if Ascii.eqb spec "x" then zlxtoa P val width flags
         else if Ascii.eqb spec "X" then zlXtoa P val width flags
         else zlotoa P val width flags) ;;
      Ok (text, ap)
  | length_long_long =>
      '(v, ap) <~ va_llong ap ;;
      let val := u64 v in
      text <~ in_tmp
        (if is_letter spec "di" then zlltoa val width flags
         else if Ascii.eqb spec "u" then zulltoa val width flags
         else if Ascii.eqb spec "x" then zllxtoa val width flags
         else if Ascii.eqb spec "X" then zllXtoa val width flags
         else zllotoa val width flags) ;;
      Ok (text, ap)
  end.

Definition render_float (spec : ascii) (length : length_t) (width : Z)
    (precision : Z) (flags : fmt_flags_t) (ap : list arg)
    : result (list ascii * list arg) :=
  match length with
  | length_long =>
      '(val, ap) <~ va_ldouble ap ;;
      let val := cvt (ldouble_fmt P) val in
      let flags := float_flags spec (ldouble_fmt P) val flags in
      text <~ float_in_tmp (zftoal P M val width (float_precision precision) flags) ;;
      Ok (text, ap)
  | _ =>
      '(val, ap) <~ va_double ap ;;
      let val := cvt (double_fmt P) val in
      let flags := float_flags spec (double_fmt P) val flags in
      text <~ float_in_tmp (zftoa P M val width (float_precision precision) flags) ;;
      Ok (text, ap)
  end.

(** The chain of tests on the conversion letter that produces [tok]. *)
Definition render (spec : ascii) (length : length_t) (width precision : Z)
    (flags : fmt_flags_t) (ap : list arg) : result (list ascii * list arg) :=
  if Ascii.eqb spec "%" then Ok (str "%", ap)
  else if is_letter spec "diuxXo" then
    render_integer spec length width flags ap
  else if is_letter spec "fFeEgGaA" then
    render_float spec length width precision flags ap
  else if Ascii.eqb spec "p" then
    '(val, ap) <~ va_ptr ap ;;
    text <~ in_tmp (zllxtoa (u64 val) width flags) ;;
    Ok (text, ap)
  else if Ascii.eqb spec "s" then
    va_str ap
  else
    (* 'c' *)
    '(v, ap) <~ va_int ap ;;
    Ok ([chr v], ap).

(** [if (x == ARG_SPECIFIED) { x = va_arg(ap, int); }] for the unsigned
    [x] that holds the width or the precision. *)
Definition star_arg (x : Z) (ap : list arg) : result (Z * list arg) :=
  if x =? uint_of ARG_SPECIFIED
  then '(v, ap) <~ va_int ap ;; Ok (uint_of v, ap)
  else Ok (x, ap).

(** The body of [if (spec) { ... }]: [after_escape] is [escape + 1] and
    [k] the offset of [spec] in it.  Returns [tok] and the advanced
    argument list; [src] becomes [spec + 1]. *)
Definition convert (after_escape : list ascii) (k : nat) (ap : list arg)
    : result (list ascii * list arg) :=
  let spec := nth k after_escape NUL in
  let subspec := getSubspec sizeof_subspec after_escape k in
  let '(flags, endptr) := getFlags subspec in
  let '(w, endptr) := getWidth P endptr in
  '(width, ap) <~ star_arg (uint_of w) ap ;;
  let '(p, endptr) := getPrecision P endptr in
  '(precision, ap) <~ star_arg (uint_of p) ap ;;
  let length := getLength P endptr in
  render spec length width precision flags ap.
End Scanner.

(** ** The output assembler and [zvsnprintf] *)

(** [ZCOAP_MEMCPY(dest, src, toklen)] with [dest] an offset into the
    destination [buf].  The macro comes from [config.h] and is taken to
    be [memcpy]; a copy that leaves the destination object is
    undefined. *)
Definition memcpy (buf : list ascii) (dest : nat) (src : list ascii) (toklen : nat)
    : result (list ascii) :=
  if (dest + toklen <=? List.length buf)%nat
  then Ok (firstn dest buf ++ firstn toklen src ++ skipn (dest + toklen) buf)
  else Undefined BufferOverrun.

(** [buf[i] = c] *)
Definition store (buf : list ascii) (i : nat) (c : ascii) : result (list ascii) :=
  if (i <? List.length buf)%nat
  then Ok (firstn i buf ++ c :: skipn (S i) buf)
  else Undefined BufferOverrun.

(** The locals [remain], [len], [dest] and the destination contents. *)
Record cursor := mk_cursor {
  remain : nat;
  len : Z;
  dest : nat;
  buf : list ascii
}.

Section Assembler.
Variable P : platform.
Variable M : libm.

(** [len += toklen] in [size_t]. *)
Definition add_len (len : Z) (toklen : nat) : Z :=
  wrap (size_t_bits P) (len + Z.of_nat toklen).

(** [len += toklen; if (toklen >= remain) { toklen = remain; }
     remain -= toklen; ZCOAP_MEMCPY(dest, src, toklen); dest += toklen;] *)
Definition copy_span (c : cursor) (src : list ascii) (toklen : nat) : result cursor :=
  let len := add_len (len c) toklen in
  let toklen := if (remain c <=? toklen)%nat then remain c else toklen in
  let remain := (remain c - toklen)%nat in
  buf <~ memcpy (buf c) (dest c) src toklen ;;
  Ok (mk_cursor remain len (dest c + toklen) buf).

(** [toklen = strlen(tok); len += toklen; if (toklen > remain) { toklen = remain; }
     remain -= toklen; ZCOAP_MEMCPY(dest, tok, toklen); dest += toklen;] *)
Definition copy_token (c : cursor) (tok : list ascii) : result cursor :=
  let toklen := strlen tok in
  let len := add_len (len c) toklen in
  let toklen := if (remain c <? toklen)%nat then remain c else toklen in
  let remain := (remain c - toklen)%nat in
  buf <~ memcpy (buf c) (dest c) tok toklen ;;
  Ok (mk_cursor remain len (dest c + toklen) buf).

(** The block after the loop: the tail of the format, then the NUL. *)
Definition finish (n : nat) (c : cursor) (src : list ascii) : result (Z * list ascii) :=
  c <~ copy_span c src (strlen src) ;;
  if negb (remain c =? 0)%nat then
    buf <~ store (buf c) (dest c) NUL ;; Ok (len c, buf)
  else if negb (n =? 0)%nat then
    buf <~ store (buf c) (n - 1) NUL ;; Ok (len c, buf)
  else Ok (len c, buf c).

(** The loop [while ((escape = strchr(src, '%')))] followed by [finish].
    Every iteration moves [src] forward, so [S (length fmt)] units of
    fuel are enough ([scan_fuel]). *)
Fixpoint scan (fuel : nat) (n : nat) (c : cursor) (src : list ascii) (ap : list arg)
    : result (Z * list ascii) :=
  match fuel with
  | O => OutOfFuel
  | S fuel' =>
      match strchr src "%" with
      | Some k =>
          c <~ copy_span c src k ;;
          let after_escape := skipn (S k) src in
          match strpbrk after_escape conversion_letters with
          | Some j =>
              (* src = spec + 1 *)
              '(tok, ap) <~ convert P M after_escape j ap ;;
              c <~ copy_token c tok ;;
              scan fuel' n c (skipn (S j) after_escape) ap
          | None =>
              if found (strchr after_escape "n") then
                (* src = spec + 1 with spec == NULL, then the store
                   through the int pointer; the loop test then reads
                   from [src] *)
                '(cell, ap) <~ va_intptr ap ;;
                Undefined (WildPointer cell (Z.of_nat (n - remain c)))
              else
                (* src = escape + 1 *)
                scan fuel' n c after_escape ap
          end
      | None => finish n c src
      end
  end.

(** [zvsnprintf(buf, n, fmt, ap)]: the returned length and the final
    contents of the destination. *)
Definition zvsnprintf (buf : list ascii) (n : nat) (fmt : list ascii) (ap : list arg)
    : result (Z * list ascii) :=
  scan (S (List.length fmt)) n (mk_cursor n 0 0 buf) fmt ap.

(** [zsnprintf] passes its variable arguments on. *)
Definition zsnprintf := zvsnprintf.

(** The untruncated output: the literal spans and the tokens, in order,
    as [scan] hands them to [copy_span] and [copy_token]. *)
Fixpoint formatted_from (fuel : nat) (src : list ascii) (ap : list arg)
    : result (list ascii) :=
  match fuel with
  | O => OutOfFuel
  | S fuel' =>
      match strchr src "%" with
      | Some k =>
          let after_escape := skipn (S k) src in
          match strpbrk after_escape conversion_letters with
          | Some j =>
              '(tok, ap) <~ convert P M after_escape j ap ;;
              rest <~ formatted_from fuel' (skipn (S j) after_escape) ap ;;
              Ok (firstn k src ++ firstn (strlen tok) tok ++ rest)
          | None =>
              if found (strchr after_escape "n") then
                '(cell, ap) <~ va_intptr ap ;;
                Undefined (WildPointer cell 0)
              else
                rest <~ formatted_from fuel' after_escape ap ;;
                Ok (firstn k src ++ rest)
          end
      | None => Ok (firstn (strlen src) src)
      end
  end.

Definition formatted (fmt : list ascii) (ap : list arg) : result (list ascii) :=
  formatted_from (S (List.length fmt)) fmt ap.
End Assembler.

(** * Vocabulary of the statements

    Definitions used to state the properties: none of them is part of
    the program. *)

Definition show (l : list ascii) : string := string_of_list_ascii l.

(** What the destination holds after a call with capacity [n] whose
    untruncated output is [text]. *)
Definition assembled (n : nat) (text buf0 : list ascii) : list ascii :=
  if (n =? 0)%nat then buf0
  else
    let k := Nat.min (List.length text) (n - 1) in
    firstn k text ++ NUL :: skipn (S k) buf0.

(** The cursor after the text [t] has been handed to the assembler. *)
Definition holds (P : platform) (n : nat) (buf0 : list ascii)
    (t : list ascii) (c : cursor) : Prop :=
  len c = wrap (size_t_bits P) (Z.of_nat (List.length t)) /\
  dest c = Nat.min (List.length t) n /\
  remain c = (n - dest c)%nat /\
  buf c = firstn (dest c) t ++ skipn (dest c) buf0.

(** A list without NUL is a C string as it stands. *)
Definition no_nul (s : list ascii) : Prop := strlen s = List.length s.

(** The fields of the flags that some renderer reads. *)
Definition core (f : fmt_flags_t) : fmt_flags_t :=
  mk_flags false (sign f) false (zeropad f) (exp f).

(** The flag characters. *)
Definition flag_chars : list ascii := str "0-+ #".

(** Directives that are complete within a prefix of the format. *)
Inductive closed : list ascii -> Prop :=
  | closed_nil : closed []
  | closed_directive (lit sub pre : list ascii) (conv : ascii) :
      no_nul lit -> strchr lit "%" = None ->
      no_nul sub -> strpbrk sub conversion_letters = None ->
      mem_ascii conv conversion_letters = true ->
      closed pre ->
      closed (lit ++ "%"%char :: sub ++ conv :: pre).

(** Value of a little-endian digit list in radix [r]. *)
Fixpoint eval (r : Z) (ds : list Z) : Z :=
  match ds with
  | [] => 0
  | d :: ds' => d + r * eval r ds'
  end.

(** Number of digits of [n] in radix [r] (one for zero), for the values
    a 64-bit renderer can be given. *)
Fixpoint ndigits_fuel (fuel : nat) (r n : Z) : nat :=
  match fuel with
  | O => 1
  | S k => if n <? r then 1 else S (ndigits_fuel k r (n / r))
  end.

Definition ndigits (r n : Z) : nat := ndigits_fuel 64 r n.

(** Index of the most significant non-zero digit, 0 if there is none. *)
Fixpoint top (ds : list Z) : nat :=
  match ds with
  | [] => O
  | _ :: ds' => if forallb (Z.eqb 0) ds' then O else S (top ds')
  end.

Definition in_radix (r : Z) (ds : list Z) : Prop :=
  Forall (fun d => 0 <= d < r) ds.

(** The [k] low digits of [n] in radix [r], from position [j] on. *)
Definition positional (r n : Z) (j k : nat) : list Z :=
  map (fun i => (n / r ^ Z.of_nat i) mod r) (seq j k).

(** The digits the loop stores, least significant first. *)
Fixpoint lsd (fuel : nat) (n : Z) : list Z :=
  match fuel with
  | O => []
  | S k => if n =? 0 then [] else n mod 10 :: lsd k (n / 10)
  end.

(** Digit capacity of the pad loop on each decimal path. *)
Definition dec_capacity_unsigned (s : int_size_t) (n : Z) : nat :=
  match s with
  | ZS16 => 5
  | ZS32 => 10
  | ZS64 => if n <=? UINT32_MAX then 10 else 21
  end.

Definition dec_capacity_signed (s : int_size_t) (n : Z) : nat :=
  match s with
  | ZS16 => 5
  | ZS32 => 10
  | ZS64 => if (INT32_MIN <=? n) && (n <=? INT32_MAX) then 10 else 20
  end.

(** Reading a rendered integer back, as [strtoll] / [strtoull] would in
    radix [r]: an optional ['-'] and digits below [r]. *)
Definition digit_value (c : ascii) : option Z :=
  let v := ord c in
  if (ord "0" <=? v) && (v <=? ord "9") then Some (v - ord "0")
  else if (ord "a" <=? v) && (v <=? ord "f") then Some (v - ord "a" + 10)
  else if (ord "A" <=? v) && (v <=? ord "F") then Some (v - ord "A" + 10)
  else None.

Fixpoint parse_digits (r : Z) (s : list ascii) (acc : Z) : option Z :=
  match s with
  | [] => Some acc
  | c :: s' =>
      match digit_value c with
      | Some d => if d <? r then parse_digits r s' (r * acc + d) else None
      | None => None
      end
  end.

Definition parse (r : Z) (s : list ascii) : option Z :=
  match s with
  | [] => None
  | c :: s' =>
      if Ascii.eqb c "-" then option_map Z.opp (parse_digits r s' 0)
      else parse_digits r s 0
  end.

(** The value of the decimal constant [p / q] as a double, and as a long
    double argument. *)
Definition double_of (P : platform) (p q : Z) : float := dlit P p q.
Definition ldouble_of (P : platform) (p q : Z) : float :=
  cvt (ldouble_fmt P) (dlit P p q).

(** Every character of [text] occurs in [alphabet]. *)
Definition made_of (alphabet : string) (text : list ascii) : bool :=
  forallb (fun c => mem_ascii c (str alphabet)) text.

(** What stands between the precision and the conversion letter: no flag
    character, digit, ['.'], ['*'], white space or NUL. *)
Definition modifier_char (c : ascii) : bool :=
  negb (mem_ascii c (str "0123456789.*+-# ")) && negb (isspace c) && negb (is_nul c).

Definition modifier_only (s : list ascii) : bool := forallb modifier_char s.

(** Value of a decimal numeral as [strtol] accumulates it; 0 for the
    empty one. *)
Definition numeral (ds : list ascii) : Z := fst (scan_digits ds 0).

(** A width or precision as it is usually written: decimal digits, the
    first of them not ['0']. *)
Definition is_numeral (ds : list ascii) : bool :=
  forallb isdigit ds && negb (Ascii.eqb (hd "1"%char ds) "0").

(** What may follow the width: nothing, length modifiers, or a ['.']
    and anything. *)
Definition after_width (X : list ascii) : Prop :=
  modifier_only X = true \/ exists t, X = "."%char :: t.

(** Characters that are neither NUL nor a conversion letter. *)
Definition plain_char (c : ascii) : bool :=
  negb (is_nul c) && negb (mem_ascii c conversion_letters).

(** The precision part of a sub-specification: absent, or a ['.'] and
    digits. *)
Definition precision_part (dot : bool) (pd : list ascii) : list ascii :=
  if dot then "."%char :: pd else [].

(** The flags a run of flag characters stands for: each flag is set when
    its character occurs, and ['+'] prevails over [' ']. *)
Definition flags_of (fl : list ascii) : fmt_flags_t :=
  mk_flags (mem_ascii "-" fl)
    (if mem_ascii "+" fl then always_sign
     else if mem_ascii " " fl then sign_or_space else auto_sign)
    (mem_ascii "#" fl) (mem_ascii "0" fl) exp_none.

(** The letter ['e'] turned into ['E']. *)
Definition upper_e (c : ascii) : ascii := if Ascii.eqb c "e" then "E"%char else c.





(** * Properties *)

(** ** The output assembler *)

Lemma strlen_le (s : list ascii) : (strlen s <= List.length s)%nat.
Proof.
  induction s as [|c s IH]; simpl; [lia|].
  destruct (is_nul c); simpl; lia.
Qed.

Lemma strchr_le (s : list ascii) (c : ascii) (k : nat) :
  strchr s c = Some k -> (k < List.length s)%nat.
Proof.
  revert k; induction s as [|x s IH]; simpl; intros k H; [discriminate|].
  destruct (is_nul x); [discriminate|].
  destruct (Ascii.eqb x c).
  - injection H as <-; lia.
  - destruct (strchr s c) as [k'|]; simpl in H; [|discriminate].
    injection H as <-. specialize (IH k' eq_refl). lia.
Qed.

Lemma strpbrk_le (s accept : list ascii) (k : nat) :
  strpbrk s accept = Some k -> (k < List.length s)%nat.
Proof.
  revert k; induction s as [|x s IH]; simpl; intros k H; [discriminate|].
  destruct (is_nul x); [discriminate|].
  destruct (mem_ascii x accept).
  - injection H as <-; lia.
  - destruct (strpbrk s accept) as [k'|]; simpl in H; [|discriminate].
    injection H as <-. specialize (IH k' eq_refl). lia.
Qed.

Lemma firstn_prefix_app (a b : nat) (t r : list ascii) :
  (a <= b)%nat -> (b <= List.length t)%nat ->
  firstn a (firstn b t ++ r) = firstn a t.
Proof.
  intros Hab Hb. rewrite firstn_app, firstn_firstn, length_firstn.
  replace (a - Nat.min b (List.length t))%nat with O by lia.
  replace (Nat.min a b) with a by lia.
  rewrite firstn_O, app_nil_r. reflexivity.
Qed.

Lemma skipn_prefix_app (a b : nat) (t r : list ascii) :
  (b <= a)%nat -> (b <= List.length t)%nat ->
  skipn a (firstn b t ++ r) = skipn (a - b) r.
Proof.
  intros Hab Hb. rewrite skipn_app, length_firstn.
  rewrite (skipn_all2 (n := a)) by (rewrite length_firstn; lia).
  replace (Nat.min b (List.length t)) with b by lia. reflexivity.
Qed.

Section AssemblerProofs.
Variable P : platform.
Variable M : libm.
Variable n : nat.
Variable buf0 : list ascii.
Hypothesis capacity : (n <= List.length buf0)%nat.

Lemma holds_init : holds P n buf0 [] (mk_cursor n 0 0 buf0).
Proof.
  unfold holds; simpl. repeat split; lia.
Qed.

Lemma size_t_bits_pos : 0 < 2 ^ size_t_bits P.
Proof.
  apply Z.pow_pos_nonneg; [lia|].
  unfold size_t_bits, int_bits, long_bits, long_size, size_bits.
  destruct (size_length P), (int_size P), (long_is_64 P); lia.
Qed.

Lemma add_len_holds (t seg : list ascii) (l : Z) :
  l = wrap (size_t_bits P) (Z.of_nat (List.length t)) ->
  add_len P l (List.length seg)
  = wrap (size_t_bits P) (Z.of_nat (List.length (t ++ seg))).
Proof.
  intros ->. unfold add_len, wrap.
  rewrite Zplus_mod_idemp_l, length_app, Nat2Z.inj_add. reflexivity.
Qed.

(** Copying [toklen = min k (remain c)] characters of a segment. *)
Lemma memcpy_holds (t seg src : list ascii) (c : cursor) (toklen : nat) :
  holds P n buf0 t c ->
  firstn (List.length seg) src = seg ->
  toklen = Nat.min (List.length seg) (remain c) ->
  exists b,
    memcpy (buf c) (dest c) src toklen = Ok b /\
    holds P n buf0 (t ++ seg)
      (mk_cursor (remain c - toklen) (add_len P (len c) (List.length seg))
                 (dest c + toklen) b).
Proof.
  intros (Hl & Hd & Hr & Hb) Hseg Htok.
  assert (Hlen : List.length (buf c) = List.length buf0).
  { rewrite Hb, length_app, length_firstn, length_skipn. lia. }
  unfold memcpy.
  assert (Hfit : (dest c + toklen <= List.length (buf c))%nat) by lia.
  apply Nat.leb_le in Hfit. rewrite Hfit.
  eexists; split; [reflexivity|].
  unfold holds; simpl.
  split; [apply add_len_holds; exact Hl|].
  assert (Hd' : (dest c + toklen)%nat = Nat.min (List.length (t ++ seg)) n).
  { rewrite length_app. lia. }
  split; [exact Hd'|].
  split; [lia|].
  assert (Hx : firstn toklen src = firstn toklen seg).
  { transitivity (firstn toklen (firstn (List.length seg) src)).
    - rewrite firstn_firstn. f_equal. lia.
    - rewrite Hseg. reflexivity. }
  rewrite Hx.
  rewrite Hb at 1. rewrite firstn_prefix_app by lia.
  rewrite Hb at 1. rewrite skipn_prefix_app by lia.
  rewrite skipn_skipn.
  replace (dest c + toklen - dest c + dest c)%nat with (dest c + toklen)%nat by lia.
  rewrite app_assoc. f_equal.
  rewrite firstn_app.
  destruct (Nat.le_gt_cases (List.length t) n) as [Hfits|Hfull].
  - replace (dest c) with (List.length t) by lia.
    rewrite firstn_all.
    rewrite (firstn_all2 (n := List.length t + toklen)) by lia.
    f_equal. f_equal. lia.
  - assert (Hx0 : toklen = O) by lia. rewrite Hx0, Nat.add_0_r.
    replace (dest c - List.length t)%nat with O by lia.
    reflexivity.
Qed.

Lemma copy_span_holds (t src : list ascii) (c : cursor) (k : nat) :
  holds P n buf0 t c -> (k <= List.length src)%nat ->
  exists c', copy_span P c src k = Ok c' /\ holds P n buf0 (t ++ firstn k src) c'.
Proof.
  intros H Hk. unfold copy_span.
  assert (Hseg : List.length (firstn k src) = k)
    by (rewrite length_firstn; lia).
  destruct (memcpy_holds t (firstn k src) src c
              (if (remain c <=? k)%nat then remain c else k) H)
    as (b & Hm & Hh).
  - rewrite Hseg. reflexivity.
  - rewrite Hseg. destruct (Nat.leb_spec (remain c) k); lia.
  - rewrite Hm. eexists; split; [reflexivity|].
    rewrite Hseg in Hh. exact Hh.
Qed.

Lemma copy_token_holds (t tok : list ascii) (c : cursor) :
  holds P n buf0 t c ->
  exists c', copy_token P c tok = Ok c' /\ holds P n buf0 (t ++ firstn (strlen tok) tok) c'.
Proof.
  intros H. unfold copy_token.
  pose proof (strlen_le tok) as Hk.
  assert (Hseg : List.length (firstn (strlen tok) tok) = strlen tok)
    by (rewrite length_firstn; lia).
  destruct (memcpy_holds t (firstn (strlen tok) tok) tok c
              (if (remain c <? strlen tok)%nat then remain c else strlen tok) H)
    as (b & Hm & Hh).
  - rewrite Hseg. reflexivity.
  - rewrite Hseg. destruct (Nat.ltb_spec (remain c) (strlen tok)); lia.
  - rewrite Hm. eexists; split; [reflexivity|].
    rewrite Hseg in Hh. exact Hh.
Qed.

Lemma finish_holds (t src : list ascii) (c : cursor) :
  holds P n buf0 t c ->
  let text := t ++ firstn (strlen src) src in
  finish P n c src
  = Ok (wrap (size_t_bits P) (Z.of_nat (List.length text)), assembled n text buf0).
Proof.
  intros H text. unfold finish.
  destruct (copy_span_holds t src c (strlen src) H (strlen_le src))
    as (c' & -> & (Hl & Hd & Hr & Hb)).
  fold text in Hl, Hd, Hb.
  unfold assembled, store.
  assert (Hlen : List.length (buf c') = List.length buf0).
  { rewrite Hb, length_app, length_firstn, length_skipn. lia. }
  destruct (Nat.eqb_spec (remain c') 0) as [Hz|Hnz]; cbn [negb].
  - destruct (Nat.eqb_spec n 0) as [Hn|Hn]; cbn [negb].
    + rewrite Hl, Hb. replace (dest c') with O by lia. reflexivity.
    + assert (Hlt : (n - 1 <? List.length (buf c'))%nat = true)
        by (apply Nat.ltb_lt; lia).
      rewrite Hlt, Hl. f_equal. f_equal.
      replace (Nat.min (List.length text) (n - 1)) with (n - 1)%nat by lia.
      rewrite Hb.
      rewrite firstn_prefix_app by lia.
      rewrite skipn_prefix_app by lia.
      rewrite skipn_skipn. do 3 f_equal. lia.
  - assert (Hn : n <> O) by lia.
    apply Nat.eqb_neq in Hn. rewrite Hn.
    assert (Hlt : (dest c' <? List.length (buf c'))%nat = true)
      by (apply Nat.ltb_lt; lia).
    rewrite Hlt, Hl. f_equal. f_equal.
    assert (Hdn : dest c' = List.length text) by lia.
    replace (Nat.min (List.length text) (n - 1)) with (List.length text) by lia.
    rewrite Hb, Hdn.
    rewrite firstn_prefix_app by lia.
    rewrite skipn_prefix_app by lia.
    rewrite skipn_skipn. do 3 f_equal. lia.
Qed.

(** The loop hands [formatted_from] to the assembler piece by piece. *)
Lemma scan_formatted (fuel : nat) :
  forall (c : cursor) (src : list ascii) (ap : list arg) (t rest : list ascii),
    holds P n buf0 t c ->
    formatted_from P M fuel src ap = Ok rest ->
    scan P M fuel n c src ap
    = Ok (wrap (size_t_bits P) (Z.of_nat (List.length (t ++ rest))),
          assembled n (t ++ rest) buf0).
Proof.
  induction fuel as [|fuel IH]; intros c src ap t rest H Hf;
    cbn [scan formatted_from] in *; [discriminate|].
  destruct (strchr src "%") as [k|] eqn:Hk.
  - apply strchr_le in Hk.
    destruct (copy_span_holds t src c k H) as (c1 & -> & H1); [lia|].
    remember (skipn (S k) src) as after_escape.
    destruct (strpbrk after_escape conversion_letters) as [j|].
    + destruct (convert P M after_escape j ap) as [[tok ap']| |];
        try discriminate.
      destruct (copy_token_holds _ tok c1 H1) as (c2 & -> & H2).
      destruct (formatted_from P M fuel _ ap') as [rest'| |] eqn:Hr;
        try discriminate.
      injection Hf as <-.
      rewrite (IH _ _ _ _ _ H2 Hr). rewrite <- !app_assoc. reflexivity.
    + destruct (found (strchr after_escape "n")).
      * destruct (va_intptr ap) as [[cell ap']| |]; discriminate.
      * destruct (formatted_from P M fuel _ ap) as [rest'| |] eqn:Hr;
          try discriminate.
        injection Hf as <-.
        rewrite (IH _ _ _ _ _ H1 Hr). rewrite <- !app_assoc. reflexivity.
  - injection Hf as <-. apply finish_holds. exact H.
Qed.
End AssemblerProofs.

(** The fuel given by [zvsnprintf] and [formatted] is never exhausted. *)
Lemma skipn_S_length (k : nat) (s : list ascii) :
  (k < List.length s)%nat -> (List.length (skipn (S k) s) < List.length s)%nat.
Proof. intros H. rewrite length_skipn. lia. Qed.

(** No step of a conversion consumes fuel. *)
Ltac break_result :=
  repeat match goal with
    | |- context [match ?x with Ok _ => _ | Undefined _ => _ | OutOfFuel => _ end] =>
        let H := fresh "H" in destruct x eqn:H
    | |- context [let '(_, _) := ?x in _] => destruct x
    | |- context [if ?b then _ else _] => destruct b
    end.

Lemma va_int_fuel (ap : list arg) : va_int ap <> OutOfFuel.
Proof. destruct ap as [|[]]; discriminate. Qed.
Lemma va_long_fuel (ap : list arg) : va_long ap <> OutOfFuel.
Proof. destruct ap as [|[]]; discriminate. Qed.
Lemma va_llong_fuel (ap : list arg) : va_llong ap <> OutOfFuel.
Proof. destruct ap as [|[]]; discriminate. Qed.
Lemma va_double_fuel (ap : list arg) : va_double ap <> OutOfFuel.
Proof. destruct ap as [|[]]; discriminate. Qed.
Lemma va_ldouble_fuel (ap : list arg) : va_ldouble ap <> OutOfFuel.
Proof. destruct ap as [|[]]; discriminate. Qed.
Lemma va_ptr_fuel (ap : list arg) : va_ptr ap <> OutOfFuel.
Proof. destruct ap as [|[]]; discriminate. Qed.
Lemma va_str_fuel (ap : list arg) : va_str ap <> OutOfFuel.
Proof. destruct ap as [|[]]; discriminate. Qed.
Lemma in_tmp_fuel (text : list ascii) : in_tmp text <> OutOfFuel.
Proof. unfold in_tmp. destruct (_ <=? _)%nat; discriminate. Qed.
Lemma float_in_tmp_fuel (r : option (list ascii)) : float_in_tmp r <> OutOfFuel.
Proof. destruct r; [apply in_tmp_fuel|discriminate]. Qed.

Ltac fuel_contradiction :=
  match goal with
  | H : va_int _ = OutOfFuel |- _ => exact (False_ind _ (va_int_fuel _ H))
  | H : va_long _ = OutOfFuel |- _ => exact (False_ind _ (va_long_fuel _ H))
  | H : va_llong _ = OutOfFuel |- _ => exact (False_ind _ (va_llong_fuel _ H))
  | H : va_double _ = OutOfFuel |- _ => exact (False_ind _ (va_double_fuel _ H))
  | H : va_ldouble _ = OutOfFuel |- _ => exact (False_ind _ (va_ldouble_fuel _ H))
  | H : va_ptr _ = OutOfFuel |- _ => exact (False_ind _ (va_ptr_fuel _ H))
  | H : va_str _ = OutOfFuel |- _ => exact (False_ind _ (va_str_fuel _ H))
  | H : in_tmp _ = OutOfFuel |- _ => exact (False_ind _ (in_tmp_fuel _ H))
  | H : float_in_tmp _ = OutOfFuel |- _ => exact (False_ind _ (float_in_tmp_fuel _ H))
  end.

Lemma render_integer_fuel (P : platform) (spec : ascii) (length : length_t)
    (width : Z) (flags : fmt_flags_t) (ap : list arg) :
  render_integer P spec length width flags ap <> OutOfFuel.
Proof.
  unfold render_integer. destruct length;
    break_result; try discriminate; fuel_contradiction.
Qed.

Lemma render_float_fuel (P : platform) (M : libm) (spec : ascii) (length : length_t)
    (width precision : Z) (flags : fmt_flags_t) (ap : list arg) :
  render_float P M spec length width precision flags ap <> OutOfFuel.
Proof.
  unfold render_float. destruct length;
    break_result; try discriminate; fuel_contradiction.
Qed.

Lemma star_arg_fuel (P : platform) (x : Z) (ap : list arg) :
  star_arg P x ap <> OutOfFuel.
Proof.
  unfold star_arg. destruct (_ =? _); [|discriminate].
  destruct ap as [|[]]; discriminate.
Qed.

Lemma convert_fuel (P : platform) (M : libm) (after_escape : list ascii) (k : nat)
    (ap : list arg) :
  convert P M after_escape k ap <> OutOfFuel.
Proof.
  unfold convert.
  destruct (getFlags _) as [flags e1].
  destruct (getWidth P e1) as [w e2].
  destruct (star_arg P (uint_of P w) ap) as [[width ap1]| |] eqn:H1;
    [|discriminate|exact (False_ind _ (star_arg_fuel _ _ _ H1))].
  destruct (getPrecision P e2) as [p e3].
  destruct (star_arg P (uint_of P p) ap1) as [[precision ap2]| |] eqn:H2;
    [|discriminate|exact (False_ind _ (star_arg_fuel _ _ _ H2))].
  unfold render.
  destruct (Ascii.eqb _ _); [discriminate|].
  destruct (is_letter _ _); [apply render_integer_fuel|].
  destruct (is_letter _ _); [apply render_float_fuel|].
  destruct (Ascii.eqb _ _).
  { destruct (va_ptr ap2) as [[v ap3]| |] eqn:H3;
      [|discriminate|exact (False_ind _ (va_ptr_fuel _ H3))].
    destruct (in_tmp _) eqn:H4;
      [discriminate|discriminate|exact (False_ind _ (in_tmp_fuel _ H4))]. }
  destruct (Ascii.eqb _ _); [apply va_str_fuel|].
  destruct (va_int ap2) as [[v ap3]| |] eqn:H3;
    [discriminate|discriminate|exact (False_ind _ (va_int_fuel _ H3))].
Qed.

Lemma formatted_from_fuel (P : platform) (M : libm) (fuel : nat) :
  forall (src : list ascii) (ap : list arg),
    (List.length src < fuel)%nat -> formatted_from P M fuel src ap <> OutOfFuel.
Proof.
  induction fuel as [|fuel IH]; intros src ap Hlt; [lia|].
  cbn [formatted_from].
  destruct (strchr src "%") as [k|] eqn:Hk; [|discriminate].
  apply strchr_le, skipn_S_length in Hk.
  remember (skipn (S k) src) as after_escape.
  destruct (strpbrk after_escape conversion_letters) as [j|] eqn:Hj.
  - destruct (convert P M after_escape j ap) as [[tok ap']| |] eqn:Hc;
      try discriminate.
    2:{ exfalso. exact (convert_fuel _ _ _ _ _ Hc). }
    apply strpbrk_le, skipn_S_length in Hj.
    specialize (IH (skipn (S j) after_escape) ap' ltac:(lia)).
    destruct (formatted_from P M fuel _ ap'); congruence.
  - destruct (found (strchr after_escape "n")).
    + destruct ap as [|[]]; discriminate.
    + specialize (IH after_escape ap ltac:(lia)).
      destruct (formatted_from P M fuel _ ap); congruence.
Qed.

Lemma copy_span_fuel (P : platform) (c : cursor) (src : list ascii) (k : nat) :
  copy_span P c src k <> OutOfFuel.
Proof. unfold copy_span, memcpy. destruct (_ <=? _)%nat; discriminate. Qed.

Lemma copy_token_fuel (P : platform) (c : cursor) (tok : list ascii) :
  copy_token P c tok <> OutOfFuel.
Proof. unfold copy_token, memcpy. destruct (_ <=? _)%nat; discriminate. Qed.

Lemma finish_fuel (P : platform) (n : nat) (c : cursor) (src : list ascii) :
  finish P n c src <> OutOfFuel.
Proof.
  unfold finish.
  destruct (copy_span P c src (strlen src)) as [c'| |] eqn:H; try discriminate.
  - unfold store.
    destruct (negb _); [destruct (_ <? _)%nat; discriminate|].
    destruct (negb _); [destruct (_ <? _)%nat; discriminate|discriminate].
  - exfalso. exact (copy_span_fuel _ _ _ _ H).
Qed.

Lemma scan_fuel (P : platform) (M : libm) (n : nat) (fuel : nat) :
  forall (c : cursor) (src : list ascii) (ap : list arg),
    (List.length src < fuel)%nat -> scan P M fuel n c src ap <> OutOfFuel.
Proof.
  induction fuel as [|fuel IH]; intros c src ap Hlt; [lia|].
  cbn [scan].
  destruct (strchr src "%") as [k|] eqn:Hk; [|apply finish_fuel].
  apply strchr_le, skipn_S_length in Hk.
  destruct (copy_span P c src k) as [c1| |] eqn:H1; try discriminate.
  2:{ exfalso. exact (copy_span_fuel _ _ _ _ H1). }
  remember (skipn (S k) src) as after_escape.
  destruct (strpbrk after_escape conversion_letters) as [j|] eqn:Hj.
  - destruct (convert P M after_escape j ap) as [[tok ap']| |] eqn:Hc;
      try discriminate.
    2:{ exfalso. exact (convert_fuel _ _ _ _ _ Hc). }
    destruct (copy_token P c1 tok) as [c2| |] eqn:H2; try discriminate.
    2:{ exfalso. exact (copy_token_fuel _ _ _ H2). }
    apply strpbrk_le, skipn_S_length in Hj.
    apply IH. lia.
  - destruct (found (strchr after_escape "n")).
    + destruct ap as [|[]]; discriminate.
    + apply IH. lia.
Qed.

(** [zvsnprintf] always finishes: it returns or its behaviour is
    undefined. *)
Lemma zvsnprintf_fuel (P : platform) (M : libm) (buf0 : list ascii) (n : nat)
    (fmt : list ascii) (ap : list arg) :
  zvsnprintf P M buf0 n fmt ap <> OutOfFuel.
Proof. apply scan_fuel. lia. Qed.

(** Whenever a call returns, its untruncated output is defined. *)
Lemma scan_returns_formatted (P : platform) (M : libm) (n : nat) (fuel : nat) :
  forall (c : cursor) (src : list ascii) (ap : list arg) (r : Z * list ascii),
    scan P M fuel n c src ap = Ok r ->
    exists rest, formatted_from P M fuel src ap = Ok rest.
Proof.
  induction fuel as [|fuel IH]; intros c src ap r H; cbn [scan formatted_from] in *;
    [discriminate|].
  destruct (strchr src "%") as [k|]; [|eexists; reflexivity].
  destruct (copy_span P c src k) as [c1| |]; try discriminate.
  remember (skipn (S k) src) as after_escape.
  destruct (strpbrk after_escape conversion_letters) as [j|].
  - destruct (convert P M after_escape j ap) as [[tok ap']| |]; try discriminate.
    destruct (copy_token P c1 tok) as [c2| |]; try discriminate.
    destruct (IH _ _ _ _ H) as (rest & ->). eexists; reflexivity.
  - destruct (found (strchr after_escape "n")).
    + destruct (va_intptr ap) as [[cell ap']| |]; discriminate.
    + destruct (IH _ _ _ _ H) as (rest & ->). eexists; reflexivity.
Qed.

Lemma zvsnprintf_returns_formatted (P : platform) (M : libm) (buf0 : list ascii)
    (n : nat) (fmt : list ascii) (ap : list arg) (r : Z * list ascii) :
  zvsnprintf P M buf0 n fmt ap = Ok r ->
  exists text, formatted P M fmt ap = Ok text.
Proof. apply scan_returns_formatted. Qed.

(** C1. For a destination of at least [n] bytes, a call whose untruncated
    output [text] is defined and whose length [L] fits [size_t] returns
    [L] whatever the capacity [n]; with [n = 0] the destination is left
    as it was; with [n > 0] the destination holds the first
    [min L (n - 1)] characters of [text] followed by a NUL, all within the
    first [n] bytes (capacity 1: the NUL alone), and nothing beyond the
    capacity is touched.  [zsnprintf] behaves the same. *)
Theorem zvsnprintf_length_and_termination (P : platform) (M : libm)
    (buf0 : list ascii) (n : nat) (fmt : list ascii) (ap : list arg)
    (text : list ascii) :
  (n <= List.length buf0)%nat ->
  formatted P M fmt ap = Ok text ->
  Z.of_nat (List.length text) < 2 ^ size_t_bits P ->
  exists out,
    zvsnprintf P M buf0 n fmt ap = Ok (Z.of_nat (List.length text), out) /\
    zsnprintf P M buf0 n fmt ap = Ok (Z.of_nat (List.length text), out) /\
    (n = O -> out = buf0) /\
    (n <> O ->
       let k := Nat.min (List.length text) (n - 1) in
       (k < n)%nat /\ nth_error out k = Some NUL /\ firstn k out = firstn k text) /\
    (n = 1%nat -> nth_error out 0 = Some NUL) /\
    skipn n out = skipn n buf0 /\
    List.length out = List.length buf0.
Proof.
  intros Hcap Hf Hfit.
  pose proof (scan_formatted P M n buf0 Hcap _ _ _ _ [] text
                (holds_init P n buf0 Hcap) Hf) as Hs.
  cbn [app] in Hs.
  unfold wrap in Hs. rewrite Z.mod_small in Hs by lia.
  exists (assembled n text buf0).
  split; [exact Hs|]. split; [exact Hs|].
  unfold assembled.
  destruct (Nat.eqb_spec n 0) as [Hn|Hn].
  - subst n. repeat split; try reflexivity; try lia; intros; try lia; discriminate.
  - set (k := Nat.min (List.length text) (n - 1)).
    assert (Hk : List.length (firstn k text) = k)
      by (rewrite length_firstn; lia).
    assert (Hnul : nth_error (firstn k text ++ NUL :: skipn (S k) buf0) k = Some NUL).
    { rewrite nth_error_app2 by lia. rewrite Hk, Nat.sub_diag. reflexivity. }
    split; [intros; lia|].
    split.
    { intros _. split; [lia|]. split; [exact Hnul|].
      rewrite firstn_app, Hk, Nat.sub_diag, firstn_O, app_nil_r.
      rewrite firstn_firstn, Nat.min_id. reflexivity. }
    split.
    { intros H1. assert (Hk0 : k = O) by lia. rewrite Hk0 in *. exact Hnul. }
    split.
    { rewrite skipn_app, Hk.
      rewrite (skipn_all2 (n := n)) by lia.
      replace (n - k)%nat with (S (n - k - 1)) by lia.
      rewrite skipn_cons, app_nil_l, skipn_skipn. f_equal. lia. }
    rewrite length_app, Hk. cbn [List.length]. rewrite length_skipn. lia.
Qed.

(** A call on LP64: ["a%db"] with 4200 into four bytes. *)
Lemma zvsnprintf_length_and_termination_witness :
  exists out,
    zvsnprintf lp64_x87 ref_libm (repeat "#"%char 8) 4 (str "a%db") [a_int 4200]
      = Ok (6, out) /\
    zsnprintf lp64_x87 ref_libm (repeat "#"%char 8) 4 (str "a%db") [a_int 4200]
      = Ok (6, out) /\
    (4%nat = O -> out = repeat "#"%char 8) /\
    (4%nat <> O ->
       let k := Nat.min 6 (4 - 1) in
       (k < 4)%nat /\ nth_error out k = Some NUL /\ firstn k out = firstn k (str "a4200b")) /\
    (4%nat = 1%nat -> nth_error out 0 = Some NUL) /\
    skipn 4 out = skipn 4 (repeat "#"%char 8) /\
    List.length out = 8%nat.
Proof.
  apply (zvsnprintf_length_and_termination lp64_x87 ref_libm (repeat "#"%char 8) 4
           (str "a%db") [a_int 4200] (str "a4200b")).
  - simpl. lia.
  - vm_compute. reflexivity.
  - vm_compute. reflexivity.
Defined.

(** ** The directive scanner *)

Lemma no_nul_cons (x : ascii) (s : list ascii) :
  no_nul (x :: s) -> is_nul x = false /\ no_nul s.
Proof.
  unfold no_nul; simpl. destruct (is_nul x); [discriminate|].
  intros H; split; [reflexivity|lia].
Qed.

Lemma no_nul_app (s t : list ascii) :
  no_nul (s ++ t) -> no_nul s /\ no_nul t.
Proof.
  induction s as [|x s IH]; intros H.
  - split; [reflexivity|exact H].
  - apply no_nul_cons in H as (Hx & H). destruct (IH H) as (Hs & Ht).
    split; [|exact Ht]. unfold no_nul in *. simpl. rewrite Hx, Hs. reflexivity.
Qed.

Lemma strchr_app_found (lit rest : list ascii) (c : ascii) :
  no_nul lit -> strchr lit c = None -> is_nul c = false ->
  strchr (lit ++ c :: rest) c = Some (List.length lit).
Proof.
  induction lit as [|x lit IH]; intros Hn Hc Hz; simpl.
  - rewrite Hz, Ascii.eqb_refl. reflexivity.
  - apply no_nul_cons in Hn as (Hx & Hn). simpl in Hc. rewrite Hx in *.
    destruct (Ascii.eqb x c); [discriminate|].
    destruct (strchr lit c) eqn:E; [discriminate|].
    rewrite (IH Hn eq_refl Hz). reflexivity.
Qed.

Lemma strpbrk_app_found (s rest accept : list ascii) (c : ascii) :
  no_nul s -> strpbrk s accept = None ->
  mem_ascii c accept = true -> is_nul c = false ->
  strpbrk (s ++ c :: rest) accept = Some (List.length s).
Proof.
  induction s as [|x s IH]; intros Hn Hs Hc Hz; simpl.
  - rewrite Hz, Hc. reflexivity.
  - apply no_nul_cons in Hn as (Hx & Hn). simpl in Hs. rewrite Hx in *.
    destruct (mem_ascii x accept); [discriminate|].
    destruct (strpbrk s accept) eqn:E; [discriminate|].
    rewrite (IH Hn eq_refl Hc Hz). reflexivity.
Qed.

Lemma strpbrk_none_strchr (s accept : list ascii) (c : ascii) :
  strpbrk s accept = None -> mem_ascii c accept = true -> strchr s c = None.
Proof.
  induction s as [|x s IH]; intros Hs Hc; simpl in *; [reflexivity|].
  destruct (is_nul x); [reflexivity|].
  destruct (Ascii.eqb_spec x c) as [->|Hne].
  - rewrite Hc in Hs. discriminate.
  - destruct (mem_ascii x accept); [discriminate|].
    destruct (strpbrk s accept); [discriminate|].
    rewrite (IH eq_refl Hc). reflexivity.
Qed.

Lemma skipn_app_cons (s rest : list ascii) (c : ascii) :
  skipn (S (List.length s)) (s ++ c :: rest) = rest.
Proof.
  rewrite skipn_app.
  rewrite (skipn_all2 (n := S (List.length s))) by lia.
  replace (S (List.length s) - List.length s)%nat with 1%nat by lia.
  reflexivity.
Qed.

(** [copy_span] looks at the first [k] characters of its source only. *)
Lemma copy_span_app (P : platform) (c : cursor) (s rest : list ascii) :
  copy_span P c (s ++ rest) (List.length s) = copy_span P c s (List.length s).
Proof.
  unfold copy_span, memcpy.
  destruct (remain c <=? List.length s)%nat eqn:E.
  - apply Nat.leb_le in E.
    rewrite firstn_app.
    replace (remain c - List.length s)%nat with O by lia.
    rewrite firstn_O, app_nil_r. reflexivity.
  - rewrite firstn_app, Nat.sub_diag, firstn_O, app_nil_r. reflexivity.
Qed.

(** Whenever the ['n'] fallback fires the call does not return: the
    store through the int pointer is followed by [src = spec + 1] with
    [spec == NULL]. *)
Lemma percent_n_never_returns (P : platform) (M : libm) (fuel n : nat)
    (c : cursor) (src : list ascii) (ap : list arg) (k : nat) (r : Z * list ascii) :
  strchr src "%" = Some k ->
  strpbrk (skipn (S k) src) conversion_letters = None ->
  found (strchr (skipn (S k) src) "n") = true ->
  scan P M fuel n c src ap <> Ok r.
Proof.
  intros Hk Hs Hn.
  destruct fuel as [|fuel]; cbn [scan]; [discriminate|].
  rewrite Hk.
  destruct (copy_span P c src k) as [c1| |]; try discriminate.
  rewrite Hs, Hn.
  destruct ap as [|[]]; discriminate.
Qed.

(** C6, evaluated at the format ["ab%n"] with capacity 8 and an int
    pointer as argument: no conversion letter follows the introducer and
    an ['n'] does, so the count of characters stored so far (2) is
    written through the pointer; [src] then is [NULL + 1] and the loop
    test reads from it, outside the format string.  On every platform the
    call has no defined result. *)
Theorem percent_n_leaves_the_format (P : platform) (M : libm) :
  zvsnprintf P M (repeat "#"%char 8) 8 (str "ab%n") [a_intptr 0]
    = Undefined (WildPointer 0 2).
Proof. reflexivity. Qed.

(** C5 as stated fails: with the format ["ab%zz"] no conversion letter
    follows the introducer, yet the text after it reaches the output; the
    result differs from that of the format ["ab"]. *)
Lemma failed_directive_text_is_kept :
  zvsnprintf lp64_x87 ref_libm (repeat "#"%char 8) 8 (str "ab%zz") []
    = Ok (4, str "abzz" ++ NUL :: str "###") /\
  zvsnprintf lp64_x87 ref_libm (repeat "#"%char 8) 8 (str "ab") []
    = Ok (2, str "ab" ++ NUL :: str "#####") /\
  zvsnprintf lp64_x87 ref_libm (repeat "#"%char 8) 8 (str "ab%zz") []
    <> zvsnprintf lp64_x87 ref_libm (repeat "#"%char 8) 8 (str "ab") [].
Proof.
  split; [reflexivity|]. split; [reflexivity|].
  vm_compute. intro H. discriminate H.
Qed.

(** C5, amended.  When the scanner stands at [lit ++ "%" ++ rest], [lit]
    is a literal span and [rest] holds neither a conversion letter nor an
    ['n'], then [lit] is copied, the introducer alone is dropped and
    [rest] is copied as the literal tail of the format; arguments are not
    touched.  If this introducer is the first one of the format, the
    untruncated output is [lit] followed by [rest]. *)
Theorem failed_directive_drops_the_introducer_only (P : platform) (M : libm)
    (fuel n : nat) (c : cursor) (lit rest : list ascii) (ap : list arg) :
  no_nul lit ->
  strchr lit "%" = None ->
  strpbrk rest conversion_letters = None ->
  strchr rest "n" = None ->
  scan P M (S (S fuel)) n c (lit ++ "%"%char :: rest) ap
    = (c1 <~ copy_span P c lit (List.length lit) ;; finish P n c1 rest) /\
  formatted P M (lit ++ "%"%char :: rest) ap
    = Ok (lit ++ firstn (strlen rest) rest).
Proof.
  intros Hn Hl Hr Hc.
  assert (Hk : strchr (lit ++ "%"%char :: rest) "%" = Some (List.length lit))
    by (apply strchr_app_found; auto).
  assert (Hp : strchr rest "%" = None)
    by (apply (strpbrk_none_strchr _ _ _ Hr); reflexivity).
  split.
  - cbn [scan]. rewrite Hk, skipn_app_cons, copy_span_app.
    destruct (copy_span P c lit (List.length lit)) as [c1| |]; try reflexivity.
    rewrite Hr, Hc. cbn [found]. rewrite Hp. reflexivity.
  - unfold formatted. cbn [formatted_from].
    rewrite Hk, skipn_app_cons, Hr, Hc. cbn [found].
    rewrite length_app. cbn [List.length]. rewrite Nat.add_succ_r.
    cbn [formatted_from]. rewrite Hp.
    rewrite firstn_app, Nat.sub_diag, firstn_O, app_nil_r, firstn_all.
    reflexivity.
Qed.

Lemma failed_directive_drops_the_introducer_only_witness :
  scan lp64_x87 ref_libm 2 8 (mk_cursor 8 0 0 (repeat "#"%char 8))
       (str "ab" ++ "%"%char :: str "zz") []
    = (c1 <~ copy_span lp64_x87 (mk_cursor 8 0 0 (repeat "#"%char 8)) (str "ab") 2 ;;
       finish lp64_x87 8 c1 (str "zz")) /\
  formatted lp64_x87 ref_libm (str "ab" ++ "%"%char :: str "zz") []
    = Ok (str "ab" ++ firstn (strlen (str "zz")) (str "zz")).
Proof.
  apply (failed_directive_drops_the_introducer_only lp64_x87 ref_libm 0 8
           (mk_cursor 8 0 0 (repeat "#"%char 8)) (str "ab") (str "zz") []);
    reflexivity.
Defined.

(** ** The inert flags *)

Lemma zitoa_at_core (s : int_size_t) (n width : Z) (f g : fmt_flags_t) :
  core f = core g -> zitoa_at s n width f = zitoa_at s n width g.
Proof.
  destruct f, g; unfold core; simpl; intros H; injection H as -> -> ->.
  reflexivity.
Qed.

Lemma zutoa_at_core (s : int_size_t) (n width : Z) (f g : fmt_flags_t) :
  core f = core g -> zutoa_at s n width f = zutoa_at s n width g.
Proof.
  destruct f, g; unfold core; simpl; intros H; injection H as -> -> ->.
  reflexivity.
Qed.

Lemma zx64toa_core (s : int_size_t) (n width : Z) (f g : fmt_flags_t) (upper : bool) :
  core f = core g -> zx64toa s n width f upper = zx64toa s n width g upper.
Proof.
  destruct f, g; unfold core; simpl; intros H; injection H as -> -> ->.
  reflexivity.
Qed.

Lemma zo64toa_core (s : int_size_t) (n width : Z) (f g : fmt_flags_t) :
  core f = core g -> zo64toa s n width f = zo64toa s n width g.
Proof.
  destruct f, g; unfold core; simpl; intros H; injection H as -> -> ->.
  reflexivity.
Qed.

Lemma zftoa_gen_core (P : platform) (M : libm) (W : fformat) (expw : Z)
    (x : float) (width precision : Z) (f g : fmt_flags_t) :
  core f = core g ->
  zftoa_gen P M W expw x width precision f = zftoa_gen P M W expw x width precision g.
Proof.
  destruct f as [la s af zp e], g as [la' s' af' zp' e'];
    unfold core; simpl; intros H; injection H as -> -> ->.
  unfold zftoa_gen, normalize.
  destruct (negb (isfinite x)); [reflexivity|].
  destruct e';
  repeat (unfold exp_is_set, set_exp, set_sign;
          cbn [exp sign zeropad leftAlign altForm andb orb negb];
          match goal with
          | |- context [match ?o with Some _ => _ | None => _ end] =>
              lazymatch o with
              | context [mk_flags] => fail
              | _ => destruct o
              end
          | |- context [if ?b then _ else _] =>
              lazymatch b with
              | context [mk_flags] => fail
              | _ => destruct b
              end
          | |- context [let '(_, _) := ?p in _] =>
              lazymatch p with
              | context [mk_flags] => fail
              | _ => destruct p
              end
          | |- context [match ?e with exp_none => _ | exp_e => _ | exp_E => _ end] =>
              destruct e
          end);
    reflexivity.
Qed.

Lemma float_flags_core (P : platform) (spec : ascii) (F : fformat) (val : float)
    (f g : fmt_flags_t) :
  core f = core g ->
  core (float_flags P spec F val f) = core (float_flags P spec F val g).
Proof.
  destruct f, g; unfold core; simpl; intros H; injection H as -> -> ->.
  unfold float_flags.
  repeat match goal with |- context [if ?b then _ else _] => destruct b end;
    reflexivity.
Qed.

Lemma render_integer_core (P : platform) (spec : ascii) (length : length_t)
    (width : Z) (f g : fmt_flags_t) (ap : list arg) :
  core f = core g ->
  render_integer P spec length width f ap = render_integer P spec length width g ap.
Proof.
  destruct f, g; unfold core; simpl; intros H; injection H as -> -> ->.
  reflexivity.
Qed.

Lemma render_float_core (P : platform) (M : libm) (spec : ascii) (length : length_t)
    (width precision : Z) (f g : fmt_flags_t) (ap : list arg) :
  core f = core g ->
  render_float P M spec length width precision f ap
  = render_float P M spec length width precision g ap.
Proof.
  intros H. unfold render_float, zftoa, zftoal, zftoaf.
  destruct length.
  2:{ destruct (va_ldouble ap) as [[val ap']| |]; try reflexivity.
      rewrite (zftoa_gen_core P M _ _ _ _ _ _ _
                 (float_flags_core P spec _ _ f g H)).
      reflexivity. }
  all: destruct (va_double ap) as [[val ap']| |]; try reflexivity.
  all: destruct (_ =? _).
  all: rewrite (zftoa_gen_core P M _ _ _ _ _ _ _
                  (float_flags_core P spec _ _ f g H)).
  all: reflexivity.
Qed.

Lemma render_core (P : platform) (M : libm) (spec : ascii) (length : length_t)
    (width precision : Z) (f g : fmt_flags_t) (ap : list arg) :
  core f = core g ->
  render P M spec length width precision f ap
  = render P M spec length width precision g ap.
Proof.
  intros H. unfold render.
  destruct (Ascii.eqb spec "%"); [reflexivity|].
  destruct (is_letter spec "diuxXo"); [apply render_integer_core; exact H|].
  destruct (is_letter spec "fFeEgGaA"); [apply render_float_core; exact H|].
  destruct (Ascii.eqb spec "p"); [|reflexivity].
  destruct (va_ptr ap) as [[val ap']| |]; try reflexivity.
  unfold zllxtoa. rewrite (zx64toa_core _ _ _ f g _ H). reflexivity.
Qed.

Lemma apply_flag_core (c : ascii) (f g : fmt_flags_t) :
  core f = core g -> core (apply_flag c f) = core (apply_flag c g).
Proof.
  destruct f, g; unfold core; simpl; intros H; injection H as -> -> ->.
  unfold apply_flag; cbn [sign].
  repeat match goal with |- context [if ?b then _ else _] => destruct b end;
    reflexivity.
Qed.

Lemma apply_flag_inert (c : ascii) (f : fmt_flags_t) :
  c = "#"%char \/ c = "-"%char -> core (apply_flag c f) = core f.
Proof. intros [-> | ->]; reflexivity. Qed.

Lemma getFlags_loop_core (s : list ascii) :
  forall f g : fmt_flags_t,
    core f = core g ->
    core (fst (getFlags_loop s f)) = core (fst (getFlags_loop s g)) /\
    snd (getFlags_loop s f) = snd (getFlags_loop s g).
Proof.
  induction s as [|x s IH]; intros f g H; cbn [getFlags_loop].
  - split; [exact H|reflexivity].
  - destruct (strpbrk (x :: s) (str "0-+ #")) as [k|]; [|split; [exact H|reflexivity]].
    specialize (IH _ _ (apply_flag_core (nth k (x :: s) NUL) f g H)).
    destruct (getFlags_loop s (apply_flag _ f)) as [f1 m1].
    destruct (getFlags_loop s (apply_flag _ g)) as [g1 m1'].
    cbn [fst snd] in *. destruct IH as (IH1 & IH2).
    split; [exact IH1|congruence].
Qed.

(** On a run of flag characters the loop applies each in turn. *)
Lemma getFlags_loop_flags (fl : list ascii) :
  forall (s : list ascii) (f : fmt_flags_t),
    forallb (fun x => mem_ascii x flag_chars) fl = true ->
    getFlags_loop (fl ++ s) f
    = let '(f', moved) := getFlags_loop s (fold_left (fun f x => apply_flag x f) fl f) in
      (f', (List.length fl + moved)%nat).
Proof.
  induction fl as [|x fl IH]; intros s f H.
  - cbn [app fold_left List.length]. destruct (getFlags_loop s f). reflexivity.
  - cbn [forallb] in H. apply andb_prop in H as (Hx & H).
    cbn [app getFlags_loop strpbrk].
    assert (Hz : is_nul x = false).
    { destruct (is_nul x) eqn:E; [|reflexivity].
      apply Ascii.eqb_eq in E. subst x. discriminate Hx. }
    rewrite Hz. fold flag_chars. rewrite Hx. cbn [nth fold_left].
    rewrite (IH s _ H).
    destruct (getFlags_loop s _). reflexivity.
Qed.

Lemma flag_char_plain (x : ascii) :
  mem_ascii x flag_chars = true ->
  is_nul x = false /\ mem_ascii x (str ".123456789") = false /\
  mem_ascii x conversion_letters = false.
Proof.
  unfold mem_ascii, flag_chars. cbn [str list_ascii_of_string existsb].
  rewrite !orb_true_iff. intros H.
  repeat destruct H as [H|H]; try discriminate H;
    apply Ascii.eqb_eq in H; subst x; repeat split; reflexivity.
Qed.

Lemma strpbrk_flag_run (fl s accept : list ascii) :
  forallb (fun x => mem_ascii x flag_chars) fl = true ->
  (forall x, mem_ascii x flag_chars = true -> mem_ascii x accept = false) ->
  strpbrk (fl ++ s) accept
  = option_map (fun k => (List.length fl + k)%nat) (strpbrk s accept).
Proof.
  intros H Hacc. induction fl as [|x fl IH].
  - cbn [app List.length]. destruct (strpbrk s accept); reflexivity.
  - cbn [forallb] in H. apply andb_prop in H as (Hx & H).
    destruct (flag_char_plain x Hx) as (Hz & _).
    cbn [app strpbrk]. rewrite Hz, (Hacc x Hx), (IH H).
    destruct (strpbrk s accept); reflexivity.
Qed.

(** [getFlags] on a sub-specification that starts with a run of flags. *)
Lemma getFlags_flag_run (fl sub : list ascii) :
  forallb (fun x => mem_ascii x flag_chars) fl = true ->
  getFlags (fl ++ sub)
  = let capped := match strpbrk sub (str ".123456789") with
                  | Some k => firstn k sub
                  | None => sub
                  end in
    let '(flags, moved) :=
      getFlags_loop capped (fold_left (fun f x => apply_flag x f) fl no_flags) in
    (flags, skipn moved sub).
Proof.
  intros H. unfold getFlags.
  rewrite (strpbrk_flag_run fl sub _ H)
    by (intros x Hx; apply (flag_char_plain x Hx)).
  cbv zeta.
  assert (Hcap : match option_map (fun k => (List.length fl + k)%nat)
                         (strpbrk sub (str ".123456789")) with
                 | Some k => firstn k (fl ++ sub)
                 | None => fl ++ sub
                 end
                 = fl ++ match strpbrk sub (str ".123456789") with
                         | Some k => firstn k sub
                         | None => sub
                         end).
  { destruct (strpbrk sub (str ".123456789")) as [k|]; cbn [option_map];
      [|reflexivity].
    rewrite firstn_app.
    rewrite (firstn_all2 (n := (List.length fl + k)%nat)) by lia.
    f_equal. f_equal. lia. }
  rewrite Hcap, (getFlags_loop_flags fl _ _ H).
  destruct (getFlags_loop _ _) as [f' moved].
  rewrite skipn_app.
  rewrite (skipn_all2 (n := (List.length fl + moved)%nat)) by lia.
  cbn [app]. do 2 f_equal. lia.
Qed.

(** An inert flag in the run changes neither the remaining text nor the
    fields a renderer reads. *)
Lemma getFlags_inert (fl sub : list ascii) (c0 : ascii) :
  forallb (fun x => mem_ascii x flag_chars) fl = true ->
  c0 = "#"%char \/ c0 = "-"%char ->
  core (fst (getFlags (fl ++ c0 :: sub))) = core (fst (getFlags (fl ++ sub))) /\
  snd (getFlags (fl ++ c0 :: sub)) = snd (getFlags (fl ++ sub)).
Proof.
  intros H Hc.
  assert (H' : forallb (fun x => mem_ascii x flag_chars) (fl ++ [c0]) = true).
  { rewrite forallb_app, H. destruct Hc as [-> | ->]; reflexivity. }
  replace (fl ++ c0 :: sub) with ((fl ++ [c0]) ++ sub)
    by (rewrite <- app_assoc; reflexivity).
  rewrite (getFlags_flag_run _ sub H'), (getFlags_flag_run _ sub H).
  cbv zeta. rewrite fold_left_app. cbn [fold_left].
  set (f0 := fold_left (fun f x => apply_flag x f) fl no_flags).
  set (capped := match strpbrk sub (str ".123456789") with
                 | Some k => firstn k sub | None => sub end).
  destruct (getFlags_loop_core capped _ _ (apply_flag_inert c0 f0 Hc)) as (H1 & H2).
  destruct (getFlags_loop capped (apply_flag c0 f0)) as [f1 m1].
  destruct (getFlags_loop capped f0) as [f2 m2].
  cbn [fst snd] in *. subst m2. split; [exact H1|reflexivity].
Qed.

(** [convert] reads the sub-specification and the conversion letter
    only. *)
Lemma convert_app (P : platform) (M : libm) (s rest : list ascii) (conv : ascii)
    (ap : list arg) :
  (List.length s <= 30)%nat ->
  convert P M (s ++ conv :: rest) (List.length s) ap
  = let '(flags, endptr) := getFlags s in
    let '(w, endptr) := getWidth P endptr in
    '(width, ap) <~ star_arg P (uint_of P w) ap ;;
    let '(p, endptr) := getPrecision P endptr in
    '(precision, ap) <~ star_arg P (uint_of P p) ap ;;
    render P M conv (getLength P endptr) width precision flags ap.
Proof.
  intros Hlen. unfold convert, getSubspec.
  rewrite nth_middle.
  assert (Hw : (sizeof_subspec <=? List.length s)%nat = false).
  { apply Nat.leb_gt. unfold sizeof_subspec. cbn. lia. }
  rewrite Hw, firstn_app, Nat.sub_diag, firstn_O, app_nil_r, firstn_all.
  reflexivity.
Qed.

Lemma convert_inert (P : platform) (M : libm) (fl sub rest : list ascii)
    (c0 conv : ascii) (ap : list arg) :
  forallb (fun x => mem_ascii x flag_chars) fl = true ->
  c0 = "#"%char \/ c0 = "-"%char ->
  (List.length (fl ++ c0 :: sub) <= 30)%nat ->
  convert P M ((fl ++ c0 :: sub) ++ conv :: rest) (List.length (fl ++ c0 :: sub)) ap
  = convert P M ((fl ++ sub) ++ conv :: rest) (List.length (fl ++ sub)) ap.
Proof.
  intros H Hc Hlen.
  rewrite !convert_app; [|rewrite length_app in *; cbn [List.length] in *; lia|exact Hlen].
  destruct (getFlags_inert fl sub c0 H Hc) as (H1 & H2).
  destruct (getFlags (fl ++ c0 :: sub)) as [f1 e1].
  destruct (getFlags (fl ++ sub)) as [f2 e2].
  cbn [fst snd] in *. subst e2.
  destruct (getWidth P e1) as [w e].
  destruct (star_arg P (uint_of P w) ap) as [[width ap1]| |]; try reflexivity.
  destruct (getPrecision P e) as [p e'].
  destruct (star_arg P (uint_of P p) ap1) as [[precision ap2]| |]; try reflexivity.
  apply render_core. exact H1.
Qed.

(** A directive whose sub-specification holds no conversion letter. *)
Lemma strpbrk_subspec (P : platform) (sub rest : list ascii) (conv : ascii) :
  no_nul sub ->
  strpbrk sub conversion_letters = None ->
  mem_ascii conv conversion_letters = true ->
  strpbrk (sub ++ conv :: rest) conversion_letters = Some (List.length sub).
Proof.
  intros Hn Hs Hc. apply strpbrk_app_found; auto.
  destruct (is_nul conv) eqn:E; [|reflexivity].
  apply Ascii.eqb_eq in E. subst conv. discriminate Hc.
Qed.

Lemma flag_run_subspec (fl sub : list ascii) :
  forallb (fun x => mem_ascii x flag_chars) fl = true ->
  no_nul sub -> strpbrk sub conversion_letters = None ->
  no_nul (fl ++ sub) /\ strpbrk (fl ++ sub) conversion_letters = None.
Proof.
  intros H Hn Hs. split.
  - induction fl as [|x fl IH]; [exact Hn|].
    cbn [forallb] in H. apply andb_prop in H as (Hx & H).
    destruct (flag_char_plain x Hx) as (Hz & _).
    unfold no_nul in *. cbn [app strlen List.length]. rewrite Hz, (IH H).
    reflexivity.
  - rewrite (strpbrk_flag_run fl sub _ H)
      by (intros x Hx; apply (flag_char_plain x Hx)).
    rewrite Hs. reflexivity.
Qed.

(** More fuel than the length of what is left to scan changes nothing. *)
Lemma scan_more_fuel (P : platform) (M : libm) (n : nat) (fuel : nat) :
  forall (c : cursor) (src : list ascii) (ap : list arg),
    (List.length src < fuel)%nat ->
    scan P M (S fuel) n c src ap = scan P M fuel n c src ap.
Proof.
  induction fuel as [|fuel IH]; intros c src ap Hlt; [lia|].
  cbn [scan].
  destruct (strchr src "%") as [k|] eqn:Hk; [|reflexivity].
  apply strchr_le, skipn_S_length in Hk.
  destruct (copy_span P c src k) as [c1| |]; try reflexivity.
  remember (skipn (S k) src) as after_escape.
  destruct (strpbrk after_escape conversion_letters) as [j|] eqn:Hj.
  - destruct (convert P M after_escape j ap) as [[tok ap']| |]; try reflexivity.
    destruct (copy_token P c1 tok) as [c2| |]; try reflexivity.
    apply strpbrk_le, skipn_S_length in Hj.
    change (scan P M (S fuel) n c2 (skipn (S j) after_escape) ap'
            = scan P M fuel n c2 (skipn (S j) after_escape) ap').
    apply IH. lia.
  - destruct (found (strchr after_escape "n")); [reflexivity|].
    change (scan P M (S fuel) n c1 after_escape ap
            = scan P M fuel n c1 after_escape ap).
    apply IH. lia.
Qed.

(** One step of the loop over a well-formed directive. *)
Lemma scan_directive (P : platform) (M : libm) (fuel n : nat) (c : cursor)
    (lit sub rest : list ascii) (conv : ascii) (ap : list arg) :
  no_nul lit -> strchr lit "%" = None ->
  no_nul sub -> strpbrk sub conversion_letters = None ->
  mem_ascii conv conversion_letters = true ->
  scan P M (S fuel) n c (lit ++ "%"%char :: sub ++ conv :: rest) ap
  = (c1 <~ copy_span P c lit (List.length lit) ;;
     '(tok, ap') <~ convert P M (sub ++ conv :: rest) (List.length sub) ap ;;
     c2 <~ copy_token P c1 tok ;;
     scan P M fuel n c2 rest ap').
Proof.
  intros Hl Hp Hn Hs Hc. cbn [scan].
  rewrite (strchr_app_found lit _ "%" Hl Hp eq_refl).
  rewrite skipn_app_cons, copy_span_app.
  destruct (copy_span P c lit (List.length lit)) as [c1| |]; try reflexivity.
  rewrite (strpbrk_subspec P sub rest conv Hn Hs Hc), skipn_app_cons.
  reflexivity.
Qed.

Lemma firstn_app_le (k : nat) (s t : list ascii) :
  (k <= List.length s)%nat -> firstn k (s ++ t) = firstn k s.
Proof.
  intros H. rewrite firstn_app.
  replace (k - List.length s)%nat with O by lia.
  rewrite firstn_O, app_nil_r. reflexivity.
Qed.

(** [convert] reads the format up to the conversion letter only. *)
Lemma convert_prefix (P : platform) (M : libm) (s t : list ascii) (k : nat)
    (ap : list arg) :
  (k < List.length s)%nat -> convert P M (s ++ t) k ap = convert P M s k ap.
Proof.
  intros H. unfold convert, getSubspec.
  rewrite app_nth1 by exact H.
  rewrite firstn_app_le by (destruct (sizeof_subspec <=? k)%nat eqn:E;
                            [apply Nat.leb_le in E|]; lia).
  reflexivity.
Qed.

Lemma scan_closed_prefix (P : platform) (M : libm) (n : nat)
    (pre x1 x2 : list ascii) :
  closed pre ->
  (forall fuel c ap, scan P M fuel n c x1 ap = scan P M fuel n c x2 ap) ->
  forall fuel c ap,
    scan P M fuel n c (pre ++ x1) ap = scan P M fuel n c (pre ++ x2) ap.
Proof.
  intros Hpre Hx. induction Hpre as [|lit sub pre conv Hl Hp Hn Hs Hc Hpre IH];
    intros fuel c ap; [apply Hx|].
  destruct fuel as [|fuel]; [reflexivity|].
  rewrite <- !app_assoc. cbn [app]. rewrite <- !app_assoc. cbn [app].
  rewrite !(scan_directive P M fuel n c lit sub _ conv ap Hl Hp Hn Hs Hc).
  destruct (copy_span P c lit (List.length lit)) as [c1| |]; try reflexivity.
  assert (Hcv : forall r, convert P M (sub ++ conv :: r) (List.length sub) ap
                          = convert P M (sub ++ [conv]) (List.length sub) ap).
  { intros r. replace (sub ++ conv :: r) with ((sub ++ [conv]) ++ r)
      by (rewrite <- app_assoc; reflexivity).
    apply convert_prefix. rewrite length_app. cbn [List.length]. lia. }
  rewrite (Hcv (pre ++ x1)), (Hcv (pre ++ x2)).
  destruct (convert P M (sub ++ [conv]) (List.length sub) ap) as [[tok ap3]| |];
    try reflexivity.
  destruct (copy_token P c1 tok) as [c2| |]; try reflexivity.
  apply IH.
Qed.

(** A search that succeeds splits the string at the character found. *)
Lemma strchr_split (s : list ascii) (c : ascii) (k : nat) :
  no_nul s -> strchr s c = Some k ->
  exists a b, s = a ++ c :: b /\ no_nul a /\ strchr a c = None /\ no_nul b.
Proof.
  revert k. induction s as [|x s IH]; intros k Hn H; [discriminate H|].
  apply no_nul_cons in Hn as (Hx & Hn). cbn [strchr] in H. rewrite Hx in H.
  destruct (Ascii.eqb x c) eqn:E.
  - apply Ascii.eqb_eq in E. subst x. exists [], s. repeat split; auto.
  - destruct (strchr s c) as [j|] eqn:Hj; [|discriminate H].
    destruct (IH j Hn eq_refl) as (a & b & -> & Ha & Hc & Hb).
    exists (x :: a), b. repeat split; auto.
    + unfold no_nul in *. cbn [strlen List.length]. rewrite Hx, Ha. reflexivity.
    + cbn [strchr]. rewrite Hx, E, Hc. reflexivity.
Qed.

Lemma strpbrk_split (s accept : list ascii) (k : nat) :
  no_nul s -> strpbrk s accept = Some k ->
  exists a x b, s = a ++ x :: b /\ mem_ascii x accept = true /\
                no_nul a /\ strpbrk a accept = None /\ no_nul b.
Proof.
  revert k. induction s as [|x s IH]; intros k Hn H; [discriminate H|].
  apply no_nul_cons in Hn as (Hx & Hn). cbn [strpbrk] in H. rewrite Hx in H.
  destruct (mem_ascii x accept) eqn:E.
  - exists [], x, s. repeat split; auto.
  - destruct (strpbrk s accept) as [j|] eqn:Hj; [|discriminate H].
    destruct (IH j Hn eq_refl) as (a & y & b & -> & Hy & Ha & Hc & Hb).
    exists (x :: a), y, b. repeat split; auto.
    + unfold no_nul in *. cbn [strlen List.length]. rewrite Hx, Ha. reflexivity.
    + cbn [strpbrk]. rewrite Hx, E, Hc. reflexivity.
Qed.

(** Any text without NUL is a run of complete directives followed by
    literal text, or by an introducer that has not met its conversion
    letter yet: [closed pre] followed by a literal span describes every
    place of a format at which a directive starts, whatever the length
    of the directives before it. *)
Lemma closed_or_open_aux (n : nat) :
  forall s : list ascii,
    (List.length s <= n)%nat -> no_nul s ->
    exists pre tail,
      s = pre ++ tail /\ closed pre /\ no_nul tail /\
      (strchr tail "%" = None \/
       exists lit x, tail = lit ++ "%"%char :: x /\
                     strpbrk x conversion_letters = None).
Proof.
  induction n as [|n IH]; intros s Hlen Hn.
  - destruct s; [|cbn in Hlen; lia].
    exists [], []. repeat split; [apply closed_nil|left; reflexivity].
  - destruct (strchr s "%") as [k|] eqn:Hk.
    + destruct (strchr_split s "%" k Hn Hk) as (lit & x & -> & Hl & Hp & Hx).
      destruct (strpbrk x conversion_letters) as [j|] eqn:Hj.
      * destruct (strpbrk_split x _ j Hx Hj) as (sub & conv & r & -> & Hc & Hs & Hsn & Hr).
        destruct (IH r) as (pre & tail & -> & Hpre & Ht & Hcase); [|exact Hr|].
        { rewrite !length_app in Hlen. cbn [List.length] in Hlen.
          rewrite !length_app in Hlen. cbn [List.length] in Hlen. lia. }
        exists (lit ++ "%"%char :: sub ++ conv :: pre), tail.
        repeat split; [| |exact Ht|exact Hcase].
        -- rewrite <- !app_assoc. cbn [app]. rewrite <- !app_assoc. reflexivity.
        -- apply closed_directive; assumption.
      * exists [], (lit ++ "%"%char :: x).
        repeat split; [apply closed_nil|exact Hn|].
        right. exists lit, x. split; [reflexivity|exact Hj].
    + exists [], s. repeat split; [apply closed_nil|exact Hn|left; exact Hk].
Qed.

Lemma closed_or_open (s : list ascii) :
  no_nul s ->
  exists pre tail,
    s = pre ++ tail /\ closed pre /\ no_nul tail /\
    (strchr tail "%" = None \/
     exists lit x, tail = lit ++ "%"%char :: x /\
                   strpbrk x conversion_letters = None).
Proof. apply (closed_or_open_aux (List.length s)). lia. Qed.

(** C7 as stated fails: thirty ['-'] flags in front of the width push it
    out of the 30-character window [getSubspec] copies, so the width is
    lost and both the returned length and the destination differ. *)
Lemma thirty_flags_change_the_output :
  zvsnprintf lp64_x87 ref_libm (repeat "#"%char 8) 8 (str "%5d") [a_int 7]
    = Ok (5, str "    7" ++ NUL :: str "##") /\
  zvsnprintf lp64_x87 ref_libm (repeat "#"%char 8) 8
      ("%"%char :: repeat "-"%char 30 ++ str "5d") [a_int 7]
    = Ok (1, str "7" ++ NUL :: str "######").
Proof. split; reflexivity. Qed.

(** C7, amended.  A ['#'] or ['-'] inserted in (or removed from) the
    run of flag characters at the start of a directive's
    sub-specification leaves the returned length and the whole
    destination unchanged, provided the sub-specification with the flag
    fits the 30 characters [getSubspec] keeps.  The directive may stand
    anywhere in the format: [pre] is any run of complete directives, of
    whatever length each, and [lit] the literal text in front of the
    introducer (see [closed_or_open]). *)
Theorem inert_flags_in_the_flag_run (P : platform) (M : libm)
    (buf0 : list ascii) (n : nat) (pre lit fl sub rest : list ascii)
    (c0 conv : ascii) (ap : list arg) :
  closed pre ->
  no_nul lit -> strchr lit "%" = None ->
  forallb (fun x => mem_ascii x flag_chars) fl = true ->
  c0 = "#"%char \/ c0 = "-"%char ->
  no_nul sub -> strpbrk sub conversion_letters = None ->
  (List.length (fl ++ c0 :: sub) <= 30)%nat ->
  mem_ascii conv conversion_letters = true ->
  zvsnprintf P M buf0 n
    (pre ++ lit ++ "%"%char :: (fl ++ c0 :: sub) ++ conv :: rest) ap
  = zvsnprintf P M buf0 n
    (pre ++ lit ++ "%"%char :: (fl ++ sub) ++ conv :: rest) ap.
Proof.
  intros Hpre Hl Hp Hfl Hc0 Hn Hs Hlen Hc.
  assert (Hfl' : forallb (fun x => mem_ascii x flag_chars) (fl ++ [c0]) = true).
  { rewrite forallb_app, Hfl. destruct Hc0 as [-> | ->]; reflexivity. }
  destruct (flag_run_subspec fl sub Hfl Hn Hs) as (Hn2 & Hs2).
  destruct (flag_run_subspec (fl ++ [c0]) sub Hfl' Hn Hs) as (Hn1 & Hs1).
  rewrite <- app_assoc in Hn1, Hs1. cbn [app] in Hn1, Hs1.
  set (x1 := lit ++ "%"%char :: (fl ++ c0 :: sub) ++ conv :: rest).
  set (x2 := lit ++ "%"%char :: (fl ++ sub) ++ conv :: rest).
  assert (Hx : forall fuel c ap0,
             scan P M fuel n c x1 ap0 = scan P M fuel n c x2 ap0).
  { intros fuel c ap0. destruct fuel as [|fuel]; [reflexivity|].
    unfold x1, x2.
    rewrite (scan_directive P M fuel n c lit _ rest conv ap0 Hl Hp Hn1 Hs1 Hc).
    rewrite (scan_directive P M fuel n c lit _ rest conv ap0 Hl Hp Hn2 Hs2 Hc).
    rewrite (convert_inert P M fl sub rest c0 conv ap0 Hfl Hc0 Hlen).
    reflexivity. }
  unfold zvsnprintf.
  assert (Hlen12 : List.length (pre ++ x1) = S (List.length (pre ++ x2))).
  { unfold x1, x2.
    repeat first [rewrite length_app | progress cbn [List.length]]. lia. }
  rewrite Hlen12.
  rewrite (scan_closed_prefix P M n pre x1 x2 Hpre Hx).
  apply scan_more_fuel. lia.
Qed.

Lemma inert_flags_in_the_flag_run_witness :
  zvsnprintf lp64_x87 ref_libm (repeat "#"%char 16) 16
    ((str "a=%" ++ repeat "0"%char 31 ++ str "3d") ++ str ", b="
       ++ "%"%char :: (str "0" ++ "-"%char :: str "5")
       ++ "d"%char :: str ";") [a_int 1; a_int 42]
  = zvsnprintf lp64_x87 ref_libm (repeat "#"%char 16) 16
    ((str "a=%" ++ repeat "0"%char 31 ++ str "3d") ++ str ", b="
       ++ "%"%char :: (str "0" ++ str "5")
       ++ "d"%char :: str ";") [a_int 1; a_int 42].
Proof.
  apply (inert_flags_in_the_flag_run lp64_x87 ref_libm (repeat "#"%char 16) 16
           (str "a=%" ++ repeat "0"%char 31 ++ str "3d")
           (str ", b=") (str "0") (str "5") (str ";")
           "-"%char "d"%char [a_int 1; a_int 42]).
  - apply (closed_directive (str "a=") (repeat "0"%char 31 ++ str "3") [] "d"%char);
      try reflexivity; apply closed_nil.
  - reflexivity.
  - reflexivity.
  - reflexivity.
  - right; reflexivity.
  - reflexivity.
  - reflexivity.
  - simpl; lia.
  - reflexivity.
Defined.

(** ** The integer renderers *)

Lemma first_nonzero_top (ds : list Z) :
  forall i fd : nat,
    first_nonzero ds i fd
    = if forallb (Z.eqb 0) ds then fd else (i + top (0%Z :: ds) - 1)%nat.
Proof.
  induction ds as [|d ds IH]; intros i fd; cbn [first_nonzero forallb]; [reflexivity|].
  rewrite IH. cbn [top forallb].
  rewrite (Z.eqb_sym 0 d).
  destruct (d =? 0), (forallb (Z.eqb 0) ds); cbn [andb]; lia.
Qed.

(** The chain of tests computes [top]. *)
Lemma first_digit_top (d0 : Z) (ds : list Z) :
  first_nonzero ds 1 0 = top (d0 :: ds).
Proof.
  rewrite first_nonzero_top. cbn [top].
  destruct (forallb (Z.eqb 0) ds); [reflexivity|lia].
Qed.

Lemma top_lt_length (ds : list Z) : ds <> [] -> (top ds < List.length ds)%nat.
Proof.
  induction ds as [|d ds IH]; intros H; [congruence|].
  cbn [top List.length]. destruct ds as [|d' ds']; [cbn; lia|].
  destruct (forallb _ _); [lia|].
  specialize (IH ltac:(discriminate)). lia.
Qed.

Lemma eval_zero (r : Z) (ds : list Z) :
  forallb (Z.eqb 0) ds = true -> eval r ds = 0.
Proof.
  induction ds as [|d ds IH]; cbn [forallb eval]; [reflexivity|].
  intros H. apply andb_prop in H as (Hd & H). apply Z.eqb_eq in Hd.
  rewrite (IH H). lia.
Qed.

Lemma eval_pos (r : Z) (ds : list Z) :
  0 < r -> in_radix r ds -> forallb (Z.eqb 0) ds = false -> 0 < eval r ds.
Proof.
  intros Hr. induction ds as [|d ds IH]; cbn [forallb eval]; [discriminate|].
  intros Hin H. inversion Hin as [|? ? Hd Hin']; subst.
  destruct (Z.eqb_spec 0 d) as [<-|Hne].
  - cbn [andb] in H. specialize (IH Hin' H). lia.
  - destruct (forallb (Z.eqb 0) ds) eqn:E.
    + rewrite (eval_zero r ds E). lia.
    + specialize (IH Hin' eq_refl). nia.
Qed.

Lemma eval_nonneg (r : Z) (ds : list Z) :
  0 < r -> in_radix r ds -> 0 <= eval r ds.
Proof.
  intros Hr Hin. induction Hin as [|d ds Hd Hin IH]; cbn [eval]; [lia|nia].
Qed.

(** The digit count of a value is the position of its top digit. *)
Lemma ndigits_eval (r : Z) (ds : list Z) :
  1 < r -> in_radix r ds -> ds <> [] ->
  forall fuel, (top ds < fuel)%nat ->
    ndigits_fuel fuel r (eval r ds) = S (top ds).
Proof.
  intros Hr Hin. induction Hin as [|d ds Hd Hin IH]; intros Hne fuel Hf;
    [congruence|].
  destruct fuel as [|fuel]; [lia|].
  cbn [ndigits_fuel eval top] in *.
  destruct (forallb (Z.eqb 0) ds) eqn:E.
  - rewrite (eval_zero r ds E).
    replace (d + r * 0 <? r) with true by (symmetry; apply Z.ltb_lt; lia).
    reflexivity.
  - pose proof (eval_pos r ds ltac:(lia) Hin E) as Hpos.
    replace (d + r * eval r ds <? r) with false
      by (symmetry; apply Z.ltb_ge; nia).
    replace ((d + r * eval r ds) / r) with (eval r ds).
    2:{ symmetry. rewrite Z.mul_comm, Z.div_add by lia.
        rewrite Z.div_small by lia. lia. }
    f_equal. apply IH; [|lia]. destruct ds; [discriminate E|discriminate].
Qed.

Lemma length_emit (tochar : Z -> ascii) (ds : list Z) (first_digit : nat) :
  (first_digit < List.length ds)%nat ->
  List.length (emit tochar ds first_digit) = S first_digit.
Proof.
  intros H. unfold emit. rewrite length_map, length_rev, length_firstn. lia.
Qed.

Lemma length_pad (c : ascii) (width first_digit : nat) :
  List.length (pad c width first_digit) = (width - first_digit)%nat.
Proof. apply repeat_length. Qed.

Lemma zero_based_of_nat (cap w : nat) :
  w <> O -> zero_based cap (Z.of_nat w) = (Nat.min w (S cap) - 1)%nat.
Proof.
  intros Hw. unfold zero_based.
  destruct (Z.ltb_spec (Z.of_nat cap) (Z.of_nat w)); lia.
Qed.

Lemma length_pad_unsigned (cap w first_digit : nat) (flags : fmt_flags_t) :
  (List.length (pad_unsigned cap (Z.of_nat w) first_digit flags) + S first_digit)%nat
  = Nat.max (S first_digit) (Nat.min w (S cap)).
Proof.
  unfold pad_unsigned.
  destruct (Z.eqb_spec (Z.of_nat w) 0) as [H0|H0]; [cbn [List.length]; lia|].
  rewrite zero_based_of_nat by lia.
  destruct (zeropad flags); rewrite length_pad; lia.
Qed.

Lemma length_pad_signed (cap w first_digit : nat) (n : Z) (flags : fmt_flags_t) :
  (List.length (pad_signed cap (Z.of_nat w) first_digit n flags) + S first_digit)%nat
  = (List.length (addSign n flags)
     + Nat.max (S first_digit) (Nat.min w (S cap)))%nat.
Proof.
  unfold pad_signed.
  destruct (Z.eqb_spec (Z.of_nat w) 0) as [H0|H0]; [lia|].
  rewrite zero_based_of_nat by lia.
  destruct (zeropad flags); rewrite length_app, length_pad; lia.
Qed.

(** *** Hexadecimal and octal digits *)

Lemma eval_positional (r n : Z) (k : nat) :
  1 < r -> 0 <= n ->
  forall j, eval r (positional r n j k) = (n / r ^ Z.of_nat j) mod r ^ Z.of_nat k.
Proof.
  intros Hr Hn. unfold positional.
  induction k as [|k IH]; intros j; cbn [seq map eval].
  - rewrite Z.mod_1_r. reflexivity.
  - rewrite IH. rewrite !Nat2Z.inj_succ, !Z.pow_succ_r by lia.
    assert (Hj : 0 < r ^ Z.of_nat j) by (apply Z.pow_pos_nonneg; lia).
    assert (Hk : 0 < r ^ Z.of_nat k) by (apply Z.pow_pos_nonneg; lia).
    rewrite Z.rem_mul_r by lia.
    rewrite Z.div_div by lia.
    rewrite (Z.mul_comm (r ^ Z.of_nat j) r). reflexivity.
Qed.

Lemma in_radix_positional (r n : Z) (j k : nat) :
  0 < r -> in_radix r (positional r n j k).
Proof.
  intros Hr. unfold in_radix, positional. apply Forall_map, Forall_forall.
  intros i _. apply Z.mod_pos_bound. exact Hr.
Qed.

Lemma hex_digit (n i : Z) :
  0 <= i -> Z.land (Z.shiftr n (4 * i)) 15 = (n / 16 ^ i) mod 16.
Proof.
  intros Hi. change 15 with (Z.ones 4).
  rewrite Z.land_ones, Z.shiftr_div_pow2 by lia.
  rewrite Z.pow_mul_r by lia. reflexivity.
Qed.

Lemma oct_digit (n i : Z) :
  0 <= i -> Z.land (Z.shiftr n (3 * i)) 7 = (n / 8 ^ i) mod 8.
Proof.
  intros Hi. change 7 with (Z.ones 3).
  rewrite Z.land_ones, Z.shiftr_div_pow2 by lia.
  rewrite Z.pow_mul_r by lia. reflexivity.
Qed.

(** With [size] other than [ZS64] both guarded blocks run and every
    digit is extracted. *)
Lemma zx64toa_digits (size : int_size_t) (n width : Z) (flags : fmt_flags_t)
    (upper : bool) :
  size <> ZS64 ->
  zx64toa size n width flags upper
  = let ds := positional 16 n 0 16 in
    let first_digit := top ds in
    pad_unsigned 15 width first_digit flags
    ++ emit (if upper then XTOCHAR else xTOCHAR) ds first_digit.
Proof.
  intros Hs. unfold zx64toa.
  replace (size_ge size ZS32) with true by (destruct size; [congruence| |]; reflexivity).
  replace (size_ge size ZS64) with true by (destruct size; reflexivity).
  cbv zeta. cbn [app tl].
  rewrite (first_digit_top (Z.land (Z.shiftr n (4 * 0)) 15)).
  rewrite !hex_digit by lia. reflexivity.
Qed.

Lemma zo64toa_digits (size : int_size_t) (n width : Z) (flags : fmt_flags_t) :
  size <> ZS64 ->
  zo64toa size n width flags
  = let ds := positional 8 n 0 22 in
    let first_digit := top ds in
    pad_unsigned 21 width first_digit flags ++ emit XTOCHAR ds first_digit.
Proof.
  intros Hs. unfold zo64toa.
  replace (size_ge size ZS32) with true by (destruct size; [congruence| |]; reflexivity).
  replace (size_ge size ZS64) with true by (destruct size; reflexivity).
  cbv zeta. cbn [app tl].
  rewrite (first_digit_top (Z.land (Z.shiftr n (3 * 0)) 7)).
  rewrite !oct_digit by lia. reflexivity.
Qed.

Lemma u64_range (n : Z) : 0 <= u64 n < 2 ^ 64.
Proof. apply Z.mod_pos_bound. reflexivity. Qed.

Lemma top_positional (r n : Z) (k : nat) :
  1 < r -> 0 <= n < r ^ Z.of_nat k -> (0 < k <= 64)%nat ->
  S (top (positional r n 0 k)) = ndigits r n.
Proof.
  intros Hr Hn Hk. unfold ndigits.
  assert (Hne : positional r n 0 k <> []).
  { unfold positional. destruct k; [lia|]. discriminate. }
  pose proof (top_lt_length _ Hne) as Hlt.
  unfold positional in Hlt at 2. rewrite length_map, length_seq in Hlt.
  rewrite <- (ndigits_eval r (positional r n 0 k) Hr
                (in_radix_positional r n 0 k ltac:(lia)) Hne 64 ltac:(lia)).
  rewrite eval_positional by lia.
  rewrite Z.pow_0_r, Z.div_1_r, Z.mod_small by lia. reflexivity.
Qed.

Lemma length_zx64toa (size : int_size_t) (n : Z) (w : nat) (flags : fmt_flags_t)
    (upper : bool) :
  size <> ZS64 ->
  List.length (zx64toa size (u64 n) (Z.of_nat w) flags upper)
  = Nat.max (ndigits 16 (u64 n)) (Nat.min w 16).
Proof.
  intros Hs. rewrite zx64toa_digits by exact Hs. cbv zeta.
  pose proof (u64_range n) as Hn.
  rewrite <- (top_positional 16 (u64 n) 16) by (cbn; lia).
  set (ds := positional 16 (u64 n) 0 16).
  assert (Hlt : (top ds < List.length ds)%nat) by (apply top_lt_length; discriminate).
  rewrite length_app, length_emit by exact Hlt.
  apply length_pad_unsigned.
Qed.

Lemma length_zo64toa (size : int_size_t) (n : Z) (w : nat) (flags : fmt_flags_t) :
  size <> ZS64 ->
  List.length (zo64toa size (u64 n) (Z.of_nat w) flags)
  = Nat.max (ndigits 8 (u64 n)) (Nat.min w 22).
Proof.
  intros Hs. rewrite zo64toa_digits by exact Hs. cbv zeta.
  pose proof (u64_range n) as Hn.
  rewrite <- (top_positional 8 (u64 n) 22) by (cbn; lia).
  set (ds := positional 8 (u64 n) 0 22).
  assert (Hlt : (top ds < List.length ds)%nat) by (apply top_lt_length; discriminate).
  rewrite length_app, length_emit by exact Hlt.
  apply length_pad_unsigned.
Qed.

(** *** Decimal digits by weighted sums *)

Lemma wrap_small (bits x : Z) : 0 <= x < 2 ^ bits -> wrap bits x = x.
Proof. intros H. unfold wrap. apply Z.mod_small. exact H. Qed.

Lemma wrap8_small (x : Z) : 0 <= x < 256 -> wrap 8 x = x.
Proof. intros H. apply wrap_small. change (2 ^ 8) with 256. exact H. Qed.

Lemma wrap16_small (x : Z) : 0 <= x < 65536 -> wrap 16 x = x.
Proof. intros H. apply wrap_small. change (2 ^ 16) with 65536. exact H. Qed.

Lemma nibble_at (n k : Z) :
  0 <= k -> Z.land (Z.shiftr n k) 15 = (n / 2 ^ k) mod 16.
Proof.
  intros Hk. change 15 with (Z.ones 4).
  rewrite Z.land_ones, Z.shiftr_div_pow2 by lia. reflexivity.
Qed.

Lemma nibble_0 (n : Z) : Z.land n 15 = n mod 16.
Proof. change 15 with (Z.ones 4). rewrite Z.land_ones by lia. reflexivity. Qed.

Lemma divstep_spec (a : Z) :
  0 <= a < 2560 -> divstep a = (a / 10, a mod 10).
Proof.
  intros Ha. unfold divstep.
  destruct (Z.eqb_spec a 0) as [->|Hne]; [reflexivity|].
  pose proof (Z.div_mod a 10 ltac:(lia)).
  pose proof (Z.mod_pos_bound a 10 ltac:(lia)).
  unfold u8. rewrite !wrap_small by lia. reflexivity.
Qed.

(** Removes the conversions that cannot wrap and names each quotient and
    remainder by 10, innermost first. *)
Ltac plain e :=
  lazymatch e with
  | context [Z.div] => fail
  | context [Z.modulo] => fail
  | context [wrap] => fail
  | context [divstep] => fail
  | _ => idtac
  end.

Ltac digit_step :=
  match goal with
  | |- context [wrap 8 ?x] => plain x; rewrite (wrap8_small x) by lia
  | |- context [wrap 16 ?x] => plain x; rewrite (wrap16_small x) by lia
  | |- context [divstep ?e] => plain e; rewrite (divstep_spec e) by lia
  | |- context [?e / 10] =>
      plain e;
      let q := fresh "q" in
      let d := fresh "d" in
      pose proof (Z.div_mod e 10 ltac:(lia));
      pose proof (Z.mod_pos_bound e 10 ltac:(lia));
      set (q := e / 10) in *; set (d := e mod 10) in *; clearbody q d
  end.

(** A 32-bit magnitude as the sum of its nibbles. *)
Lemma nibbles32 (n : Z) :
  0 <= n < 2 ^ 32 ->
  n = n mod 16 + 16 * ((n / 2 ^ 4) mod 16) + 256 * ((n / 2 ^ 8) mod 16)
      + 4096 * ((n / 2 ^ 12) mod 16) + 65536 * ((n / 2 ^ 16) mod 16)
      + 1048576 * ((n / 2 ^ 20) mod 16) + 16777216 * ((n / 2 ^ 24) mod 16)
      + 268435456 * ((n / 2 ^ 28) mod 16).
Proof.
  intros Hn.
  pose proof (eval_positional 16 n 8 ltac:(lia) ltac:(lia) 0) as H.
  rewrite Z.div_1_r, Z.mod_small in H by (cbn; lia).
  rewrite <- H at 1. cbn [positional seq map eval].
  rewrite Z.div_1_r.
  change (16 ^ Z.of_nat 1) with (2 ^ 4). change (16 ^ Z.of_nat 2) with (2 ^ 8).
  change (16 ^ Z.of_nat 3) with (2 ^ 12). change (16 ^ Z.of_nat 4) with (2 ^ 16).
  change (16 ^ Z.of_nat 5) with (2 ^ 20). change (16 ^ Z.of_nat 6) with (2 ^ 24).
  change (16 ^ Z.of_nat 7) with (2 ^ 28).
  lia.
Qed.

Lemma dec32_digits_spec (n : Z) :
  0 <= n < 2 ^ 32 ->
  in_radix 10 (dec32_digits n) /\ eval 10 (dec32_digits n) = n /\
  List.length (dec32_digits n) = 10%nat.
Proof.
  intros Hn. pose proof (nibbles32 n Hn) as Hsum.
  unfold dec32_digits, u8, u16.
  rewrite !nibble_at, nibble_0 by lia.
  pose proof (Z.mod_pos_bound n 16 ltac:(lia)).
  pose proof (Z.mod_pos_bound (n / 2 ^ 4) 16 ltac:(lia)).
  pose proof (Z.mod_pos_bound (n / 2 ^ 8) 16 ltac:(lia)).
  pose proof (Z.mod_pos_bound (n / 2 ^ 12) 16 ltac:(lia)).
  pose proof (Z.mod_pos_bound (n / 2 ^ 16) 16 ltac:(lia)).
  pose proof (Z.mod_pos_bound (n / 2 ^ 20) 16 ltac:(lia)).
  pose proof (Z.mod_pos_bound (n / 2 ^ 24) 16 ltac:(lia)).
  pose proof (Z.mod_pos_bound (n / 2 ^ 28) 16 ltac:(lia)).
  set (n0 := n mod 16) in *. set (n1 := (n / 2 ^ 4) mod 16) in *.
  set (n2 := (n / 2 ^ 8) mod 16) in *. set (n3 := (n / 2 ^ 12) mod 16) in *.
  set (n4 := (n / 2 ^ 16) mod 16) in *. set (n5 := (n / 2 ^ 20) mod 16) in *.
  set (n6 := (n / 2 ^ 24) mod 16) in *. set (n7 := (n / 2 ^ 28) mod 16) in *.
  clearbody n0 n1 n2 n3 n4 n5 n6 n7.
  repeat (digit_step; cbv beta iota zeta).
  split; [repeat constructor; lia|].
  split; [cbn [eval]; lia|reflexivity].
Qed.

Lemma nibbles16 (n : Z) :
  0 <= n < 2 ^ 16 ->
  n = n mod 16 + 16 * ((n / 2 ^ 4) mod 16) + 256 * ((n / 2 ^ 8) mod 16)
      + 4096 * ((n / 2 ^ 12) mod 16).
Proof.
  intros Hn.
  pose proof (eval_positional 16 n 4 ltac:(lia) ltac:(lia) 0) as H.
  rewrite Z.div_1_r, Z.mod_small in H by (cbn; lia).
  rewrite <- H at 1. cbn [positional seq map eval].
  rewrite Z.div_1_r.
  change (16 ^ Z.of_nat 1) with (2 ^ 4). change (16 ^ Z.of_nat 2) with (2 ^ 8).
  change (16 ^ Z.of_nat 3) with (2 ^ 12).
  lia.
Qed.

Lemma dec16_digits_spec (n : Z) :
  0 <= n < 2 ^ 16 ->
  in_radix 10 (dec16_digits n) /\ eval 10 (dec16_digits n) = n /\
  List.length (dec16_digits n) = 5%nat.
Proof.
  intros Hn. pose proof (nibbles16 n Hn) as Hsum.
  unfold dec16_digits, u8, u16.
  rewrite !nibble_at, nibble_0 by lia.
  pose proof (Z.mod_pos_bound n 16 ltac:(lia)).
  pose proof (Z.mod_pos_bound (n / 2 ^ 4) 16 ltac:(lia)).
  pose proof (Z.mod_pos_bound (n / 2 ^ 8) 16 ltac:(lia)).
  pose proof (Z.mod_pos_bound (n / 2 ^ 12) 16 ltac:(lia)).
  set (n0 := n mod 16) in *. set (n1 := (n / 2 ^ 4) mod 16) in *.
  set (n2 := (n / 2 ^ 8) mod 16) in *. set (n3 := (n / 2 ^ 12) mod 16) in *.
  clearbody n0 n1 n2 n3.
  cbv zeta.
  repeat (digit_step; cbv beta iota zeta).
  split; [repeat constructor; lia|].
  split; [cbn [eval]; lia|reflexivity].
Qed.

(** The digits a decimal renderer emits, and their number. *)
Lemma dec_first_digit (ds : list Z) (n : Z) (k : nat) :
  in_radix 10 ds -> eval 10 ds = n -> List.length ds = k -> (0 < k <= 64)%nat ->
  let first_digit := first_nonzero (tl ds) 1 0 in
  S first_digit = ndigits 10 n /\ (first_digit < List.length ds)%nat.
Proof.
  intros Hin He Hl Hk. destruct ds as [|d0 ds]; [cbn in Hl; lia|].
  cbn [tl]. rewrite (first_digit_top d0).
  pose proof (top_lt_length (d0 :: ds) ltac:(discriminate)) as Hlt.
  split; [|exact Hlt].
  unfold ndigits. rewrite <- He.
  symmetry. apply ndigits_eval; try assumption; try lia; discriminate.
Qed.

Lemma length_zu32toa (n : Z) (w : nat) (flags : fmt_flags_t) :
  0 <= n < 2 ^ 32 ->
  List.length (zu32toa n (Z.of_nat w) flags) = Nat.max (ndigits 10 n) (Nat.min w 10).
Proof.
  intros Hn. unfold zu32toa. cbv zeta.
  destruct (dec32_digits_spec n Hn) as (Hin & He & Hl).
  destruct (dec_first_digit _ n 10 Hin He Hl ltac:(lia)) as (Hd & Hlt).
  rewrite length_app, length_emit by exact Hlt.
  rewrite <- Hd. apply length_pad_unsigned.
Qed.

Lemma length_zu16toa (n : Z) (w : nat) (flags : fmt_flags_t) :
  0 <= n < 2 ^ 16 ->
  List.length (zu16toa n (Z.of_nat w) flags) = Nat.max (ndigits 10 n) (Nat.min w 5).
Proof.
  intros Hn. unfold zu16toa. cbv zeta.
  destruct (dec16_digits_spec n Hn) as (Hin & He & Hl).
  destruct (dec_first_digit _ n 5 Hin He Hl ltac:(lia)) as (Hd & Hlt).
  rewrite length_app, length_emit by exact Hlt.
  rewrite <- Hd. apply length_pad_unsigned.
Qed.

(** The magnitude taken by the signed renderers: [-n] wraps to [2^(bits-1)]
    at the minimum. *)
Lemma abs_wrap (bits n : Z) :
  0 < bits -> - 2 ^ (bits - 1) <= n < 2 ^ (bits - 1) ->
  wrap bits (if n <? 0 then - n else n) = Z.abs n /\ 0 <= Z.abs n < 2 ^ bits.
Proof.
  intros Hb Hn.
  assert (Hp : 2 ^ bits = 2 * 2 ^ (bits - 1)).
  { rewrite <- Z.pow_succ_r by lia. f_equal. lia. }
  assert (Ha : 0 <= Z.abs n < 2 ^ bits) by lia.
  split; [|exact Ha].
  rewrite <- (wrap_small bits (Z.abs n) Ha). f_equal.
  destruct (Z.ltb_spec n 0); lia.
Qed.

Lemma length_zi32toa (n : Z) (w : nat) (flags : fmt_flags_t) :
  - 2 ^ 31 <= n < 2 ^ 31 ->
  List.length (zi32toa n (Z.of_nat w) flags)
  = (List.length (addSign n flags)
     + Nat.max (ndigits 10 (Z.abs n)) (Nat.min w 10))%nat.
Proof.
  intros Hn. unfold zi32toa. cbv zeta.
  destruct (abs_wrap 32 n ltac:(lia) Hn) as (Ha & Hr).
  unfold u32. rewrite Ha.
  destruct (dec32_digits_spec (Z.abs n) Hr) as (Hin & He & Hl).
  destruct (dec_first_digit _ _ 10 Hin He Hl ltac:(lia)) as (Hd & Hlt).
  rewrite length_app, length_emit by exact Hlt.
  rewrite <- Hd. apply length_pad_signed.
Qed.

Lemma length_zi16toa (n : Z) (w : nat) (flags : fmt_flags_t) :
  - 2 ^ 15 <= n < 2 ^ 15 ->
  List.length (zi16toa n (Z.of_nat w) flags)
  = (List.length (addSign n flags)
     + Nat.max (ndigits 10 (Z.abs n)) (Nat.min w 5))%nat.
Proof.
  intros Hn. unfold zi16toa. cbv zeta.
  destruct (abs_wrap 16 n ltac:(lia) Hn) as (Ha & Hr).
  unfold u16. rewrite Ha.
  destruct (dec16_digits_spec (Z.abs n) Hr) as (Hin & He & Hl).
  destruct (dec_first_digit _ _ 5 Hin He Hl ltac:(lia)) as (Hd & Hlt).
  rewrite length_app, length_emit by exact Hlt.
  rewrite <- Hd. apply length_pad_signed.
Qed.

(** *** Decimal digits by repeated division *)

Lemma div10_loop_lsd (fuel : nat) :
  forall (n : Z) (tmp : list ascii),
    0 <= n < 10 ^ Z.of_nat fuel ->
    div10_loop fuel n tmp = (0, tmp ++ map DTOCHAR (lsd fuel n)).
Proof.
  induction fuel as [|fuel IH]; intros n tmp Hn; cbn [div10_loop lsd].
  - cbn in Hn. replace n with 0 by lia. rewrite app_nil_r. reflexivity.
  - destruct (Z.eqb_spec n 0) as [->|Hne]; [rewrite app_nil_r; reflexivity|].
    rewrite IH.
    + rewrite <- app_assoc. reflexivity.
    + rewrite Nat2Z.inj_succ, Z.pow_succ_r in Hn by lia.
      split; [apply Z.div_pos; lia|apply Z.div_lt_upper_bound; lia].
Qed.

Lemma lsd_spec (fuel : nat) :
  forall n : Z,
    0 < n < 10 ^ Z.of_nat fuel ->
    in_radix 10 (lsd fuel n) /\ eval 10 (lsd fuel n) = n /\
    forall f', (fuel <= f')%nat -> List.length (lsd fuel n) = ndigits_fuel f' 10 n.
Proof.
  induction fuel as [|fuel IH]; intros n Hn; [cbn in Hn; lia|].
  cbn [lsd]. replace (n =? 0) with false by (symmetry; apply Z.eqb_neq; lia).
  pose proof (Z.div_mod n 10 ltac:(lia)) as Hdm.
  pose proof (Z.mod_pos_bound n 10 ltac:(lia)) as Hm.
  rewrite Nat2Z.inj_succ, Z.pow_succ_r in Hn by lia.
  destruct (Z.ltb_spec n 10) as [Hlt|Hge].
  - assert (Hq : n / 10 = 0) by (apply Z.div_small; lia).
    rewrite Hq. replace (lsd fuel 0) with (@nil Z) by (destruct fuel; reflexivity).
    split; [repeat constructor; lia|].
    split; [cbn [eval]; lia|].
    intros f' Hf. destruct f' as [|f']; [lia|]. cbn [ndigits_fuel List.length].
    replace (n <? 10) with true by (symmetry; apply Z.ltb_lt; lia). reflexivity.
  - assert (Hq : 0 < n / 10 < 10 ^ Z.of_nat fuel).
    { split; [apply Z.div_str_pos; lia|apply Z.div_lt_upper_bound; lia]. }
    destruct (IH (n / 10) Hq) as (Hin & He & Hl).
    split; [constructor; [lia|exact Hin]|].
    split; [cbn [eval]; rewrite He; lia|].
    intros f' Hf. destruct f' as [|f']; [lia|]. cbn [ndigits_fuel List.length].
    replace (n <? 10) with false by (symmetry; apply Z.ltb_ge; lia).
    f_equal. apply Hl. lia.
Qed.

(** *** [reverse] *)

Lemma firstn_app_length (a b : list ascii) :
  firstn (List.length a) (a ++ b) = a.
Proof.
  rewrite firstn_app, Nat.sub_diag, firstn_all, firstn_O, app_nil_r. reflexivity.
Qed.

Lemma skipn_app_cons_gen (a b : list ascii) (x : ascii) :
  skipn (S (List.length a)) (a ++ x :: b) = b.
Proof. apply skipn_app_cons. Qed.

Lemma swap_spec (a m b : list ascii) (x y : ascii) :
  swap (a ++ x :: m ++ y :: b) (List.length a) (List.length a + S (List.length m))
  = a ++ y :: m ++ x :: b.
Proof.
  unfold swap.
  rewrite nth_middle.
  replace (nth (List.length a + S (List.length m)) (a ++ x :: m ++ y :: b) NUL) with y.
  2:{ rewrite app_nth2 by lia.
      replace (List.length a + S (List.length m) - List.length a)%nat
        with (S (List.length m)) by lia.
      cbn [nth]. rewrite nth_middle. reflexivity. }
  rewrite firstn_app_length, skipn_app_cons_gen.
  replace (a ++ y :: m ++ y :: b) with ((a ++ y :: m) ++ y :: b)
    by (rewrite <- app_assoc; reflexivity).
  assert (Hl : List.length (a ++ y :: m) = (List.length a + S (List.length m))%nat)
    by (rewrite length_app; reflexivity).
  rewrite <- Hl.
  rewrite firstn_app_length, skipn_app_cons_gen.
  rewrite <- app_assoc. reflexivity.
Qed.

Lemma reverse_loop_spec (fuel : nat) :
  forall a mid b : list ascii,
    (List.length mid <= 2 * fuel + 1)%nat ->
    reverse_loop fuel (a ++ mid ++ b) (List.length a)
      (List.length a + List.length mid - 1)
    = a ++ rev mid ++ b.
Proof.
  induction fuel as [|fuel IH]; intros a mid b Hlen.
  - destruct mid as [|x [|y mid]]; cbn [List.length] in Hlen; try lia; reflexivity.
  - cbn [reverse_loop].
    destruct mid as [|x mid].
    { cbn [List.length]. replace (List.length a <? _)%nat with false
        by (symmetry; apply Nat.ltb_ge; lia). reflexivity. }
    destruct mid as [|z mid'].
    { cbn [List.length].
      replace (List.length a <? _)%nat with false
        by (symmetry; apply Nat.ltb_ge; lia). reflexivity. }
    destruct (@exists_last _ (z :: mid') ltac:(discriminate)) as (m & y & Heq).
    rewrite Heq in *. clear Heq z mid'.
    cbn [List.length]. rewrite length_app. cbn [List.length].
    replace (List.length a <? _)%nat with true
      by (symmetry; apply Nat.ltb_lt; lia).
    replace (List.length a + S (List.length m + 1) - 1)%nat
      with (List.length a + S (List.length m))%nat by lia.
    replace (a ++ (x :: m ++ [y]) ++ b) with (a ++ x :: m ++ y :: b)
      by (cbn [app]; rewrite <- app_assoc; reflexivity).
    rewrite swap_spec.
    replace (a ++ y :: m ++ x :: b) with ((a ++ [y]) ++ m ++ (x :: b))
      by (rewrite <- app_assoc; reflexivity).
    replace (S (List.length a)) with (List.length (a ++ [y]))
      by (rewrite length_app; cbn; lia).
    replace (List.length a + S (List.length m) - 1)%nat
      with (List.length (a ++ [y]) + List.length m - 1)%nat
      by (rewrite length_app; cbn; lia).
    rewrite IH.
    + cbn [rev]. rewrite rev_app_distr. cbn [rev app].
      rewrite <- !app_assoc. reflexivity.
    + cbn [List.length] in Hlen. rewrite length_app in Hlen. cbn in Hlen. lia.
Qed.

Lemma reverse_spec (buf : list ascii) :
  buf <> [] -> reverse buf (List.length buf - 1) = rev buf.
Proof.
  intros Hne. unfold reverse.
  pose proof (reverse_loop_spec (S (List.length buf - 1)) [] buf []) as H.
  cbn [app List.length] in H. rewrite !app_nil_r in H.
  cbn [Nat.add] in H. apply H. lia.
Qed.

Lemma dec64_digits_spec (n : Z) :
  0 < n < 2 ^ 64 ->
  dec64_digits n
  = (map DTOCHAR (rev (lsd 20 n)), (ndigits 10 n - 1)%nat) /\
  List.length (lsd 20 n) = ndigits 10 n /\ (0 < ndigits 10 n)%nat.
Proof.
  intros Hn.
  assert (Hn' : 0 < n < 10 ^ Z.of_nat 20).
  { change (10 ^ Z.of_nat 20) with 100000000000000000000.
    change (2 ^ 64) with 18446744073709551616 in Hn. lia. }
  destruct (lsd_spec 20 n Hn') as (_ & _ & Hl).
  specialize (Hl 64%nat ltac:(lia)). fold (ndigits 10 n) in Hl.
  assert (Hpos : (0 < ndigits 10 n)%nat).
  { rewrite <- Hl. cbn [lsd].
    replace (n =? 0) with false by (symmetry; apply Z.eqb_neq; lia).
    cbn [List.length]. lia. }
  split; [|split; [exact Hl|exact Hpos]].
  unfold dec64_digits.
  replace (n =? 0) with false by (symmetry; apply Z.eqb_neq; lia).
  rewrite div10_loop_lsd by (split; [apply Z.lt_le_incl|]; apply Hn').
  cbn [app].
  rewrite reverse_spec.
  - rewrite length_map, Hl, map_rev. reflexivity.
  - intros H. apply (f_equal (@List.length _)) in H.
    rewrite length_map, Hl in H. cbn [List.length] in H. lia.
Qed.

Lemma length_dec64_text (n : Z) :
  0 < n < 2 ^ 64 ->
  List.length (firstn (S (ndigits 10 n - 1)) (map DTOCHAR (rev (lsd 20 n))))
  = S (ndigits 10 n - 1).
Proof.
  intros Hn. destruct (dec64_digits_spec n Hn) as (_ & Hl & Hpos).
  rewrite length_firstn, length_map, length_rev, Hl. lia.
Qed.

Lemma length_zu64toa (n : Z) (w : nat) (flags : fmt_flags_t) :
  0 <= n < 2 ^ 64 ->
  List.length (zu64toa n (Z.of_nat w) flags)
  = Nat.max (ndigits 10 n) (Nat.min w (if n <=? UINT32_MAX then 10 else 21)).
Proof.
  intros Hn. unfold zu64toa.
  destruct (Z.leb_spec n UINT32_MAX) as [Hle|Hgt].
  - apply length_zu32toa. unfold UINT32_MAX in Hle. lia.
  - unfold UINT32_MAX in Hgt.
    destruct (dec64_digits_spec n ltac:(lia)) as (-> & Hl & Hpos).
    rewrite length_app, length_dec64_text by lia.
    rewrite length_pad_unsigned. lia.
Qed.

Lemma length_zi64toa (n : Z) (w : nat) (flags : fmt_flags_t) :
  - 2 ^ 63 <= n < 2 ^ 63 ->
  List.length (zi64toa n (Z.of_nat w) flags)
  = (List.length (addSign n flags)
     + Nat.max (ndigits 10 (Z.abs n))
         (Nat.min w (if Z.leb INT32_MIN n && Z.leb n INT32_MAX then 10 else 20)))%nat.
Proof.
  intros Hn. unfold zi64toa.
  destruct ((INT32_MIN <=? n) && (n <=? INT32_MAX)) eqn:E.
  - apply andb_prop in E as (E1 & E2).
    apply Z.leb_le in E1, E2. unfold INT32_MIN, INT32_MAX in *.
    apply length_zi32toa. lia.
  - destruct (abs_wrap 64 n ltac:(lia) Hn) as (Ha & Hr).
    unfold u64. rewrite Ha.
    assert (Hnz : 0 < Z.abs n).
    { apply andb_false_iff in E. unfold INT32_MIN, INT32_MAX in E.
      destruct E as [E|E]; [apply Z.leb_gt in E|apply Z.leb_gt in E]; lia. }
    destruct (dec64_digits_spec (Z.abs n) ltac:(lia)) as (-> & Hl & Hpos).
    rewrite length_app, length_dec64_text by lia.
    rewrite length_pad_signed. lia.
Qed.

Lemma wrap_range (bits n : Z) : 0 <= bits -> 0 <= wrap bits n < 2 ^ bits.
Proof. intros Hb. apply Z.mod_pos_bound. apply Z.pow_pos_nonneg; lia. Qed.

Lemma swrap_range (bits n : Z) :
  0 < bits -> - 2 ^ (bits - 1) <= swrap bits n < 2 ^ (bits - 1).
Proof.
  intros Hb. unfold swrap. cbv zeta.
  pose proof (wrap_range bits n ltac:(lia)) as Hw.
  assert (Hp : 2 ^ bits = 2 * 2 ^ (bits - 1)).
  { rewrite <- Z.pow_succ_r by lia. f_equal. lia. }
  destruct (Z.ltb_spec (wrap bits n) (2 ^ (bits - 1))); lia.
Qed.

Lemma length_zutoa_at (s : int_size_t) (n : Z) (w : nat) (flags : fmt_flags_t) :
  List.length (zutoa_at s n (Z.of_nat w) flags)
  = Nat.max (ndigits 10 (wrap (size_bits s) n))
      (Nat.min w (dec_capacity_unsigned s (wrap (size_bits s) n))).
Proof.
  destruct s; cbn [zutoa_at size_bits dec_capacity_unsigned].
  - apply length_zu64toa. apply (wrap_range 64). lia.
  - apply length_zu32toa. apply (wrap_range 32). lia.
  - apply length_zu16toa. apply (wrap_range 16). lia.
Qed.

Lemma length_zitoa_at (s : int_size_t) (n : Z) (w : nat) (flags : fmt_flags_t) :
  List.length (zitoa_at s n (Z.of_nat w) flags)
  = (List.length (addSign (swrap (size_bits s) n) flags)
     + Nat.max (ndigits 10 (Z.abs (swrap (size_bits s) n)))
         (Nat.min w (dec_capacity_signed s (swrap (size_bits s) n))))%nat.
Proof.
  destruct s; cbn [zitoa_at size_bits dec_capacity_signed].
  - apply length_zi64toa. apply (swrap_range 64). lia.
  - apply length_zi32toa. apply (swrap_range 32). lia.
  - apply length_zi16toa. apply (swrap_range 16). lia.
Qed.

(** C3 as stated fails twice over.  An unsigned 32-bit value with one
    digit and width 12 is rendered in 10 characters, not 12, because the
    width is clamped to the digit capacity; and a negative value with two
    characters (sign and digit) and width 5 is rendered in 6 characters,
    because the sign is not counted in the width. *)
Lemma width_is_clamped_and_excludes_the_sign :
  List.length (zu32toa 7 0 no_flags) = 1%nat /\
  List.length (zu32toa 7 12 no_flags) = 10%nat /\
  List.length (zi32toa (-3) 0 no_flags) = 2%nat /\
  List.length (zi32toa (-3) 5 no_flags) = 6%nat.
Proof. repeat split; reflexivity. Qed.

(** C3, amended.  For the decimal renderers of every size, and for the
    hexadecimal and octal renderer at the sizes [ZS16] and [ZS32]: the
    rendered length is the number of sign characters plus the larger of
    the value's digit count and [min w cap], where [cap] is the digit
    capacity of the path taken (5, 10, 20 or 21 decimal digits, 16
    hexadecimal, 22 octal).  So the width never truncates, and when no
    sign is emitted and [w <= cap] a value with [d <= w] digits is
    rendered in exactly [w] characters. *)
Theorem rendered_length (s : int_size_t) (n : Z) (w : nat) (flags : fmt_flags_t)
    (upper : bool) :
  let un := wrap (size_bits s) n in
  let sn := swrap (size_bits s) n in
  List.length (zutoa_at s n (Z.of_nat w) flags)
    = Nat.max (ndigits 10 un) (Nat.min w (dec_capacity_unsigned s un)) /\
  List.length (zitoa_at s n (Z.of_nat w) flags)
    = (List.length (addSign sn flags)
       + Nat.max (ndigits 10 (Z.abs sn)) (Nat.min w (dec_capacity_signed s sn)))%nat /\
  List.length (zx64toa ZS16 (u64 n) (Z.of_nat w) flags upper)
    = Nat.max (ndigits 16 (u64 n)) (Nat.min w 16) /\
  List.length (zx64toa ZS32 (u64 n) (Z.of_nat w) flags upper)
    = Nat.max (ndigits 16 (u64 n)) (Nat.min w 16) /\
  List.length (zo64toa ZS16 (u64 n) (Z.of_nat w) flags)
    = Nat.max (ndigits 8 (u64 n)) (Nat.min w 22) /\
  List.length (zo64toa ZS32 (u64 n) (Z.of_nat w) flags)
    = Nat.max (ndigits 8 (u64 n)) (Nat.min w 22).
Proof.
  cbv zeta. split; [|split].
  - apply length_zutoa_at.
  - apply length_zitoa_at.
  - repeat split;
      first [apply length_zx64toa; discriminate | apply length_zo64toa; discriminate].
Qed.

(** C2 as stated fails: the pad loop pads the digits to the width and
    the sign is written in addition, so -3 with width 5 takes six
    characters, with zero padding as well as with space padding. *)
Lemma width_five_gives_six_characters :
  show (zi32toa (-3) 5 (set_zeropad no_flags)) <> "-0003"%string /\
  show (zi32toa (-3) 5 no_flags) <> "   -3"%string.
Proof. split; vm_compute; intro H; discriminate H. Qed.

(** C2, amended.  The width counts the digits only and the sign is
    written in addition: a negative 32-bit [n] is rendered as its digits
    padded on the left to [min w 10] characters, with the ['-'] before the
    padding zeros when zero-padding and immediately before the first
    digit, after the padding spaces, otherwise.  Rendering -3 with width 5
    yields ["-00003"] with the zero-pad flag and ["    -3"] without, in the
    16-bit, 32-bit and 64-bit renderers alike. *)
Theorem sign_is_extra_to_the_width (n : Z) (w : nat) (flags : fmt_flags_t) :
  - 2 ^ 31 <= n < 0 ->
  (let digits := zu32toa (- n) 0 no_flags in
   let k := (Nat.min w 10 - List.length digits)%nat in
   zi32toa n (Z.of_nat w) flags
   = if zeropad flags then "-"%char :: repeat "0"%char k ++ digits
     else repeat " "%char k ++ "-"%char :: digits) /\
  show (zi32toa (-3) 5 (set_zeropad no_flags)) = "-00003"%string /\
  show (zi32toa (-3) 5 no_flags) = "    -3"%string /\
  show (zi16toa (-3) 5 (set_zeropad no_flags)) = "-00003"%string /\
  show (zi16toa (-3) 5 no_flags) = "    -3"%string /\
  show (zi64toa (-3) 5 (set_zeropad no_flags)) = "-00003"%string /\
  show (zi64toa (-3) 5 no_flags) = "    -3"%string.
Proof.
  intros Hn. split; [|repeat split; reflexivity].
  cbv zeta. unfold zi32toa, zu32toa. cbv zeta.
  destruct (abs_wrap 32 n ltac:(lia) ltac:(lia)) as (Ha & Hr).
  unfold u32. rewrite Ha. replace (Z.abs n) with (- n) in * by lia.
  destruct (dec32_digits_spec (- n) Hr) as (Hin & He & Hl).
  destruct (dec_first_digit _ _ 10 Hin He Hl ltac:(lia)) as (_ & Hlt).
  set (ds := dec32_digits (- n)) in *.
  set (fd := first_nonzero (tl ds) 1 0) in *.
  change (pad_unsigned 9 0 fd no_flags) with (@nil ascii). cbn [app].
  rewrite length_emit by exact Hlt.
  unfold pad_signed, addSign.
  replace (n <? 0) with true by (symmetry; apply Z.ltb_lt; lia).
  destruct (Z.eqb_spec (Z.of_nat w) 0) as [H0|H0].
  - replace w with O by lia. cbn [Nat.min Nat.sub repeat app].
    destruct (zeropad flags); reflexivity.
  - rewrite zero_based_of_nat by lia. unfold pad.
    replace (Nat.min w 10 - 1 - fd)%nat with (Nat.min w 10 - S fd)%nat by lia.
    destruct (zeropad flags).
    + reflexivity.
    + rewrite <- app_assoc. reflexivity.
Qed.

Lemma sign_is_extra_to_the_width_witness :
  (let digits := zu32toa (- (-3)) 0 no_flags in
   let k := (Nat.min 5 10 - List.length digits)%nat in
   zi32toa (-3) (Z.of_nat 5) (set_zeropad no_flags)
   = if zeropad (set_zeropad no_flags) then "-"%char :: repeat "0"%char k ++ digits
     else repeat " "%char k ++ "-"%char :: digits) /\
  show (zi32toa (-3) 5 (set_zeropad no_flags)) = "-00003"%string /\
  show (zi32toa (-3) 5 no_flags) = "    -3"%string /\
  show (zi16toa (-3) 5 (set_zeropad no_flags)) = "-00003"%string /\
  show (zi16toa (-3) 5 no_flags) = "    -3"%string /\
  show (zi64toa (-3) 5 (set_zeropad no_flags)) = "-00003"%string /\
  show (zi64toa (-3) 5 no_flags) = "    -3"%string.
Proof.
  apply (sign_is_extra_to_the_width (-3) 5 (set_zeropad no_flags)).
  lia.
Defined.

(** ** Round trip *)

(** C4, at a failing input.  [ZS64] is the first enumerator, so for the
    64-bit size the test [size >= ZS32] is false and the hexadecimal
    digits 4..7 (octal digits 6..10) are never extracted: 65536 is
    rendered as ["0"] and 0x12345678 as ["5678"], which read back as 0 and
    0x5678; the same happens through [%llx], [%llo] and [%p]. *)
Theorem hex64_round_trip_fails :
  show (zllxtoa 65536 0 no_flags) = "0"%string /\
  parse 16 (zllxtoa 65536 0 no_flags) = Some 0 /\
  show (zllxtoa 305419896 0 no_flags) = "5678"%string /\
  parse 16 (zllxtoa 305419896 0 no_flags) = Some 22136 /\
  show (zllotoa 262144 0 no_flags) = "0"%string /\
  parse 8 (zllotoa 262144 0 no_flags) = Some 0 /\
  (forall M,
      zvsnprintf lp64_x87 M (repeat "#"%char 8) 8 (str "%llx") [a_llong 65536]
      = Ok (1, str "0" ++ NUL :: str "######")) /\
  (forall M,
      zvsnprintf lp64_x87 M (repeat "#"%char 8) 8 (str "%lo") [a_long 262144]
      = Ok (1, str "0" ++ NUL :: str "######")) /\
  (forall M,
      zvsnprintf ilp32 M (repeat "#"%char 8) 8 (str "%p") [a_ptr 305419896]
      = Ok (4, str "5678" ++ NUL :: str "###")).
Proof. repeat split; reflexivity. Qed.

(** The round trip does hold for the decimal renderers of every size and
    for the hexadecimal and octal renderer at [ZS16] and [ZS32]. *)

Lemma digit_value_DTOCHAR (d : Z) : 0 <= d < 10 -> digit_value (DTOCHAR d) = Some d.
Proof.
  intros H.
  assert (Hd : d = 0 \/ d = 1 \/ d = 2 \/ d = 3 \/ d = 4 \/ d = 5 \/ d = 6
               \/ d = 7 \/ d = 8 \/ d = 9) by lia.
  repeat destruct Hd as [->|Hd]; try subst d; reflexivity.
Qed.

Lemma digit_value_xTOCHAR (d : Z) : 0 <= d < 16 -> digit_value (xTOCHAR d) = Some d.
Proof.
  intros H.
  assert (Hd : d = 0 \/ d = 1 \/ d = 2 \/ d = 3 \/ d = 4 \/ d = 5 \/ d = 6
               \/ d = 7 \/ d = 8 \/ d = 9 \/ d = 10 \/ d = 11 \/ d = 12
               \/ d = 13 \/ d = 14 \/ d = 15) by lia.
  repeat destruct Hd as [->|Hd]; try subst d; reflexivity.
Qed.

Lemma digit_value_XTOCHAR (d : Z) : 0 <= d < 16 -> digit_value (XTOCHAR d) = Some d.
Proof.
  intros H.
  assert (Hd : d = 0 \/ d = 1 \/ d = 2 \/ d = 3 \/ d = 4 \/ d = 5 \/ d = 6
               \/ d = 7 \/ d = 8 \/ d = 9 \/ d = 10 \/ d = 11 \/ d = 12
               \/ d = 13 \/ d = 14 \/ d = 15) by lia.
  repeat destruct Hd as [->|Hd]; try subst d; reflexivity.
Qed.

(** Reading most-significant-first digits accumulates their value. *)
Lemma parse_digits_map (r : Z) (tochar : Z -> ascii) (ds : list Z) :
  (forall d, 0 <= d < r -> digit_value (tochar d) = Some d) ->
  in_radix r ds ->
  forall acc,
    parse_digits r (map tochar ds) acc
    = Some (fold_left (fun a d => r * a + d) ds acc).
Proof.
  intros Hinv Hin. induction Hin as [|d ds Hd Hin IH]; intros acc;
    cbn [map parse_digits fold_left]; [reflexivity|].
  rewrite (Hinv d Hd).
  replace (d <? r) with true by (symmetry; apply Z.ltb_lt; lia).
  apply IH.
Qed.

Lemma fold_left_rev_eval (r : Z) (ds : list Z) :
  fold_left (fun a d => r * a + d) (rev ds) 0 = eval r ds.
Proof.
  induction ds as [|d ds IH]; [reflexivity|].
  cbn [rev eval]. rewrite fold_left_app. cbn [fold_left]. rewrite IH. lia.
Qed.

Lemma eval_firstn_top (r : Z) (ds : list Z) :
  eval r (firstn (S (top ds)) ds) = eval r ds.
Proof.
  induction ds as [|d ds IH]; [reflexivity|].
  cbn [top]. destruct (forallb (Z.eqb 0) ds) eqn:E.
  - change (firstn 1 (d :: ds)) with [d]. cbn [eval].
    rewrite (eval_zero r ds E). reflexivity.
  - change (firstn (S (S (top ds))) (d :: ds)) with (d :: firstn (S (top ds)) ds).
    cbn [eval]. rewrite IH. reflexivity.
Qed.

Lemma in_radix_firstn (r : Z) (k : nat) (ds : list Z) :
  in_radix r ds -> in_radix r (firstn k ds).
Proof.
  intros H. unfold in_radix in *.
  rewrite <- (firstn_skipn k ds) in H. apply Forall_app in H. apply H.
Qed.

Lemma in_radix_rev (r : Z) (ds : list Z) : in_radix r ds -> in_radix r (rev ds).
Proof. intros H. apply Forall_rev. exact H. Qed.

(** What [emit] writes reads back as the value of the digits. *)
Lemma parse_emit (r : Z) (tochar : Z -> ascii) (ds : list Z) :
  (forall d, 0 <= d < r -> digit_value (tochar d) = Some d) ->
  in_radix r ds ->
  parse_digits r (emit tochar ds (top ds)) 0 = Some (eval r ds).
Proof.
  intros Hinv Hin. unfold emit.
  rewrite (parse_digits_map r tochar _ Hinv)
    by (apply in_radix_rev, in_radix_firstn; exact Hin).
  rewrite fold_left_rev_eval, eval_firstn_top. reflexivity.
Qed.

Lemma emit_not_minus (tochar : Z -> ascii) (r : Z) (ds : list Z) :
  (forall d, 0 <= d < r -> digit_value (tochar d) = Some d) ->
  in_radix r ds -> ds <> [] ->
  parse r (emit tochar ds (top ds)) = parse_digits r (emit tochar ds (top ds)) 0.
Proof.
  intros Hinv Hin Hne. unfold emit.
  pose proof (top_lt_length ds Hne) as Hlt.
  assert (Hin' : in_radix r (rev (firstn (S (top ds)) ds)))
    by (apply in_radix_rev, in_radix_firstn; exact Hin).
  destruct (rev (firstn (S (top ds)) ds)) as [|d l] eqn:E.
  - apply (f_equal (@List.length _)) in E.
    rewrite length_rev, length_firstn in E. cbn [List.length] in E. lia.
  - cbn [map parse]. inversion Hin' as [|? ? Hd _]; subst.
    destruct (Ascii.eqb_spec (tochar d) "-") as [Heq|Hneq]; [|reflexivity].
    specialize (Hinv d Hd). rewrite Heq in Hinv. discriminate Hinv.
Qed.

Lemma round_trip_zu32toa (n : Z) :
  0 <= n < 2 ^ 32 -> parse 10 (zu32toa n 0 no_flags) = Some n.
Proof.
  intros Hn. unfold zu32toa. cbv zeta.
  destruct (dec32_digits_spec n Hn) as (Hin & He & Hl).
  change (pad_unsigned 9 0 _ no_flags) with (@nil ascii). cbn [app].
  destruct (dec32_digits n) as [|d0 ds] eqn:E; [discriminate Hl|].
  cbn [tl]. rewrite (first_digit_top d0).
  rewrite (emit_not_minus _ 10 _ digit_value_DTOCHAR Hin) by discriminate.
  rewrite (parse_emit 10 _ _ digit_value_DTOCHAR Hin), He. reflexivity.
Qed.

Lemma round_trip_zu16toa (n : Z) :
  0 <= n < 2 ^ 16 -> parse 10 (zu16toa n 0 no_flags) = Some n.
Proof.
  intros Hn. unfold zu16toa. cbv zeta.
  destruct (dec16_digits_spec n Hn) as (Hin & He & Hl).
  change (pad_unsigned 4 0 _ no_flags) with (@nil ascii). cbn [app].
  destruct (dec16_digits n) as [|d0 ds] eqn:E; [discriminate Hl|].
  cbn [tl]. rewrite (first_digit_top d0).
  rewrite (emit_not_minus _ 10 _ digit_value_DTOCHAR Hin) by discriminate.
  rewrite (parse_emit 10 _ _ digit_value_DTOCHAR Hin), He. reflexivity.
Qed.

Lemma round_trip_zx64toa (size : int_size_t) (n : Z) (upper : bool) :
  size <> ZS64 -> 0 <= n < 2 ^ 64 ->
  parse 16 (zx64toa size n 0 no_flags upper) = Some n.
Proof.
  intros Hs Hn. rewrite zx64toa_digits by exact Hs. cbv zeta.
  change (pad_unsigned 15 0 _ no_flags) with (@nil ascii). cbn [app].
  pose proof (in_radix_positional 16 n 0 16 ltac:(lia)) as Hin.
  assert (Hinv : forall d, 0 <= d < 16 ->
                   digit_value ((if upper then XTOCHAR else xTOCHAR) d) = Some d).
  { destruct upper; [apply digit_value_XTOCHAR|apply digit_value_xTOCHAR]. }
  rewrite (emit_not_minus _ 16 _ Hinv Hin) by discriminate.
  rewrite (parse_emit 16 _ _ Hinv Hin).
  rewrite eval_positional by lia.
  rewrite Z.div_1_r, Z.mod_small by (cbn; lia). reflexivity.
Qed.

Lemma round_trip_zo64toa (size : int_size_t) (n : Z) :
  size <> ZS64 -> 0 <= n < 2 ^ 64 ->
  parse 8 (zo64toa size n 0 no_flags) = Some n.
Proof.
  intros Hs Hn. rewrite zo64toa_digits by exact Hs. cbv zeta.
  change (pad_unsigned 21 0 _ no_flags) with (@nil ascii). cbn [app].
  pose proof (in_radix_positional 8 n 0 22 ltac:(lia)) as Hin.
  assert (Hinv : forall d, 0 <= d < 8 -> digit_value (XTOCHAR d) = Some d).
  { intros d Hd. apply digit_value_XTOCHAR. lia. }
  rewrite (emit_not_minus _ 8 _ Hinv Hin) by discriminate.
  rewrite (parse_emit 8 _ _ Hinv Hin).
  rewrite eval_positional by lia.
  rewrite Z.div_1_r, Z.mod_small by (cbn; lia). reflexivity.
Qed.

(** ** The float renderers *)

(** NaN is rendered as ["NAN"] whatever [isinf] answers, and no finite
    value reaches the test of [isinf]. *)
Lemma nan_is_NAN (P : platform) (M : libm) (width precision : Z)
    (flags : fmt_flags_t) :
  zftoal P M S754_nan width precision flags = Some (str "NAN") /\
  zftoaf P M S754_nan width precision flags = Some (str "NAN") /\
  zftoa P M S754_nan width precision flags = Some (str "NAN").
Proof.
  repeat split; try reflexivity.
  unfold zftoa; destruct (_ =? _); reflexivity.
Qed.

Lemma infinity_text (P : platform) (M : libm) (F : fformat) (k : Z) (s : bool)
    (width precision : Z) (flags : fmt_flags_t) :
  zftoa_gen P M F k (S754_infinity s) width precision flags
  = Some (if isinf M (S754_infinity s) =? -1 then str "-INF" else str "INF").
Proof.
  unfold zftoa_gen. cbn [isfinite isnan negb].
  destruct (_ =? -1); reflexivity.
Qed.

(** With an [isinf] that answers 1 on both infinities the test
    [isinf(f) == -1] never succeeds and negative infinity is rendered as
    ["INF"]. *)
Lemma boolean_isinf_loses_the_sign (P : platform) (width precision : Z)
    (flags : fmt_flags_t) :
  zftoal P bool_libm (S754_infinity true) width precision flags = Some (str "INF") /\
  zftoaf P bool_libm (S754_infinity true) width precision flags = Some (str "INF").
Proof. split; reflexivity. Qed.

(** C8.  Whatever the platform, the width, the precision and the flags,
    [zftoal], [zftoaf] and the [zftoa] macro render NaN as ["NAN"],
    negative infinity as ["-INF"] and positive infinity as ["INF"], with
    nothing added.  The source tells the infinities apart with
    [isinf(f) == -1], so this is for an [isinf] that answers -1 on
    negative infinity and something else on positive infinity. *)
Theorem special_values (P : platform) (M : libm) (width precision : Z)
    (flags : fmt_flags_t) :
  isinf M (S754_infinity true) = -1 ->
  isinf M (S754_infinity false) <> -1 ->
  zftoal P M S754_nan width precision flags = Some (str "NAN") /\
  zftoal P M (S754_infinity true) width precision flags = Some (str "-INF") /\
  zftoal P M (S754_infinity false) width precision flags = Some (str "INF") /\
  zftoaf P M S754_nan width precision flags = Some (str "NAN") /\
  zftoaf P M (S754_infinity true) width precision flags = Some (str "-INF") /\
  zftoaf P M (S754_infinity false) width precision flags = Some (str "INF") /\
  zftoa P M S754_nan width precision flags = Some (str "NAN") /\
  zftoa P M (S754_infinity true) width precision flags = Some (str "-INF") /\
  zftoa P M (S754_infinity false) width precision flags = Some (str "INF").
Proof.
  intros Hneg Hpos. apply Z.eqb_eq in Hneg. apply Z.eqb_neq in Hpos.
  assert (Hl : forall s, zftoal P M (S754_infinity s) width precision flags
                         = Some (if s then str "-INF" else str "INF")).
  { intros [|]; unfold zftoal; rewrite infinity_text;
      [rewrite Hneg|rewrite Hpos]; reflexivity. }
  assert (Hf : forall s, zftoaf P M (S754_infinity s) width precision flags
                         = Some (if s then str "-INF" else str "INF")).
  { intros [|]; unfold zftoaf; rewrite infinity_text;
      [rewrite Hneg|rewrite Hpos]; reflexivity. }
  assert (Ha : forall s, zftoa P M (S754_infinity s) width precision flags
                         = Some (if s then str "-INF" else str "INF")).
  { intros s. unfold zftoa. cbn [cvt].
    destruct (prec (double_fmt P) =? prec (float_fmt P)); [apply Hf|apply Hl]. }
  repeat split;
    first [apply nan_is_NAN | apply (Hl true) | apply (Hl false)
          | apply (Hf true) | apply (Hf false) | apply (Ha true) | apply (Ha false)].
Qed.

Lemma special_values_witness :
  zftoal lp64_x87 ref_libm S754_nan 8 3 (set_zeropad no_flags) = Some (str "NAN") /\
  zftoal lp64_x87 ref_libm (S754_infinity true) 8 3 (set_zeropad no_flags)
    = Some (str "-INF") /\
  zftoal lp64_x87 ref_libm (S754_infinity false) 8 3 (set_zeropad no_flags)
    = Some (str "INF") /\
  zftoaf lp64_x87 ref_libm S754_nan 8 3 (set_zeropad no_flags) = Some (str "NAN") /\
  zftoaf lp64_x87 ref_libm (S754_infinity true) 8 3 (set_zeropad no_flags)
    = Some (str "-INF") /\
  zftoaf lp64_x87 ref_libm (S754_infinity false) 8 3 (set_zeropad no_flags)
    = Some (str "INF") /\
  zftoa lp64_x87 ref_libm S754_nan 8 3 (set_zeropad no_flags) = Some (str "NAN") /\
  zftoa lp64_x87 ref_libm (S754_infinity true) 8 3 (set_zeropad no_flags)
    = Some (str "-INF") /\
  zftoa lp64_x87 ref_libm (S754_infinity false) 8 3 (set_zeropad no_flags)
    = Some (str "INF").
Proof.
  apply (special_values lp64_x87 ref_libm 8 3 (set_zeropad no_flags)).
  - reflexivity.
  - vm_compute. lia.
Defined.

(** C10, at a failing input.  With ["%10.9e"] the whole part takes 10
    characters, the point 1, the fraction 9 and the exponent suffix 5: 25
    characters and a NUL are written into the 24 bytes of [tmp].  This
    holds for the argument 0.0 with any [libm] and, with the reference
    one, for 1.5. *)
Theorem exponent_form_overflows_tmp (M : libm) :
  sizeof_tmp = 24%nat /\
  option_map show
    (zftoal lp64_x87 M (S754_zero false) 10 9 (set_exp exp_e no_flags))
    = Some "         0.000000000e+000"%string /\
  option_map (@List.length ascii)
    (zftoal lp64_x87 M (S754_zero false) 10 9 (set_exp exp_e no_flags))
    = Some 25%nat /\
  zvsnprintf lp64_x87 M (repeat "#"%char 32) 32 (str "%10.9e")
      [a_double (S754_zero false)]
    = Undefined ScratchOverflow /\
  option_map show
    (zftoal lp64_x87 ref_libm (ldouble_of lp64_x87 15 10) 10 9
       (set_zeropad (set_exp exp_e no_flags)))
    = Some "0000000001.500000000e+000"%string /\
  zvsnprintf lp64_x87 ref_libm (repeat "#"%char 32) 32 (str "%010.9e")
      [a_double (double_of lp64_x87 15 10)]
    = Undefined ScratchOverflow.
Proof. repeat split; vm_compute; reflexivity. Qed.

(** *** Round trip of the remaining decimal renderers *)

Lemma parse_minus (r : Z) (s : list ascii) :
  parse r ("-"%char :: s) = option_map Z.opp (parse_digits r s 0).
Proof. reflexivity. Qed.

Lemma round_trip_signed_digits (ds : list Z) (n : Z) :
  in_radix 10 ds -> ds <> [] -> eval 10 ds = Z.abs n ->
  parse 10 (addSign n no_flags ++ emit DTOCHAR ds (top ds)) = Some n.
Proof.
  intros Hin Hne He. unfold addSign. cbn [sign no_flags].
  destruct (Z.ltb_spec n 0) as [Hneg|Hpos].
  - cbn [str list_ascii_of_string app]. rewrite parse_minus.
    rewrite (parse_emit 10 _ _ digit_value_DTOCHAR Hin), He.
    cbn [option_map]. f_equal. lia.
  - cbn [app].
    rewrite (emit_not_minus _ 10 _ digit_value_DTOCHAR Hin Hne).
    rewrite (parse_emit 10 _ _ digit_value_DTOCHAR Hin), He. f_equal. lia.
Qed.

Lemma round_trip_zi32toa (n : Z) :
  - 2 ^ 31 <= n < 2 ^ 31 -> parse 10 (zi32toa n 0 no_flags) = Some n.
Proof.
  intros Hn. unfold zi32toa. cbv zeta.
  destruct (abs_wrap 32 n ltac:(lia) Hn) as (Ha & Hr).
  unfold u32. rewrite Ha.
  destruct (dec32_digits_spec (Z.abs n) Hr) as (Hin & He & Hl).
  change (pad_signed 9 0 ?fd n no_flags) with (addSign n no_flags).
  destruct (dec32_digits (Z.abs n)) as [|d0 ds] eqn:E; [discriminate Hl|].
  cbn [tl]. rewrite (first_digit_top d0).
  apply round_trip_signed_digits; [exact Hin|discriminate|exact He].
Qed.

Lemma round_trip_zi16toa (n : Z) :
  - 2 ^ 15 <= n < 2 ^ 15 -> parse 10 (zi16toa n 0 no_flags) = Some n.
Proof.
  intros Hn. unfold zi16toa. cbv zeta.
  destruct (abs_wrap 16 n ltac:(lia) Hn) as (Ha & Hr).
  unfold u16. rewrite Ha.
  destruct (dec16_digits_spec (Z.abs n) Hr) as (Hin & He & Hl).
  change (pad_signed 4 0 ?fd n no_flags) with (addSign n no_flags).
  destruct (dec16_digits (Z.abs n)) as [|d0 ds] eqn:E; [discriminate Hl|].
  cbn [tl]. rewrite (first_digit_top d0).
  apply round_trip_signed_digits; [exact Hin|discriminate|exact He].
Qed.

(** The text of the division loop reads back as the magnitude. *)
Lemma parse_dec64_text (n : Z) :
  0 < n < 2 ^ 64 ->
  let text := firstn (S (ndigits 10 n - 1)) (map DTOCHAR (rev (lsd 20 n))) in
  parse_digits 10 text 0 = Some n /\ parse 10 text = Some n.
Proof.
  intros Hn. cbv zeta.
  destruct (dec64_digits_spec n Hn) as (_ & Hl & Hpos).
  assert (Hn' : 0 < n < 10 ^ Z.of_nat 20).
  { change (10 ^ Z.of_nat 20) with 100000000000000000000.
    change (2 ^ 64) with 18446744073709551616 in Hn. lia. }
  destruct (lsd_spec 20 n Hn') as (Hin & He & _).
  rewrite firstn_all2 by (rewrite length_map, length_rev, Hl; lia).
  assert (Hp : parse_digits 10 (map DTOCHAR (rev (lsd 20 n))) 0 = Some n).
  { rewrite (parse_digits_map 10 DTOCHAR _ digit_value_DTOCHAR)
      by (apply in_radix_rev; exact Hin).
    rewrite fold_left_rev_eval, He. reflexivity. }
  split; [exact Hp|].
  rewrite <- Hp.
  assert (Hin' : in_radix 10 (rev (lsd 20 n))) by (apply in_radix_rev; exact Hin).
  destruct (rev (lsd 20 n)) as [|d l] eqn:E.
  - apply (f_equal (@List.length _)) in E. rewrite length_rev, Hl in E.
    cbn [List.length] in E. lia.
  - cbn [map parse]. inversion Hin' as [|? ? Hd _]; subst.
    destruct (Ascii.eqb_spec (DTOCHAR d) "-") as [Heq|Hneq]; [|reflexivity].
    pose proof (digit_value_DTOCHAR d Hd) as Hv. rewrite Heq in Hv.
    discriminate Hv.
Qed.

Lemma round_trip_zu64toa (n : Z) :
  0 <= n < 2 ^ 64 -> parse 10 (zu64toa n 0 no_flags) = Some n.
Proof.
  intros Hn. unfold zu64toa.
  destruct (Z.leb_spec n UINT32_MAX) as [Hle|Hgt].
  - apply round_trip_zu32toa. unfold UINT32_MAX in Hle. lia.
  - unfold UINT32_MAX in Hgt.
    destruct (dec64_digits_spec n ltac:(lia)) as (-> & _ & _).
    change (pad_unsigned 20 0 ?fd no_flags) with (@nil ascii). cbn [app].
    apply parse_dec64_text. lia.
Qed.

Lemma round_trip_zi64toa (n : Z) :
  - 2 ^ 63 <= n < 2 ^ 63 -> parse 10 (zi64toa n 0 no_flags) = Some n.
Proof.
  intros Hn. unfold zi64toa.
  destruct ((INT32_MIN <=? n) && (n <=? INT32_MAX)) eqn:E.
  - apply andb_prop in E as (E1 & E2).
    apply Z.leb_le in E1, E2. unfold INT32_MIN, INT32_MAX in *.
    apply round_trip_zi32toa. lia.
  - destruct (abs_wrap 64 n ltac:(lia) Hn) as (Ha & Hr).
    unfold u64. rewrite Ha.
    assert (Hnz : 0 < Z.abs n).
    { apply andb_false_iff in E. unfold INT32_MIN, INT32_MAX in E.
      destruct E as [E|E]; [apply Z.leb_gt in E|apply Z.leb_gt in E]; lia. }
    destruct (dec64_digits_spec (Z.abs n) ltac:(lia)) as (-> & _ & _).
    change (pad_signed 19 0 ?fd n no_flags) with (addSign n no_flags).
    destruct (parse_dec64_text (Z.abs n) ltac:(lia)) as (Hp & Hp').
    unfold addSign. cbn [sign no_flags].
    destruct (Z.ltb_spec n 0) as [Hneg|Hpos].
    + cbn [str list_ascii_of_string app]. rewrite parse_minus, Hp.
      cbn [option_map]. f_equal. lia.
    + cbn [app]. rewrite Hp'. f_equal. lia.
Qed.

(** Rendering with no width and no flags and reading back gives the
    value, for the signed and unsigned decimal renderers of the three
    sizes and for hexadecimal and octal at [ZS16] and [ZS32]. *)
Lemma round_trip (s : int_size_t) (n : Z) (upper : bool) :
  parse 10 (zutoa_at s n 0 no_flags) = Some (wrap (size_bits s) n) /\
  parse 10 (zitoa_at s n 0 no_flags) = Some (swrap (size_bits s) n) /\
  parse 16 (zx64toa ZS16 (u64 n) 0 no_flags upper) = Some (u64 n) /\
  parse 16 (zx64toa ZS32 (u64 n) 0 no_flags upper) = Some (u64 n) /\
  parse 8 (zo64toa ZS16 (u64 n) 0 no_flags) = Some (u64 n) /\
  parse 8 (zo64toa ZS32 (u64 n) 0 no_flags) = Some (u64 n).
Proof.
  split; [|split].
  - destruct s; cbn [zutoa_at size_bits].
    + apply round_trip_zu64toa. apply (wrap_range 64). lia.
    + apply round_trip_zu32toa. apply (wrap_range 32). lia.
    + apply round_trip_zu16toa. apply (wrap_range 16). lia.
  - destruct s; cbn [zitoa_at size_bits].
    + apply round_trip_zi64toa. apply (swrap_range 64). lia.
    + apply round_trip_zi32toa. apply (swrap_range 32). lia.
    + apply round_trip_zi16toa. apply (swrap_range 16). lia.
  - pose proof (u64_range n) as Hn.
    repeat split;
      first [apply round_trip_zx64toa; [discriminate|exact Hn]
            |apply round_trip_zo64toa; [discriminate|exact Hn]].
Qed.

(** ** The scratch buffer *)

(** Upper bounds on what the integer renderers write, for every size,
    value and width. *)
Lemma length_unsigned_block (cap : nat) (tochar : Z -> ascii) (ds : list Z)
    (w : nat) (flags : fmt_flags_t) :
  List.length ds = S cap ->
  let first_digit := first_nonzero (tl ds) 1 0 in
  (List.length (pad_unsigned cap (Z.of_nat w) first_digit flags
                ++ emit tochar ds first_digit) <= S cap)%nat.
Proof.
  intros Hl. cbv zeta. destruct ds as [|d0 ds]; [discriminate Hl|].
  cbn [tl]. rewrite (first_digit_top d0).
  pose proof (top_lt_length (d0 :: ds) ltac:(discriminate)) as Hlt.
  rewrite length_app, length_emit by exact Hlt.
  rewrite length_pad_unsigned. lia.
Qed.

Lemma length_zx64toa_le (size : int_size_t) (n : Z) (w : nat) (flags : fmt_flags_t)
    (upper : bool) :
  (List.length (zx64toa size n (Z.of_nat w) flags upper) <= 16)%nat.
Proof.
  unfold zx64toa. cbv zeta. apply length_unsigned_block.
  destruct (size_ge size ZS32), (size_ge size ZS64); reflexivity.
Qed.

Lemma length_zo64toa_le (size : int_size_t) (n : Z) (w : nat) (flags : fmt_flags_t) :
  (List.length (zo64toa size n (Z.of_nat w) flags) <= 22)%nat.
Proof.
  unfold zo64toa. cbv zeta. apply length_unsigned_block.
  destruct (size_ge size ZS32), (size_ge size ZS64); reflexivity.
Qed.

Lemma ndigits_fuel_le (fuel : nat) (r : Z) :
  forall n k, 1 < r -> 0 <= n < r ^ Z.of_nat k -> (0 < k)%nat ->
    (ndigits_fuel fuel r n <= k)%nat.
Proof.
  induction fuel as [|fuel IH]; intros n k Hr Hn Hk; cbn [ndigits_fuel]; [lia|].
  destruct (Z.ltb_spec n r) as [Hlt|Hge]; [lia|].
  destruct k as [|k]; [lia|].
  destruct k as [|k].
  { change (Z.of_nat 1) with 1 in Hn. rewrite Z.pow_1_r in Hn. lia. }
  apply le_n_S. apply IH; [exact Hr| |lia].
  rewrite Nat2Z.inj_succ, Z.pow_succ_r in Hn by lia.
  split; [apply Z.div_pos; lia|apply Z.div_lt_upper_bound; lia].
Qed.

Lemma length_zutoa_at_le (s : int_size_t) (n : Z) (w : nat) (flags : fmt_flags_t) :
  (List.length (zutoa_at s n (Z.of_nat w) flags) <= 21)%nat.
Proof.
  rewrite length_zutoa_at.
  pose proof (wrap_range (size_bits s) n ltac:(destruct s; cbn; lia)) as Hr.
  assert (Hd : (ndigits 10 (wrap (size_bits s) n) <= 20)%nat).
  { apply ndigits_fuel_le; [lia| |lia].
    change (10 ^ Z.of_nat 20) with 100000000000000000000.
    assert (2 ^ size_bits s <= 2 ^ 64)
      by (apply Z.pow_le_mono_r; destruct s; cbn; lia).
    change (2 ^ 64) with 18446744073709551616 in *. lia. }
  assert (Hc : (dec_capacity_unsigned s (wrap (size_bits s) n) <= 21)%nat)
    by (destruct s; cbn [dec_capacity_unsigned]; try destruct (_ <=? _); lia).
  lia.
Qed.

Lemma length_addSign (n : Z) (flags : fmt_flags_t) :
  (List.length (addSign n flags) <= 1)%nat.
Proof.
  unfold addSign. destruct (n <? 0); [cbn; lia|].
  destruct (sign flags); cbn; lia.
Qed.

Lemma length_zitoa_at_le (s : int_size_t) (n : Z) (w : nat) (flags : fmt_flags_t) :
  (List.length (zitoa_at s n (Z.of_nat w) flags) <= 21)%nat.
Proof.
  rewrite length_zitoa_at.
  pose proof (swrap_range (size_bits s) n ltac:(destruct s; cbn; lia)) as Hr.
  pose proof (length_addSign (swrap (size_bits s) n) flags) as Hs.
  assert (Hd : (ndigits 10 (Z.abs (swrap (size_bits s) n)) <= 19)%nat).
  { apply ndigits_fuel_le; [lia| |lia].
    change (10 ^ Z.of_nat 19) with 10000000000000000000.
    assert (2 ^ (size_bits s - 1) <= 2 ^ 63)
      by (apply Z.pow_le_mono_r; destruct s; cbn; lia).
    change (2 ^ 63) with 9223372036854775808 in *. lia. }
  assert (Hc : (dec_capacity_signed s (swrap (size_bits s) n) <= 20)%nat)
    by (destruct s; cbn [dec_capacity_signed]; try destruct (_ && _); lia).
  lia.
Qed.

(** The loop of [zi64toa] stores at most 19 characters in its [tmp[19]]
    and that of [zu64toa] at most 20 in its [tmp[20]]. *)
Lemma dec64_tmp_fits (n : Z) :
  (0 < n <= 2 ^ 63 -> (List.length (lsd 20 n) <= 19)%nat) /\
  (0 < n < 2 ^ 64 -> (List.length (lsd 20 n) <= 20)%nat).
Proof.
  split; intros Hn.
  - destruct (dec64_digits_spec n) as (_ & -> & _).
    { change (2 ^ 63) with 9223372036854775808 in Hn.
      change (2 ^ 64) with 18446744073709551616. lia. }
    apply ndigits_fuel_le; [lia| |lia].
    change (10 ^ Z.of_nat 19) with 10000000000000000000.
    change (2 ^ 63) with 9223372036854775808 in Hn. lia.
  - destruct (dec64_digits_spec n Hn) as (_ & -> & _).
    apply ndigits_fuel_le; [lia| |lia].
    change (10 ^ Z.of_nat 20) with 100000000000000000000.
    change (2 ^ 64) with 18446744073709551616 in Hn. lia.
Qed.

Lemma in_tmp_fits (text : list ascii) :
  (List.length text <= 23)%nat -> in_tmp text = Ok text.
Proof.
  intros H. unfold in_tmp.
  replace (S (List.length text) <=? sizeof_tmp)%nat with true; [reflexivity|].
  symmetry. apply Nat.leb_le. change sizeof_tmp with 24%nat. lia.
Qed.

Lemma uint_of_nonneg (P : platform) (v : Z) : 0 <= uint_of P v.
Proof.
  unfold uint_of. apply wrap_range.
  unfold int_bits. destruct (int_size P); cbn; lia.
Qed.

Lemma star_arg_nonneg (P : platform) (x : Z) (ap ap' : list arg) (w : Z) :
  0 <= x -> star_arg P x ap = Ok (w, ap') -> 0 <= w.
Proof.
  intros Hx. unfold star_arg. destruct (_ =? _).
  - destruct ap as [|[] ap0]; try discriminate.
    intros H. injection H as <- _. apply uint_of_nonneg.
  - intros H. injection H as <- _. exact Hx.
Qed.

Lemma star_arg_fault (P : platform) (x : Z) (ap : list arg) (f : fault) :
  star_arg P x ap = Undefined f -> f = BadArgument.
Proof.
  unfold star_arg. destruct (_ =? _); [|discriminate].
  destruct ap as [|[] ap0]; cbn [va_int]; intros H; try discriminate H;
    injection H as <-; reflexivity.
Qed.

(** The integer conversions always fit [tmp]. *)
Lemma render_integer_fits (P : platform) (spec : ascii) (length : length_t)
    (width : Z) (flags : fmt_flags_t) (ap : list arg) :
  0 <= width ->
  render_integer P spec length width flags ap <> Undefined ScratchOverflow.
Proof.
  intros Hw. rewrite <- (Z2Nat.id width Hw).
  set (w := Z.to_nat width).
  unfold render_integer.
  destruct length.
  - destruct ap as [|[v|v|v|v|v|v|v|v] ap']; try discriminate. cbn [va_int].
    rewrite in_tmp_fits; [discriminate|].
    unfold zitoa, zutoa, zxtoa, zXtoa, zotoa.
    repeat match goal with |- context [if ?b then _ else _] => destruct b end.
    + pose proof (length_zitoa_at_le (int_size P) (uint_of P v) w flags). lia.
    + pose proof (length_zutoa_at_le (int_size P) (uint_of P v) w flags). lia.
    + pose proof (length_zx64toa_le (int_size P) (u64 (uint_of P v)) w flags false). lia.
    + pose proof (length_zx64toa_le (int_size P) (u64 (uint_of P v)) w flags true). lia.
    + pose proof (length_zo64toa_le (int_size P) (u64 (uint_of P v)) w flags). lia.
  - destruct ap as [|[v|v|v|v|v|v|v|v] ap']; try discriminate. cbn [va_long].
    rewrite in_tmp_fits; [discriminate|].
    unfold zltoa, zultoa, zlxtoa, zlXtoa, zlotoa.
    set (val := wrap (long_bits P) v).
    repeat match goal with |- context [if ?b then _ else _] => destruct b end.
    + pose proof (length_zitoa_at_le (long_size P) val w flags). lia.
    + pose proof (length_zutoa_at_le (long_size P) val w flags). lia.
    + pose proof (length_zx64toa_le (long_size P) (u64 val) w flags false). lia.
    + pose proof (length_zx64toa_le (long_size P) (u64 val) w flags true). lia.
    + pose proof (length_zo64toa_le (long_size P) (u64 val) w flags). lia.
  - destruct ap as [|[v|v|v|v|v|v|v|v] ap']; try discriminate. cbn [va_llong].
    rewrite in_tmp_fits; [discriminate|].
    unfold zlltoa, zulltoa, zllxtoa, zllXtoa, zllotoa.
    repeat match goal with |- context [if ?b then _ else _] => destruct b end.
    + pose proof (length_zitoa_at_le ZS64 (u64 v) w flags). lia.
    + pose proof (length_zutoa_at_le ZS64 (u64 v) w flags). lia.
    + pose proof (length_zx64toa_le ZS64 (u64 (u64 v)) w flags false). lia.
    + pose proof (length_zx64toa_le ZS64 (u64 (u64 v)) w flags true). lia.
    + pose proof (length_zo64toa_le ZS64 (u64 (u64 v)) w flags). lia.
Qed.

(** Only a float conversion can overflow [tmp]. *)
Lemma only_floats_overflow_tmp (P : platform) (M : libm)
    (after_escape : list ascii) (k : nat) (ap : list arg) :
  convert P M after_escape k ap = Undefined ScratchOverflow ->
  is_letter (nth k after_escape NUL) "fFeEgGaA" = true.
Proof.
  unfold convert.
  destruct (getFlags _) as [flags e1].
  destruct (getWidth P e1) as [w e2].
  destruct (star_arg P (uint_of P w) ap) as [[width ap1]| |] eqn:H1;
    try discriminate.
  2:{ apply star_arg_fault in H1. subst. discriminate. }
  apply star_arg_nonneg in H1; [|apply uint_of_nonneg].
  destruct (getPrecision P e2) as [p e3].
  destruct (star_arg P (uint_of P p) ap1) as [[precision ap2]| |] eqn:H2;
    try discriminate.
  2:{ apply star_arg_fault in H2. subst. discriminate. }
  unfold render.
  destruct (Ascii.eqb _ "%"); [discriminate|].
  destruct (is_letter _ "diuxXo").
  { intros H. exfalso. exact (render_integer_fits _ _ _ _ _ _ H1 H). }
  destruct (is_letter _ "fFeEgGaA"); [reflexivity|].
  destruct (Ascii.eqb _ "p").
  { destruct ap2 as [|[v|v|v|v|v|v|v|v] ap3]; try discriminate. cbn [va_ptr].
    rewrite in_tmp_fits; [discriminate|].
    rewrite <- (Z2Nat.id width H1). unfold zllxtoa.
    pose proof (length_zx64toa_le ZS64 (u64 (u64 v)) (Z.to_nat width) flags false).
    lia. }
  destruct (Ascii.eqb _ "s").
  { destruct ap2 as [|[]]; discriminate. }
  destruct ap2 as [|[] ap3]; discriminate.
Qed.

(** Lower bounds on the pieces of an exponent-form rendering. *)
Lemma length_zltoa_ge (P : platform) (n : Z) (w : nat) (flags : fmt_flags_t) :
  (10 <= w)%nat -> (10 <= List.length (zltoa P n (Z.of_nat w) flags))%nat.
Proof.
  intros Hw. unfold zltoa.
  rewrite length_zitoa_at.
  assert (Hc : (10 <= dec_capacity_signed (long_size P)
                        (swrap (size_bits (long_size P)) n))%nat).
  { unfold long_size. destruct (long_is_64 P); cbn [dec_capacity_signed];
      try destruct (_ && _); lia. }
  lia.
Qed.

Lemma length_zultoa_ge (P : platform) (n : Z) (flags : fmt_flags_t) :
  (9 <= List.length (zultoa P n 9 flags))%nat.
Proof.
  unfold zultoa.
  change 9 with (Z.of_nat 9). rewrite length_zutoa_at.
  assert (Hc : (10 <= dec_capacity_unsigned (long_size P)
                        (wrap (size_bits (long_size P)) n))%nat).
  { unfold long_size. destruct (long_is_64 P); cbn [dec_capacity_unsigned];
      try destruct (_ <=? _); lia. }
  lia.
Qed.

Lemma length_exponent_ge (P : platform) (n : Z) :
  (4 <= List.length
          (zitoa P n 3 (set_zeropad (set_sign always_sign no_flags))))%nat.
Proof.
  unfold zitoa.
  change 3 with (Z.of_nat 3). rewrite length_zitoa_at.
  assert (Hs : List.length (addSign (swrap (size_bits (int_size P)) n)
                              (set_zeropad (set_sign always_sign no_flags))) = 1%nat).
  { unfold addSign. destruct (_ <? 0); reflexivity. }
  assert (Hc : (5 <= dec_capacity_signed (int_size P)
                       (swrap (size_bits (int_size P)) n))%nat).
  { destruct (int_size P); cbn [dec_capacity_signed];
      try destruct (_ && _); lia. }
  lia.
Qed.

(** Every exponent-form conversion of a finite value with width at least
    10 and precision at least 9 writes 25 characters or more: it never
    fits the 24 bytes of [tmp]. *)
Lemma wide_exponent_form_never_fits (P : platform) (M : libm) (f : float)
    (w p : nat) (flags : fmt_flags_t) (text : list ascii) :
  (10 <= w)%nat -> (9 <= p)%nat ->
  exp_is_set flags = true -> isfinite f = true ->
  zftoal P M f (Z.of_nat w) (Z.of_nat p) flags = Some text ->
  (25 <= List.length text)%nat.
Proof.
  intros Hw Hp Hexp Hfin. unfold zftoal, zftoa_gen.
  rewrite Hfin, Hexp. cbn [negb andb].
  destruct (normalize _ _ _ _ _) as [[exponent f']|]; [|discriminate].
  unfold rounding_consts.
  replace ((0 <=? Z.of_nat p) && (Z.of_nat p <=? 8)) with false
    by (symmetry; apply andb_false_iff; right; apply Z.leb_gt; lia).
  cbv beta iota zeta.
  destruct (to_sint 32 _) as [whole|]; [|discriminate].
  match goal with
  | |- context [match ?e with Some _ => _ | None => None end] =>
      destruct e as [[[rounded' exponent'] whole']|]; [|discriminate]
  end.
  replace (4 <? Z.of_nat w) with true by (symmetry; apply Z.ltb_lt; lia).
  change (9 =? 0) with false. change (4 <? 9) with true.
  cbn [negb orb]. rewrite !orb_true_r.
  destruct (to_uint (long_bits P) _) as [v|].
  2:{ destruct ((whole' =? 0) && signbit f'); discriminate. }
  assert (He : exp flags = exp_e \/ exp flags = exp_E).
  { unfold exp_is_set in Hexp. destruct (exp flags); [discriminate|auto|auto]. }
  pose proof (length_zultoa_ge P v (set_zeropad no_flags)).
  pose proof (length_exponent_ge P exponent').
  pose proof (length_zltoa_ge P whole' w (set_sign auto_sign flags) Hw).
  pose proof (length_zltoa_ge P whole' w flags Hw).
  destruct ((whole' =? 0) && signbit f');
    cbn [exp set_sign]; destruct He as [He | He]; rewrite He;
    intros Heq; injection Heq as <-;
    repeat first [rewrite length_app | progress cbn [List.length]]; lia.
Qed.

(** * Further properties

    What the renderers write, how the scanner reads a directive and what
    a call leaves in the destination, beyond the statements above. *)

(** ** The characters a renderer writes *)

Lemma made_of_app (a : string) (x y : list ascii) :
  made_of a (x ++ y) = made_of a x && made_of a y.
Proof. apply forallb_app. Qed.

Lemma made_of_repeat (a : string) (c : ascii) (k : nat) :
  mem_ascii c (str a) = true -> made_of a (repeat c k) = true.
Proof.
  intros H. induction k as [|k IH]; [reflexivity|].
  cbn [repeat made_of forallb]. rewrite H. exact IH.
Qed.

Lemma made_of_firstn (a : string) (k : nat) (x : list ascii) :
  made_of a x = true -> made_of a (firstn k x) = true.
Proof.
  revert k; induction x as [|c x IH]; intros [|k] H; try reflexivity.
  cbn [made_of forallb firstn] in *. apply andb_prop in H as (-> & H).
  apply IH. exact H.
Qed.

Lemma made_of_rev (a : string) (x : list ascii) :
  made_of a x = true -> made_of a (rev x) = true.
Proof.
  induction x as [|c x IH]; intros H; [reflexivity|].
  cbn [made_of forallb rev] in *. apply andb_prop in H as (Hc & H).
  fold (made_of a (rev x ++ [c])). rewrite made_of_app.
  rewrite (IH H). cbn [made_of forallb]. rewrite Hc. reflexivity.
Qed.

Lemma made_of_map (a : string) (tochar : Z -> ascii) (ds : list Z) :
  Forall (fun d => mem_ascii (tochar d) (str a) = true) ds ->
  made_of a (map tochar ds) = true.
Proof.
  induction 1 as [|d ds Hd _ IH]; [reflexivity|].
  cbn [map made_of forallb]. rewrite Hd. exact IH.
Qed.

Lemma made_of_emit (a : string) (tochar : Z -> ascii) (ds : list Z) (fd : nat) :
  Forall (fun d => mem_ascii (tochar d) (str a) = true) ds ->
  made_of a (emit tochar ds fd) = true.
Proof.
  intros H. unfold emit. apply made_of_map.
  apply Forall_rev.
  rewrite <- (firstn_skipn (S fd) ds) in H. apply Forall_app in H. apply H.
Qed.

Lemma made_of_pad_unsigned (a : string) (cap : nat) (width : Z) (fd : nat)
    (flags : fmt_flags_t) :
  mem_ascii "0" (str a) = true -> mem_ascii " " (str a) = true ->
  made_of a (pad_unsigned cap width fd flags) = true.
Proof.
  intros H0 Hs. unfold pad_unsigned, pad.
  destruct (width =? 0); [reflexivity|].
  destruct (zeropad flags); apply made_of_repeat; assumption.
Qed.

Lemma made_of_addSign (n : Z) (flags : fmt_flags_t) :
  made_of "0123456789 +-" (addSign n flags) = true.
Proof.
  unfold addSign. destruct (n <? 0); [reflexivity|].
  destruct (sign flags); reflexivity.
Qed.

Lemma made_of_pad_signed (cap : nat) (width : Z) (fd : nat) (n : Z)
    (flags : fmt_flags_t) :
  made_of "0123456789 +-" (pad_signed cap width fd n flags) = true.
Proof.
  unfold pad_signed, pad.
  destruct (width =? 0); [apply made_of_addSign|].
  destruct (zeropad flags); rewrite made_of_app, made_of_addSign, made_of_repeat;
    reflexivity.
Qed.

Lemma small_cases (d k : Z) (Q : Z -> Prop) :
  0 <= d < k -> (forall i : nat, (i < Z.to_nat k)%nat -> Q (Z.of_nat i)) -> Q d.
Proof.
  intros Hd H. rewrite <- (Z2Nat.id d) by lia. apply H. lia.
Qed.

Ltac by_digit d k H :=
  pattern d; apply (small_cases d k); [exact H|]; intros i Hi;
  repeat (destruct i as [|i]; [reflexivity|]); cbn in Hi; lia.

Lemma decimal_char (a : string) (d : Z) :
  made_of a (str "0123456789") = true ->
  0 <= d < 10 -> mem_ascii (DTOCHAR d) (str a) = true.
Proof.
  intros Ha Hd. cbn [made_of str list_ascii_of_string forallb] in Ha.
  repeat (apply andb_prop in Ha as (? & Ha)).
  pattern d. apply (small_cases d 10); [exact Hd|]. intros i Hi.
  do 10 (destruct i as [|i]; [assumption|]). cbn in Hi. lia.
Qed.

Lemma hex_char (upper : bool) (d : Z) :
  0 <= d < 16 ->
  mem_ascii ((if upper then XTOCHAR else xTOCHAR) d)
    (str (if upper then "0123456789ABCDEF " else "0123456789abcdef ")) = true.
Proof. intros Hd. destruct upper; by_digit d 16 Hd. Qed.

Lemma octal_char (d : Z) :
  0 <= d < 8 -> mem_ascii (XTOCHAR d) (str "01234567 ") = true.
Proof. intros Hd. by_digit d 8 Hd. Qed.

Lemma land_ones_range (x : Z) (k : Z) :
  0 < k -> 0 <= Z.land x (2 ^ k - 1) < 2 ^ k.
Proof.
  intros Hk. replace (2 ^ k - 1) with (Z.ones k) by (rewrite Z.ones_equiv; lia).
  rewrite Z.land_ones by lia. apply Z.mod_pos_bound. lia.
Qed.

Lemma in_radix_decimal_chars (a : string) (ds : list Z) :
  made_of a (str "0123456789") = true ->
  in_radix 10 ds -> Forall (fun d => mem_ascii (DTOCHAR d) (str a) = true) ds.
Proof.
  intros Ha H. eapply Forall_impl; [|exact H].
  intros d Hd. apply decimal_char; assumption.
Qed.

Lemma made_of_zx64toa (size : int_size_t) (n width : Z) (flags : fmt_flags_t)
    (upper : bool) :
  made_of (if upper then "0123456789ABCDEF " else "0123456789abcdef ")
    (zx64toa size n width flags upper) = true.
Proof.
  unfold zx64toa. cbv zeta. rewrite made_of_app.
  rewrite made_of_pad_unsigned by (destruct upper; reflexivity).
  apply made_of_emit.
  assert (Hd : forall i, mem_ascii ((if upper then XTOCHAR else xTOCHAR)
                                      (Z.land (Z.shiftr n (4 * i)) 15))
                 (str (if upper then "0123456789ABCDEF " else "0123456789abcdef "))
               = true).
  { intros i. apply hex_char. apply (land_ones_range _ 4). lia. }
  assert (Hz : mem_ascii ((if upper then XTOCHAR else xTOCHAR) 0)
                 (str (if upper then "0123456789ABCDEF " else "0123456789abcdef "))
               = true) by (destruct upper; reflexivity).
  destruct (size_ge size ZS32), (size_ge size ZS64); cbn [app zeros repeat];
    repeat (apply Forall_cons; [first [apply Hd | exact Hz]|]); apply Forall_nil.
Qed.

Lemma made_of_zo64toa (size : int_size_t) (n width : Z) (flags : fmt_flags_t) :
  made_of "01234567 " (zo64toa size n width flags) = true.
Proof.
  unfold zo64toa. cbv zeta. rewrite made_of_app.
  rewrite made_of_pad_unsigned by reflexivity.
  apply made_of_emit.
  assert (Hd : forall i, mem_ascii (XTOCHAR (Z.land (Z.shiftr n (3 * i)) 7))
                           (str "01234567 ") = true).
  { intros i. apply octal_char. apply (land_ones_range _ 3). lia. }
  assert (Hz : mem_ascii (XTOCHAR 0) (str "01234567 ") = true) by reflexivity.
  destruct (size_ge size ZS32), (size_ge size ZS64); cbn [app zeros repeat];
    repeat (apply Forall_cons; [first [apply Hd | exact Hz]|]); apply Forall_nil.
Qed.

Lemma made_of_dec64_text (a : string) (n : Z) (k : nat) :
  made_of a (str "0123456789") = true ->
  0 < n < 2 ^ 64 ->
  made_of a (firstn k (map DTOCHAR (rev (lsd 20 n)))) = true.
Proof.
  intros Ha Hn. apply made_of_firstn, made_of_map, Forall_rev.
  apply in_radix_decimal_chars; [exact Ha|].
  apply lsd_spec. change (10 ^ Z.of_nat 20) with 100000000000000000000.
  change (2 ^ 64) with 18446744073709551616 in Hn. lia.
Qed.

Lemma made_of_zu32toa (n width : Z) (flags : fmt_flags_t) :
  0 <= n < 2 ^ 32 -> made_of "0123456789 " (zu32toa n width flags) = true.
Proof.
  intros Hn. unfold zu32toa. cbv zeta. rewrite made_of_app.
  rewrite made_of_pad_unsigned by reflexivity.
  apply made_of_emit, in_radix_decimal_chars; [reflexivity|].
  apply dec32_digits_spec. exact Hn.
Qed.

Lemma made_of_zu16toa (n width : Z) (flags : fmt_flags_t) :
  0 <= n < 2 ^ 16 -> made_of "0123456789 " (zu16toa n width flags) = true.
Proof.
  intros Hn. unfold zu16toa. cbv zeta. rewrite made_of_app.
  rewrite made_of_pad_unsigned by reflexivity.
  apply made_of_emit, in_radix_decimal_chars; [reflexivity|].
  apply dec16_digits_spec. exact Hn.
Qed.

Lemma made_of_zu64toa (n width : Z) (flags : fmt_flags_t) :
  0 <= n < 2 ^ 64 -> made_of "0123456789 " (zu64toa n width flags) = true.
Proof.
  intros Hn. unfold zu64toa.
  destruct (Z.leb_spec n UINT32_MAX) as [Hle|Hgt].
  - apply made_of_zu32toa. unfold UINT32_MAX in Hle. lia.
  - unfold UINT32_MAX in Hgt.
    destruct (dec64_digits_spec n ltac:(lia)) as (-> & _ & _).
    rewrite made_of_app, made_of_pad_unsigned by reflexivity.
    apply made_of_dec64_text; [reflexivity|lia].
Qed.

Lemma made_of_zi32toa (n width : Z) (flags : fmt_flags_t) :
  - 2 ^ 31 <= n < 2 ^ 31 -> made_of "0123456789 +-" (zi32toa n width flags) = true.
Proof.
  intros Hn. unfold zi32toa. cbv zeta.
  destruct (abs_wrap 32 n ltac:(lia) Hn) as (Ha & Hr).
  unfold u32. rewrite Ha, made_of_app, made_of_pad_signed.
  apply made_of_emit, in_radix_decimal_chars; [reflexivity|].
  apply dec32_digits_spec. exact Hr.
Qed.

Lemma made_of_zi16toa (n width : Z) (flags : fmt_flags_t) :
  - 2 ^ 15 <= n < 2 ^ 15 -> made_of "0123456789 +-" (zi16toa n width flags) = true.
Proof.
  intros Hn. unfold zi16toa. cbv zeta.
  destruct (abs_wrap 16 n ltac:(lia) Hn) as (Ha & Hr).
  unfold u16. rewrite Ha, made_of_app, made_of_pad_signed.
  apply made_of_emit, in_radix_decimal_chars; [reflexivity|].
  apply dec16_digits_spec. exact Hr.
Qed.

Lemma made_of_zi64toa (n width : Z) (flags : fmt_flags_t) :
  - 2 ^ 63 <= n < 2 ^ 63 -> made_of "0123456789 +-" (zi64toa n width flags) = true.
Proof.
  intros Hn. unfold zi64toa.
  destruct ((INT32_MIN <=? n) && (n <=? INT32_MAX)) eqn:E.
  - apply andb_prop in E as (E1 & E2). apply Z.leb_le in E1, E2.
    unfold INT32_MIN, INT32_MAX in *. apply made_of_zi32toa. lia.
  - destruct (abs_wrap 64 n ltac:(lia) Hn) as (Ha & Hr).
    unfold u64. rewrite Ha.
    assert (Hnz : 0 < Z.abs n).
    { apply andb_false_iff in E. unfold INT32_MIN, INT32_MAX in E.
      destruct E as [E|E]; apply Z.leb_gt in E; lia. }
    destruct (dec64_digits_spec (Z.abs n) ltac:(lia)) as (-> & _ & _).
    rewrite made_of_app, made_of_pad_signed.
    apply made_of_dec64_text; [reflexivity|lia].
Qed.

Lemma made_of_zutoa_at (s : int_size_t) (n width : Z) (flags : fmt_flags_t) :
  made_of "0123456789 " (zutoa_at s n width flags) = true.
Proof.
  destruct s; cbn [zutoa_at].
  - apply made_of_zu64toa. apply (wrap_range 64). lia.
  - apply made_of_zu32toa. apply (wrap_range 32). lia.
  - apply made_of_zu16toa. apply (wrap_range 16). lia.
Qed.

Lemma made_of_zitoa_at (s : int_size_t) (n width : Z) (flags : fmt_flags_t) :
  made_of "0123456789 +-" (zitoa_at s n width flags) = true.
Proof.
  destruct s; cbn [zitoa_at].
  - apply made_of_zi64toa. apply (swrap_range 64). lia.
  - apply made_of_zi32toa. apply (swrap_range 32). lia.
  - apply made_of_zi16toa. apply (swrap_range 16). lia.
Qed.

(** A text without NUL in its alphabet is a C string as it stands. *)
Lemma made_of_no_nul (a : string) (text : list ascii) :
  mem_ascii NUL (str a) = false -> made_of a text = true -> no_nul text.
Proof.
  intros Ha H. unfold no_nul. induction text as [|c text IH]; [reflexivity|].
  cbn [made_of forallb] in H. apply andb_prop in H as (Hc & H).
  cbn [strlen List.length].
  destruct (is_nul c) eqn:E.
  - apply Ascii.eqb_eq in E. subst c. rewrite Ha in Hc. discriminate.
  - rewrite (IH H). reflexivity.
Qed.

(** X1.  The integer renderers write digits, padding and a sign and nothing
    else, whatever the value, the width and the flags: the unsigned
    decimal renderers decimal digits and blanks, the signed ones also
    ['+'] and ['-'], [zx64toa] hexadecimal digits of the case asked for
    and blanks, [zo64toa] octal digits and blanks.  In particular no
    rendering contains a NUL, so that [strlen(tok)] in the scanner is the
    length of the whole rendering. *)
Theorem rendered_characters (s size : int_size_t) (n width : Z)
    (flags : fmt_flags_t) (upper : bool) :
  made_of "0123456789 " (zutoa_at s n width flags) = true /\
  made_of "0123456789 +-" (zitoa_at s n width flags) = true /\
  made_of (if upper then "0123456789ABCDEF " else "0123456789abcdef ")
    (zx64toa size n width flags upper) = true /\
  made_of "01234567 " (zo64toa size n width flags) = true.
Proof.
  repeat split.
  - apply made_of_zutoa_at.
  - apply made_of_zitoa_at.
  - apply made_of_zx64toa.
  - apply made_of_zo64toa.
Qed.

(** ** The sub-specification parser on well-formed input *)

Lemma strpbrk_none (s accept : list ascii) :
  forallb (fun c => negb (mem_ascii c accept)) s = true -> strpbrk s accept = None.
Proof.
  induction s as [|c s IH]; intros H; [reflexivity|].
  cbn [forallb] in H. apply andb_prop in H as (Hc & H).
  cbn [strpbrk]. destruct (is_nul c); [reflexivity|].
  apply negb_true_iff in Hc. rewrite Hc, (IH H). reflexivity.
Qed.

Lemma strchr_none (s : list ascii) (c : ascii) :
  forallb (fun x => negb (Ascii.eqb x c)) s = true -> strchr s c = None.
Proof.
  induction s as [|x s IH]; intros H; [reflexivity|].
  cbn [forallb] in H. apply andb_prop in H as (Hx & H).
  cbn [strchr]. destruct (is_nul x); [reflexivity|].
  apply negb_true_iff in Hx. rewrite Hx, (IH H). reflexivity.
Qed.

Lemma forallb_weaken (f g : ascii -> bool) (s : list ascii) :
  (forall c, f c = true -> g c = true) -> forallb f s = true -> forallb g s = true.
Proof.
  intros Hfg. induction s as [|c s IH]; [reflexivity|].
  cbn [forallb]. intros H. apply andb_prop in H as (Hc & H).
  rewrite (Hfg c Hc), (IH H). reflexivity.
Qed.

(** A modifier character occurs in none of the sets the parser searches
    for. *)
Lemma modifier_char_not_in (c : ascii) (accept : string) :
  made_of "0123456789.*+-# " (str accept) = true ->
  modifier_char c = true -> negb (mem_ascii c (str accept)) = true.
Proof.
  intros Ha Hc. unfold modifier_char in Hc.
  apply andb_prop in Hc as (Hc & _). apply andb_prop in Hc as (Hc & _).
  apply negb_true_iff in Hc. apply negb_true_iff.
  unfold made_of in Ha. induction (str accept) as [|x l IH]; [reflexivity|].
  cbn [forallb] in Ha. apply andb_prop in Ha as (Hx & Ha).
  cbn [mem_ascii existsb]. fold (mem_ascii c l). rewrite (IH Ha), orb_false_r.
  destruct (Ascii.eqb_spec c x) as [->|]; [|reflexivity].
  rewrite Hx in Hc. discriminate.
Qed.

Lemma modifier_only_strpbrk (lm : list ascii) (accept : string) :
  made_of "0123456789.*+-# " (str accept) = true ->
  modifier_only lm = true -> strpbrk lm (str accept) = None.
Proof.
  intros Ha H. apply strpbrk_none. revert H. apply forallb_weaken.
  intros c. apply modifier_char_not_in. exact Ha.
Qed.

Lemma modifier_only_no_nul (lm : list ascii) : modifier_only lm = true -> no_nul lm.
Proof.
  unfold no_nul. induction lm as [|c lm IH]; intros H; [reflexivity|].
  cbn [modifier_only forallb] in H. apply andb_prop in H as (Hc & H).
  unfold modifier_char in Hc. apply andb_prop in Hc as (_ & Hc).
  apply negb_true_iff in Hc. cbn [strlen List.length]. rewrite Hc, (IH H).
  reflexivity.
Qed.

Lemma getFlags_loop_none (s : list ascii) (f : fmt_flags_t) :
  strpbrk s (str "0-+ #") = None -> getFlags_loop s f = (f, O).
Proof. intros H. destruct s; [reflexivity|]. cbn [getFlags_loop]. rewrite H. reflexivity. Qed.

Lemma getFlags_modifier (lm : list ascii) :
  modifier_only lm = true -> getFlags lm = (no_flags, lm).
Proof.
  intros H. unfold getFlags.
  rewrite (modifier_only_strpbrk lm ".123456789" eq_refl H).
  rewrite getFlags_loop_none by exact (modifier_only_strpbrk lm "0-+ #" eq_refl H).
  reflexivity.
Qed.

Lemma swrap_small (bits v : Z) :
  0 < bits -> 0 <= v < 2 ^ (bits - 1) -> swrap bits v = v.
Proof.
  intros Hb Hv. unfold swrap.
  assert (2 ^ bits = 2 * 2 ^ (bits - 1)).
  { rewrite <- Z.pow_succ_r by lia. f_equal. lia. }
  rewrite wrap_small by lia.
  destruct (Z.ltb_spec v (2 ^ (bits - 1))); [reflexivity|lia].
Qed.

Lemma int_bits_cases (P : platform) : int_bits P = 16 \/ int_bits P = 32 \/ int_bits P = 64.
Proof. unfold int_bits. destruct (int_size P); cbn; auto. Qed.

Lemma long_bits_cases (P : platform) : long_bits P = 32 \/ long_bits P = 64.
Proof. unfold long_bits, long_size. destruct (long_is_64 P); cbn; auto. Qed.

Lemma pow2_int_bits (P : platform) : 32768 <= 2 ^ (int_bits P - 1).
Proof.
  destruct (int_bits_cases P) as [-> | [-> | ->]]; cbn; lia.
Qed.

Lemma pow2_long_bits (P : platform) : 2147483648 <= 2 ^ (long_bits P - 1).
Proof.
  destruct (long_bits_cases P) as [-> | ->]; cbn; lia.
Qed.

Lemma int_swrap_small (P : platform) (v : Z) :
  0 <= v < 32768 -> swrap (int_bits P) v = v.
Proof.
  intros Hv. pose proof (pow2_int_bits P).
  apply swrap_small; [destruct (int_bits_cases P) as [-> | [-> | ->]]; lia|lia].
Qed.

Lemma uint_of_small (P : platform) (v : Z) : 0 <= v < 65536 -> uint_of P v = v.
Proof.
  intros Hv. unfold uint_of. apply wrap_small.
  destruct (int_bits_cases P) as [-> | [-> | ->]]; cbn; lia.
Qed.

Lemma uint_of_neg (P : platform) (v : Z) :
  0 < v <= 65536 -> uint_of P (- v) = 2 ^ int_bits P - v.
Proof.
  intros Hv. unfold uint_of, wrap.
  assert (65536 <= 2 ^ int_bits P)
    by (destruct (int_bits_cases P) as [-> | [-> | ->]]; cbn; lia).
  symmetry. apply (Z.mod_unique_pos _ _ (-1)); lia.
Qed.

(** [if (x == ARG_SPECIFIED)] fails for a small [x] and for
    [PRECISION_UNSPECIFIED]. *)
Lemma star_arg_plain (P : platform) (x : Z) (ap : list arg) :
  0 <= x < 65534 \/ x = uint_of P PRECISION_UNSPECIFIED ->
  star_arg P x ap = Ok (x, ap).
Proof.
  intros Hx. unfold star_arg, ARG_SPECIFIED.
  replace (x =? uint_of P (-2)) with false; [reflexivity|].
  symmetry. apply Z.eqb_neq.
  assert (65536 <= 2 ^ int_bits P)
    by (destruct (int_bits_cases P) as [-> | [-> | ->]]; cbn; lia).
  pose proof (uint_of_neg P 2 ltac:(lia)) as H2.
  pose proof (uint_of_neg P 1 ltac:(lia)) as H1.
  cbn [Z.opp] in H1, H2. rewrite H2.
  destruct Hx as [Hx | ->]; [lia|].
  unfold PRECISION_UNSPECIFIED. rewrite H1. lia.
Qed.

Lemma strtol_no_number (bits : Z) (s : list ascii) :
  match s with
  | [] => True
  | c :: _ => isspace c = false /\ isdigit c = false
              /\ Ascii.eqb c "-" = false /\ Ascii.eqb c "+" = false
  end ->
  strtol bits s = (0, s).
Proof.
  destruct s as [|c s]; [reflexivity|].
  intros (Hs & Hd & Hm & Hp). unfold strtol. cbn [skip_spaces].
  rewrite Hs, Hm, Hp, Hd. reflexivity.
Qed.

Lemma modifier_char_plain (c : ascii) :
  modifier_char c = true ->
  isspace c = false /\ isdigit c = false /\ Ascii.eqb c "-" = false
  /\ Ascii.eqb c "+" = false /\ Ascii.eqb c "*" = false /\ Ascii.eqb c "." = false.
Proof.
  unfold modifier_char. intros H.
  apply andb_prop in H as (H & _). apply andb_prop in H as (H & Hs).
  apply negb_true_iff in H, Hs.
  cbn [mem_ascii str list_ascii_of_string existsb] in H.
  repeat (apply orb_false_elim in H as (? & H)).
  repeat split; try assumption.
  unfold isdigit.
  destruct c as [[] [] [] [] [] [] [] []]; try reflexivity; discriminate.
Qed.

Lemma getWidth_modifier (P : platform) (lm : list ascii) :
  modifier_only lm = true -> getWidth P lm = (0, lm).
Proof.
  intros H. unfold getWidth.
  assert (Hz : swrap (int_bits P) 0 = 0) by (apply int_swrap_small; lia).
  destruct lm as [|c lm]; [cbn; rewrite Hz; reflexivity|].
  cbn [modifier_only forallb] in H. apply andb_prop in H as (Hc & _).
  destruct (modifier_char_plain c Hc) as (Hs & Hd & Hm & Hp & Hst & _).
  rewrite Hst, strtol_no_number by auto. rewrite Hz. reflexivity.
Qed.

Lemma getPrecision_modifier (P : platform) (lm : list ascii) :
  modifier_only lm = true -> getPrecision P lm = (PRECISION_UNSPECIFIED, lm).
Proof.
  intros H. unfold getPrecision.
  rewrite (strchr_none lm "."); [reflexivity|].
  revert H. apply forallb_weaken. intros c Hc.
  destruct (modifier_char_plain c Hc) as (_ & _ & _ & _ & _ & ->). reflexivity.
Qed.

(** A directive made of length modifiers and a conversion letter. *)
Lemma convert_modifier (P : platform) (M : libm) (lm rest : list ascii)
    (conv : ascii) (ap : list arg) :
  modifier_only lm = true -> (List.length lm <= 30)%nat ->
  convert P M (lm ++ conv :: rest) (List.length lm) ap
  = render P M conv (getLength P lm) 0 (uint_of P PRECISION_UNSPECIFIED) no_flags ap.
Proof.
  intros H Hlen. rewrite convert_app by exact Hlen.
  rewrite (getFlags_modifier lm H), (getWidth_modifier P lm H).
  rewrite (uint_of_small P 0) by lia.
  rewrite star_arg_plain by (left; lia).
  rewrite (getPrecision_modifier P lm H).
  rewrite star_arg_plain by (right; reflexivity).
  reflexivity.
Qed.

(** One step of [formatted_from] over a well-formed directive. *)
Lemma formatted_from_directive (P : platform) (M : libm) (fuel : nat)
    (lit sub rest : list ascii) (conv : ascii) (ap : list arg) :
  no_nul lit -> strchr lit "%" = None ->
  no_nul sub -> strpbrk sub conversion_letters = None ->
  mem_ascii conv conversion_letters = true ->
  formatted_from P M (S fuel) (lit ++ "%"%char :: sub ++ conv :: rest) ap
  = ('(tok, ap') <~ convert P M (sub ++ conv :: rest) (List.length sub) ap ;;
     r <~ formatted_from P M fuel rest ap' ;;
     Ok (lit ++ firstn (strlen tok) tok ++ r)).
Proof.
  intros Hl Hp Hn Hs Hc. cbn [formatted_from].
  rewrite (strchr_app_found lit _ "%" Hl Hp eq_refl).
  rewrite skipn_app_cons.
  rewrite (strpbrk_subspec P sub rest conv Hn Hs Hc), skipn_app_cons.
  rewrite firstn_app_length. reflexivity.
Qed.

(** The untruncated output of a format that is one directive. *)
Lemma formatted_single (P : platform) (M : libm) (sub : list ascii) (conv : ascii)
    (ap : list arg) :
  no_nul sub -> strpbrk sub conversion_letters = None ->
  mem_ascii conv conversion_letters = true ->
  formatted P M ("%"%char :: sub ++ [conv]) ap
  = ('(tok, _) <~ convert P M (sub ++ [conv]) (List.length sub) ap ;;
     Ok (firstn (strlen tok) tok)).
Proof.
  intros Hn Hs Hc. unfold formatted.
  rewrite (formatted_from_directive P M _ [] sub [] conv ap eq_refl eq_refl Hn Hs Hc).
  destruct (convert P M (sub ++ [conv]) (List.length sub) ap) as [[tok ap']| |];
    try reflexivity.
  cbn [List.length formatted_from strchr strlen firstn app]. rewrite app_nil_r.
  reflexivity.
Qed.

Lemma wrap_wrap (bits v : Z) : 0 <= bits -> wrap bits (wrap bits v) = wrap bits v.
Proof. intros H. unfold wrap. apply Z.mod_mod. apply Z.pow_nonzero; lia. Qed.

(** ** Integer directives, end to end *)

Lemma swrap_wrap (bits v : Z) : 0 <= bits -> swrap bits (wrap bits v) = swrap bits v.
Proof. intros H. unfold swrap. rewrite wrap_wrap by exact H. reflexivity. Qed.

Lemma size_bits_pos (s : int_size_t) : 0 < size_bits s.
Proof. destruct s; cbn; lia. Qed.

Lemma in_tmp_zitoa_at (s : int_size_t) (n width : Z) (flags : fmt_flags_t) :
  0 <= width ->
  in_tmp (zitoa_at s n width flags) = Ok (zitoa_at s n width flags).
Proof.
  intros Hw. rewrite <- (Z2Nat.id width Hw). apply in_tmp_fits.
  pose proof (length_zitoa_at_le s n (Z.to_nat width) flags). lia.
Qed.

Lemma in_tmp_zutoa_at (s : int_size_t) (n width : Z) (flags : fmt_flags_t) :
  0 <= width ->
  in_tmp (zutoa_at s n width flags) = Ok (zutoa_at s n width flags).
Proof.
  intros Hw. rewrite <- (Z2Nat.id width Hw). apply in_tmp_fits.
  pose proof (length_zutoa_at_le s n (Z.to_nat width) flags). lia.
Qed.

Lemma in_tmp_zx64toa (s : int_size_t) (n width : Z) (flags : fmt_flags_t)
    (upper : bool) :
  0 <= width ->
  in_tmp (zx64toa s n width flags upper) = Ok (zx64toa s n width flags upper).
Proof.
  intros Hw. rewrite <- (Z2Nat.id width Hw). apply in_tmp_fits.
  pose proof (length_zx64toa_le s n (Z.to_nat width) flags upper). lia.
Qed.

Lemma in_tmp_zo64toa (s : int_size_t) (n width : Z) (flags : fmt_flags_t) :
  0 <= width ->
  in_tmp (zo64toa s n width flags) = Ok (zo64toa s n width flags).
Proof.
  intros Hw. rewrite <- (Z2Nat.id width Hw). apply in_tmp_fits.
  pose proof (length_zo64toa_le s n (Z.to_nat width) flags). lia.
Qed.

(** The text handed to the assembler for each integer directive. *)
Lemma render_signed (P : platform) (M : libm) (conv : ascii)
    (width precision : Z) (flags : fmt_flags_t) (v : Z) (ap : list arg) :
  conv = "d"%char \/ conv = "i"%char -> 0 <= width ->
  render P M conv length_int width precision flags (a_int v :: ap)
    = Ok (zitoa P (uint_of P v) width flags, ap) /\
  render P M conv length_long width precision flags (a_long v :: ap)
    = Ok (zltoa P (wrap (long_bits P) v) width flags, ap) /\
  render P M conv length_long_long width precision flags (a_llong v :: ap)
    = Ok (zlltoa (u64 v) width flags, ap).
Proof.
  intros Hc Hw.
  repeat split; destruct Hc as [-> | ->];
    unfold render, render_integer; cbn [is_letter mem_ascii existsb str
      list_ascii_of_string Ascii.eqb Bool.eqb orb andb va_int va_long va_llong];
    unfold zitoa, zltoa, zlltoa; rewrite in_tmp_zitoa_at by exact Hw; reflexivity.
Qed.

Lemma render_unsigned (P : platform) (M : libm)
    (width precision : Z) (flags : fmt_flags_t) (v : Z) (ap : list arg) :
  0 <= width ->
  render P M "u" length_int width precision flags (a_int v :: ap)
    = Ok (zutoa P (uint_of P v) width flags, ap) /\
  render P M "u" length_long width precision flags (a_long v :: ap)
    = Ok (zultoa P (wrap (long_bits P) v) width flags, ap) /\
  render P M "u" length_long_long width precision flags (a_llong v :: ap)
    = Ok (zulltoa (u64 v) width flags, ap).
Proof.
  intros Hw.
  repeat split;
    unfold render, render_integer; cbn [is_letter mem_ascii existsb str
      list_ascii_of_string Ascii.eqb Bool.eqb orb andb va_int va_long va_llong];
    unfold zutoa, zultoa, zulltoa; rewrite in_tmp_zutoa_at by exact Hw; reflexivity.
Qed.

Lemma render_hex (P : platform) (M : libm) (upper : bool)
    (width precision : Z) (flags : fmt_flags_t) (v : Z) (ap : list arg) :
  0 <= width ->
  render P M (if upper then "X" else "x") length_int width precision flags
      (a_int v :: ap)
    = Ok (zx64toa (int_size P) (u64 (uint_of P v)) width flags upper, ap) /\
  render P M (if upper then "X" else "x") length_long width precision flags
      (a_long v :: ap)
    = Ok (zx64toa (long_size P) (u64 (wrap (long_bits P) v)) width flags upper, ap) /\
  render P M (if upper then "X" else "x") length_long_long width precision flags
      (a_llong v :: ap)
    = Ok (zx64toa ZS64 (u64 (u64 v)) width flags upper, ap).
Proof.
  intros Hw.
  repeat split; destruct upper;
    unfold render, render_integer; cbn [is_letter mem_ascii existsb str
      list_ascii_of_string Ascii.eqb Bool.eqb orb andb va_int va_long va_llong];
    unfold zxtoa, zXtoa, zlxtoa, zlXtoa, zllxtoa, zllXtoa;
    rewrite in_tmp_zx64toa by exact Hw; reflexivity.
Qed.

Lemma render_octal (P : platform) (M : libm)
    (width precision : Z) (flags : fmt_flags_t) (v : Z) (ap : list arg) :
  0 <= width ->
  render P M "o" length_int width precision flags (a_int v :: ap)
    = Ok (zo64toa (int_size P) (u64 (uint_of P v)) width flags, ap) /\
  render P M "o" length_long width precision flags (a_long v :: ap)
    = Ok (zo64toa (long_size P) (u64 (wrap (long_bits P) v)) width flags, ap) /\
  render P M "o" length_long_long width precision flags (a_llong v :: ap)
    = Ok (zo64toa ZS64 (u64 (u64 v)) width flags, ap).
Proof.
  intros Hw.
  repeat split;
    unfold render, render_integer; cbn [is_letter mem_ascii existsb str
      list_ascii_of_string Ascii.eqb Bool.eqb orb andb va_int va_long va_llong];
    unfold zotoa, zlotoa, zllotoa;
    rewrite in_tmp_zo64toa by exact Hw; reflexivity.
Qed.

Lemma whole_string (a : string) (text : list ascii) :
  mem_ascii NUL (str a) = false -> made_of a text = true ->
  firstn (strlen text) text = text.
Proof.
  intros Ha H. rewrite (made_of_no_nul a text Ha H). apply firstn_all.
Qed.

(** A directive made of a length modifier and a conversion letter, as
    the whole format. *)
Lemma formatted_modifier (P : platform) (M : libm) (lm : list ascii) (conv : ascii)
    (ap : list arg) :
  modifier_only lm = true -> (List.length lm <= 30)%nat ->
  strpbrk lm conversion_letters = None ->
  mem_ascii conv conversion_letters = true ->
  formatted P M ("%"%char :: lm ++ [conv]) ap
  = ('(tok, _) <~ render P M conv (getLength P lm) 0
                    (uint_of P PRECISION_UNSPECIFIED) no_flags ap ;;
     Ok (firstn (strlen tok) tok)).
Proof.
  intros H Hlen Hs Hc.
  rewrite formatted_single by (auto using modifier_only_no_nul).
  rewrite convert_modifier by assumption. reflexivity.
Qed.

Ltac one_directive lm conv :=
  match goal with
  | |- context [formatted ?P ?M _ ?ap] =>
      change (formatted P M _ ap) with (formatted P M ("%"%char :: lm ++ [conv]) ap);
      rewrite (formatted_modifier P M lm conv ap eq_refl ltac:(cbn; lia) eq_refl eq_refl);
      let r := eval vm_compute in (getLength P lm) in
      change (getLength P lm) with r
  end.

(** X2.  The output of ["%d"], ["%i"], ["%u"], ["%ld"], ["%lu"],
    ["%lld"] and ["%llu"] is defined for every argument of the matching
    type on every platform, and read back as a decimal numeral it is the
    argument, converted to the signed or unsigned type of that size (the
    minimum values included, their negation taken to wrap). *)
Theorem decimal_directives_read_back (P : platform) (M : libm) (v : Z) :
  (exists t, formatted P M (str "%d") [a_int v] = Ok t
             /\ parse 10 t = Some (swrap (int_bits P) v)) /\
  (exists t, formatted P M (str "%i") [a_int v] = Ok t
             /\ parse 10 t = Some (swrap (int_bits P) v)) /\
  (exists t, formatted P M (str "%u") [a_int v] = Ok t
             /\ parse 10 t = Some (wrap (int_bits P) v)) /\
  (exists t, formatted P M (str "%ld") [a_long v] = Ok t
             /\ parse 10 t = Some (swrap (long_bits P) v)) /\
  (exists t, formatted P M (str "%lu") [a_long v] = Ok t
             /\ parse 10 t = Some (wrap (long_bits P) v)) /\
  (exists t, formatted P M (str "%lld") [a_llong v] = Ok t
             /\ parse 10 t = Some (swrap 64 v)) /\
  (exists t, formatted P M (str "%llu") [a_llong v] = Ok t
             /\ parse 10 t = Some (wrap 64 v)).
Proof.
  assert (Hs : forall s n, exists t,
             Ok (firstn (strlen (zitoa_at s n 0 no_flags)) (zitoa_at s n 0 no_flags))
             = Ok t /\ parse 10 t = Some (swrap (size_bits s) n)).
  { intros s n. eexists. split; [reflexivity|].
    rewrite (whole_string "0123456789 +-") by (reflexivity || apply made_of_zitoa_at).
    apply (round_trip s n false). }
  assert (Hu : forall s n, exists t,
             Ok (firstn (strlen (zutoa_at s n 0 no_flags)) (zutoa_at s n 0 no_flags))
             = Ok t /\ parse 10 t = Some (wrap (size_bits s) n)).
  { intros s n. eexists. split; [reflexivity|].
    rewrite (whole_string "0123456789 ") by (reflexivity || apply made_of_zutoa_at).
    apply (round_trip s n false). }
  repeat split.
  - one_directive (@nil ascii) "d"%char.
    destruct (render_signed P M "d" 0 (uint_of P PRECISION_UNSPECIFIED) no_flags v []
                (or_introl eq_refl) ltac:(lia)) as (-> & _).
    unfold zitoa. destruct (Hs (int_size P) (uint_of P v)) as (t & Ht & Hp).
    exists t. split; [exact Ht|]. rewrite Hp. unfold uint_of.
    rewrite swrap_wrap by (pose proof (size_bits_pos (int_size P)); unfold int_bits; lia).
    reflexivity.
  - one_directive (@nil ascii) "i"%char.
    destruct (render_signed P M "i" 0 (uint_of P PRECISION_UNSPECIFIED) no_flags v []
                (or_intror eq_refl) ltac:(lia)) as (-> & _).
    unfold zitoa. destruct (Hs (int_size P) (uint_of P v)) as (t & Ht & Hp).
    exists t. split; [exact Ht|]. rewrite Hp. unfold uint_of.
    rewrite swrap_wrap by (pose proof (size_bits_pos (int_size P)); unfold int_bits; lia).
    reflexivity.
  - one_directive (@nil ascii) "u"%char.
    destruct (render_unsigned P M 0 (uint_of P PRECISION_UNSPECIFIED) no_flags v []
                ltac:(lia)) as (-> & _).
    unfold zutoa. destruct (Hu (int_size P) (uint_of P v)) as (t & Ht & Hp).
    exists t. split; [exact Ht|]. rewrite Hp. unfold uint_of.
    rewrite wrap_wrap by (pose proof (size_bits_pos (int_size P)); unfold int_bits; lia).
    reflexivity.
  - one_directive (str "l") "d"%char.
    destruct (render_signed P M "d" 0 (uint_of P PRECISION_UNSPECIFIED) no_flags v []
                (or_introl eq_refl) ltac:(lia)) as (_ & -> & _).
    unfold zltoa. destruct (Hs (long_size P) (wrap (long_bits P) v)) as (t & Ht & Hp).
    exists t. split; [exact Ht|]. rewrite Hp.
    rewrite swrap_wrap by (pose proof (size_bits_pos (long_size P)); unfold long_bits; lia).
    reflexivity.
  - one_directive (str "l") "u"%char.
    destruct (render_unsigned P M 0 (uint_of P PRECISION_UNSPECIFIED) no_flags v []
                ltac:(lia)) as (_ & -> & _).
    unfold zultoa. destruct (Hu (long_size P) (wrap (long_bits P) v)) as (t & Ht & Hp).
    exists t. split; [exact Ht|]. rewrite Hp.
    rewrite wrap_wrap by (pose proof (size_bits_pos (long_size P)); unfold long_bits; lia).
    reflexivity.
  - one_directive (str "ll") "d"%char.
    destruct (render_signed P M "d" 0 (uint_of P PRECISION_UNSPECIFIED) no_flags v []
                (or_introl eq_refl) ltac:(lia)) as (_ & _ & ->).
    unfold zlltoa. destruct (Hs ZS64 (u64 v)) as (t & Ht & Hp).
    exists t. split; [exact Ht|]. rewrite Hp.
    apply f_equal. apply (swrap_wrap 64). lia.
  - one_directive (str "ll") "u"%char.
    destruct (render_unsigned P M 0 (uint_of P PRECISION_UNSPECIFIED) no_flags v []
                ltac:(lia)) as (_ & _ & ->).
    unfold zulltoa. destruct (Hu ZS64 (u64 v)) as (t & Ht & Hp).
    exists t. split; [exact Ht|]. rewrite Hp.
    apply f_equal. apply (wrap_wrap 64). lia.
Qed.

Lemma u64_uint_of (P : platform) (v : Z) : u64 (uint_of P v) = wrap (int_bits P) v.
Proof.
  unfold uint_of, u64. apply wrap_small.
  pose proof (wrap_range (int_bits P) v) as H.
  assert (2 ^ int_bits P <= 2 ^ 64).
  { apply Z.pow_le_mono_r; [lia|].
    destruct (int_bits_cases P) as [-> | [-> | ->]]; lia. }
  destruct (int_bits_cases P) as [E | [E | E]]; rewrite E in *; lia.
Qed.

(** X3.  Where [int] has 16 or 32 bits, the output of ["%x"],
    ["%X"] and ["%o"] is defined for every [int] argument and reads back,
    in radix 16 or 8, as the argument converted to [unsigned]. *)
Theorem hex_octal_directives_read_back (P : platform) (M : libm) (v : Z) :
  int_size P <> ZS64 ->
  (exists t, formatted P M (str "%x") [a_int v] = Ok t
             /\ parse 16 t = Some (wrap (int_bits P) v)) /\
  (exists t, formatted P M (str "%X") [a_int v] = Ok t
             /\ parse 16 t = Some (wrap (int_bits P) v)) /\
  (exists t, formatted P M (str "%o") [a_int v] = Ok t
             /\ parse 8 t = Some (wrap (int_bits P) v)).
Proof.
  intros Hsz.
  assert (Hx : forall upper, exists t,
             Ok (firstn (strlen (zx64toa (int_size P) (u64 (uint_of P v)) 0 no_flags upper))
                   (zx64toa (int_size P) (u64 (uint_of P v)) 0 no_flags upper))
             = Ok t /\ parse 16 t = Some (wrap (int_bits P) v)).
  { intros upper. eexists. split; [reflexivity|].
    rewrite (whole_string (if upper then "0123456789ABCDEF " else "0123456789abcdef "))
      by (first [destruct upper; reflexivity | apply made_of_zx64toa]).
    rewrite <- u64_uint_of.
    destruct (round_trip ZS32 (uint_of P v) upper) as (_ & _ & H16 & H32 & _).
    destruct (int_size P); [contradiction|exact H32|exact H16]. }
  repeat split.
  - one_directive (@nil ascii) "x"%char.
    destruct (render_hex P M false 0 (uint_of P PRECISION_UNSPECIFIED) no_flags v []
                ltac:(lia)) as (-> & _).
    apply (Hx false).
  - one_directive (@nil ascii) "X"%char.
    destruct (render_hex P M true 0 (uint_of P PRECISION_UNSPECIFIED) no_flags v []
                ltac:(lia)) as (-> & _).
    apply (Hx true).
  - one_directive (@nil ascii) "o"%char.
    destruct (render_octal P M 0 (uint_of P PRECISION_UNSPECIFIED) no_flags v []
                ltac:(lia)) as (-> & _).
    eexists. split; [reflexivity|].
    rewrite (whole_string "01234567 ") by (reflexivity || apply made_of_zo64toa).
    rewrite <- u64_uint_of.
    destruct (round_trip ZS32 (uint_of P v) false) as (_ & _ & _ & _ & H16 & H32).
    destruct (int_size P); [contradiction|exact H32|exact H16].
Qed.

Lemma hex_octal_directives_read_back_witness :
  (exists t, formatted lp64_x87 ref_libm (str "%x") [a_int 48879] = Ok t
             /\ parse 16 t = Some (wrap (int_bits lp64_x87) 48879)) /\
  (exists t, formatted lp64_x87 ref_libm (str "%X") [a_int 48879] = Ok t
             /\ parse 16 t = Some (wrap (int_bits lp64_x87) 48879)) /\
  (exists t, formatted lp64_x87 ref_libm (str "%o") [a_int 48879] = Ok t
             /\ parse 8 t = Some (wrap (int_bits lp64_x87) 48879)).
Proof.
  apply (hex_octal_directives_read_back lp64_x87 ref_libm 48879).
  simpl. discriminate.
Defined.

(** ** Sub-specifications of the usual shape

    Flags, then a width, then either length modifiers or a ['.'] and
    what follows it. *)

Lemma isdigit_cases (c : ascii) :
  isdigit c = true ->
  is_nul c = false /\ isspace c = false /\ Ascii.eqb c "*" = false
  /\ Ascii.eqb c "-" = false /\ Ascii.eqb c "+" = false
  /\ Ascii.eqb c "." = false
  /\ mem_ascii c conversion_letters = false
  /\ mem_ascii c (str "0-+ #") = Ascii.eqb c "0"
  /\ mem_ascii c (str ".123456789") = negb (Ascii.eqb c "0")
  /\ 0 <= ord c - ord "0" <= 9.
Proof.
  unfold isdigit.
  destruct c as [[] [] [] [] [] [] [] []]; intros H; try discriminate H;
    repeat split; try reflexivity; cbn; lia.
Qed.

Lemma scan_digits_app (ds X : list ascii) :
  forallb isdigit ds = true ->
  match X with [] => True | c :: _ => isdigit c = false end ->
  forall acc, scan_digits (ds ++ X) acc = (fst (scan_digits ds acc), X).
Proof.
  intros Hd HX. induction ds as [|c ds IH]; intros acc.
  - cbn [app scan_digits fst]. destruct X as [|c X]; [reflexivity|].
    cbn [scan_digits]. rewrite HX. reflexivity.
  - cbn [forallb] in Hd. apply andb_prop in Hd as (Hc & Hd).
    cbn [app scan_digits]. rewrite Hc. apply (IH Hd).
Qed.

Lemma scan_digits_all (ds : list ascii) :
  forallb isdigit ds = true -> forall acc, snd (scan_digits ds acc) = [].
Proof.
  intros Hd. induction ds as [|c ds IH]; intros acc; [reflexivity|].
  cbn [forallb] in Hd. apply andb_prop in Hd as (Hc & Hd).
  cbn [scan_digits]. rewrite Hc. apply (IH Hd).
Qed.

Lemma scan_digits_bound (ds : list ascii) :
  forallb isdigit ds = true ->
  forall acc, 0 <= acc ->
    0 <= fst (scan_digits ds acc) < (acc + 1) * 10 ^ Z.of_nat (List.length ds).
Proof.
  intros Hd. induction ds as [|c ds IH]; intros acc Hacc.
  - cbn. lia.
  - cbn [forallb] in Hd. apply andb_prop in Hd as (Hc & Hd).
    cbn [scan_digits]. rewrite Hc.
    destruct (isdigit_cases c Hc) as (_ & _ & _ & _ & _ & _ & _ & _ & _ & Hr).
    specialize (IH Hd (10 * acc + (ord c - ord "0")) ltac:(lia)).
    cbn [List.length]. rewrite Nat2Z.inj_succ, Z.pow_succ_r by lia.
    nia.
Qed.

Lemma numeral_small (ds : list ascii) :
  forallb isdigit ds = true -> (List.length ds <= 4)%nat -> 0 <= numeral ds < 10000.
Proof.
  intros Hd Hl. pose proof (scan_digits_bound ds Hd 0 ltac:(lia)) as H.
  unfold numeral.
  assert (10 ^ Z.of_nat (List.length ds) <= 10 ^ 4)
    by (apply Z.pow_le_mono_r; lia).
  change (10 ^ 4) with 10000 in *. lia.
Qed.

Lemma saturate_small (bits v : Z) :
  - 2 ^ (bits - 1) <= v < 2 ^ (bits - 1) -> saturate bits v = v.
Proof. unfold saturate. lia. Qed.

(** [strtol] on a numeral followed by something that is not a digit. *)
Lemma strtol_numeral (bits : Z) (ds X : list ascii) :
  forallb isdigit ds = true -> ds <> [] ->
  match X with [] => True | c :: _ => isdigit c = false end ->
  strtol bits (ds ++ X) = (saturate bits (numeral ds), X).
Proof.
  intros Hd Hne HX. destruct ds as [|c ds]; [contradiction|].
  pose proof Hd as Hd'. cbn [forallb] in Hd'. apply andb_prop in Hd' as (Hc & _).
  destruct (isdigit_cases c Hc) as (_ & Hs & _ & Hm & Hp & _).
  unfold strtol. cbn [app skip_spaces]. rewrite Hs, Hm, Hp, Hc.
  change (c :: ds ++ X) with ((c :: ds) ++ X).
  rewrite scan_digits_app by assumption. reflexivity.
Qed.

Lemma after_width_head (X : list ascii) :
  after_width X ->
  match X with
  | [] => True
  | c :: _ => isdigit c = false /\ isspace c = false /\ Ascii.eqb c "-" = false
              /\ Ascii.eqb c "+" = false /\ Ascii.eqb c "*" = false
  end.
Proof.
  intros [H | (t & ->)]; [|repeat split; reflexivity].
  destruct X as [|c X]; [exact I|].
  cbn [modifier_only forallb] in H. apply andb_prop in H as (Hc & _).
  destruct (modifier_char_plain c Hc) as (? & ? & ? & ? & ? & _). auto.
Qed.

Lemma getWidth_shape (P : platform) (wd X : list ascii) :
  is_numeral wd = true -> after_width X ->
  getWidth P (wd ++ X) = (swrap (int_bits P) (saturate (long_bits P) (numeral wd)), X).
Proof.
  intros Hw HX. unfold is_numeral in Hw. apply andb_prop in Hw as (Hd & _).
  pose proof (after_width_head X HX) as Hh.
  destruct wd as [|c wd].
  - cbn [app]. unfold numeral. cbn [scan_digits fst].
    assert (Hs : saturate (long_bits P) 0 = 0).
    { apply saturate_small. pose proof (pow2_long_bits P). lia. }
    rewrite Hs. unfold getWidth.
    destruct X as [|x X]; [reflexivity|].
    destruct Hh as (Hdg & Hsp & Hm & Hp & Hst).
    rewrite Hst, strtol_no_number by auto. reflexivity.
  - pose proof Hd as Hd'. cbn [forallb] in Hd'. apply andb_prop in Hd' as (Hc & _).
    destruct (isdigit_cases c Hc) as (_ & _ & Hst & _).
    unfold getWidth. cbn [app]. rewrite Hst.
    change (c :: wd ++ X) with ((c :: wd) ++ X).
    rewrite strtol_numeral; [reflexivity|exact Hd|discriminate|].
    destruct X; [exact I|apply Hh].
Qed.

Lemma getFlags_shape (fl wd X : list ascii) :
  forallb (fun x => mem_ascii x flag_chars) fl = true ->
  is_numeral wd = true -> after_width X ->
  getFlags (fl ++ wd ++ X)
  = (fold_left (fun f x => apply_flag x f) fl no_flags, wd ++ X).
Proof.
  intros Hfl Hw HX. rewrite (getFlags_flag_run fl (wd ++ X) Hfl). cbv zeta.
  assert (Hloop : forall f,
             getFlags_loop
               match strpbrk (wd ++ X) (str ".123456789") with
               | Some k => firstn k (wd ++ X)
               | None => wd ++ X
               end f = (f, O)).
  { intros f. unfold is_numeral in Hw. apply andb_prop in Hw as (Hd & Hz).
    destruct wd as [|c wd].
    - cbn [app]. destruct HX as [H | (t & ->)]; [|reflexivity].
      rewrite (modifier_only_strpbrk X ".123456789" eq_refl H).
      apply getFlags_loop_none.
      exact (modifier_only_strpbrk X "0-+ #" eq_refl H).
    - cbn [forallb] in Hd. apply andb_prop in Hd as (Hc & _).
      destruct (isdigit_cases c Hc) as (Hn & _ & _ & _ & _ & _ & _ & _ & Hcap & _).
      cbn [hd] in Hz. rewrite Hz in Hcap.
      cbn [app strpbrk]. rewrite Hn, Hcap. reflexivity. }
  rewrite Hloop. reflexivity.
Qed.

(** [convert] on a sub-specification of the usual shape. *)
Lemma convert_shape (P : platform) (M : libm) (fl wd X rest : list ascii)
    (conv : ascii) (ap : list arg) :
  forallb (fun x => mem_ascii x flag_chars) fl = true ->
  is_numeral wd = true -> after_width X ->
  (List.length (fl ++ wd ++ X) <= 30)%nat ->
  convert P M ((fl ++ wd ++ X) ++ conv :: rest) (List.length (fl ++ wd ++ X)) ap
  = ('(width, ap) <~
       star_arg P (uint_of P (swrap (int_bits P)
                                (saturate (long_bits P) (numeral wd)))) ap ;;
     let '(p, e) := getPrecision P X in
     '(precision, ap) <~ star_arg P (uint_of P p) ap ;;
     render P M conv (getLength P e) width precision
       (fold_left (fun f x => apply_flag x f) fl no_flags) ap).
Proof.
  intros Hfl Hw HX Hlen. rewrite convert_app by exact Hlen.
  rewrite (getFlags_shape fl wd X Hfl Hw HX), (getWidth_shape P wd X Hw HX).
  reflexivity.
Qed.

(** The precision part: nothing, a lone ['.'], or ['.'] and a numeral,
    followed by length modifiers. *)
Lemma getPrecision_unfold (P : platform) (c : ascii) (t : list ascii) :
  Ascii.eqb c "*" = false ->
  getPrecision P ("."%char :: c :: t)
  = let '(precval, e) := strtol (long_bits P) (c :: t) in
    if (List.length e =? List.length (c :: t))%nat
    then (PRECISION_UNSPECIFIED, c :: t)
    else (swrap (int_bits P) precval, e).
Proof.
  intros Hst. unfold getPrecision. cbn [strchr].
  change (is_nul ".") with false. change (Ascii.eqb "." ".") with true.
  cbn [skipn].
  destruct c as [[] [] [] [] [] [] [] []]; try reflexivity; discriminate Hst.
Qed.

Lemma getPrecision_dot (P : platform) (pd lm : list ascii) :
  forallb isdigit pd = true -> modifier_only lm = true ->
  getPrecision P ("."%char :: pd ++ lm)
  = (match pd with
     | [] => PRECISION_UNSPECIFIED
     | _ => swrap (int_bits P) (saturate (long_bits P) (numeral pd))
     end, lm).
Proof.
  intros Hd Hlm.
  assert (Hh : match lm with [] => True | c :: _ => isdigit c = false end).
  { destruct lm as [|c lm]; [exact I|].
    cbn [modifier_only forallb] in Hlm. apply andb_prop in Hlm as (Hc & _).
    apply (modifier_char_plain c Hc). }
  destruct pd as [|c pd].
  - cbn [app]. destruct lm as [|x lm]; [reflexivity|].
    cbn [modifier_only forallb] in Hlm. apply andb_prop in Hlm as (Hx & _).
    destruct (modifier_char_plain x Hx) as (Hs & Hdg & Hm & Hp & Hst & _).
    rewrite (getPrecision_unfold P x lm Hst).
    rewrite strtol_no_number by auto. rewrite Nat.eqb_refl. reflexivity.
  - pose proof Hd as Hd'. cbn [forallb] in Hd'. apply andb_prop in Hd' as (Hc & _).
    destruct (isdigit_cases c Hc) as (_ & _ & Hst & _).
    cbn [app]. rewrite (getPrecision_unfold P c (pd ++ lm) Hst).
    change (c :: pd ++ lm) with ((c :: pd) ++ lm).
    rewrite (strtol_numeral (long_bits P) (c :: pd) lm Hd ltac:(discriminate) Hh).
    replace (List.length lm =? List.length ((c :: pd) ++ lm))%nat with false;
      [reflexivity|].
    symmetry. apply Nat.eqb_neq. rewrite length_app. cbn [List.length]. lia.
Qed.

(** ** Directives that are read alike *)

Lemma scan_fuel_add (P : platform) (M : libm) (n : nat) (k fuel : nat) :
  forall (c : cursor) (src : list ascii) (ap : list arg),
    (List.length src < fuel)%nat ->
    scan P M (k + fuel) n c src ap = scan P M fuel n c src ap.
Proof.
  induction k as [|k IH]; intros c src ap H; [reflexivity|].
  cbn [Nat.add]. rewrite scan_more_fuel by lia. apply IH. exact H.
Qed.

Lemma scan_fuel_irrelevant (P : platform) (M : libm) (n : nat) (f1 f2 : nat)
    (c : cursor) (src : list ascii) (ap : list arg) :
  (List.length src < f1)%nat -> (List.length src < f2)%nat ->
  scan P M f1 n c src ap = scan P M f2 n c src ap.
Proof.
  intros H1 H2.
  replace f1 with ((f1 - S (List.length src)) + S (List.length src))%nat by lia.
  replace f2 with ((f2 - S (List.length src)) + S (List.length src))%nat by lia.
  rewrite !scan_fuel_add by lia. reflexivity.
Qed.

(** Two directives that [convert] reads alike can be exchanged anywhere
    after complete directives. *)
Lemma directive_congruence (P : platform) (M : libm) (buf0 : list ascii) (n : nat)
    (pre lit sub1 sub2 rest : list ascii) (conv1 conv2 : ascii) (ap : list arg) :
  closed pre -> no_nul lit -> strchr lit "%" = None ->
  no_nul sub1 -> strpbrk sub1 conversion_letters = None ->
  mem_ascii conv1 conversion_letters = true ->
  no_nul sub2 -> strpbrk sub2 conversion_letters = None ->
  mem_ascii conv2 conversion_letters = true ->
  (forall ap0, convert P M (sub1 ++ conv1 :: rest) (List.length sub1) ap0
               = convert P M (sub2 ++ conv2 :: rest) (List.length sub2) ap0) ->
  zvsnprintf P M buf0 n (pre ++ lit ++ "%"%char :: sub1 ++ conv1 :: rest) ap
  = zvsnprintf P M buf0 n (pre ++ lit ++ "%"%char :: sub2 ++ conv2 :: rest) ap.
Proof.
  intros Hpre Hl Hp Hn1 Hs1 Hc1 Hn2 Hs2 Hc2 Hconv.
  set (x1 := lit ++ "%"%char :: sub1 ++ conv1 :: rest).
  set (x2 := lit ++ "%"%char :: sub2 ++ conv2 :: rest).
  assert (Hx : forall fuel c ap0,
             scan P M fuel n c x1 ap0 = scan P M fuel n c x2 ap0).
  { intros fuel c ap0. destruct fuel as [|fuel]; [reflexivity|].
    unfold x1, x2.
    rewrite (scan_directive P M fuel n c lit _ rest conv1 ap0 Hl Hp Hn1 Hs1 Hc1).
    rewrite (scan_directive P M fuel n c lit _ rest conv2 ap0 Hl Hp Hn2 Hs2 Hc2).
    rewrite Hconv. reflexivity. }
  unfold zvsnprintf.
  set (f1 := S (List.length (pre ++ x1))).
  set (f2 := S (List.length (pre ++ x2))).
  rewrite (scan_fuel_irrelevant P M n f1 (f1 + f2) _ (pre ++ x1)) by (unfold f1; lia).
  rewrite (scan_fuel_irrelevant P M n f2 (f1 + f2) _ (pre ++ x2)) by (unfold f2; lia).
  apply (scan_closed_prefix P M n pre x1 x2 Hpre Hx).
Qed.

Lemma plain_prefix (s t : list ascii) :
  forallb plain_char s = true ->
  no_nul t -> strpbrk t conversion_letters = None ->
  no_nul (s ++ t) /\ strpbrk (s ++ t) conversion_letters = None.
Proof.
  intros Hs Hn Ht. induction s as [|c s IH]; [split; assumption|].
  cbn [forallb] in Hs. apply andb_prop in Hs as (Hc & Hs).
  destruct (IH Hs) as (IH1 & IH2).
  unfold plain_char in Hc. apply andb_prop in Hc as (Hz & Hl).
  apply negb_true_iff in Hz, Hl.
  unfold no_nul in *. cbn [app strlen List.length strpbrk].
  rewrite Hz, Hl, IH1, IH2. split; reflexivity.
Qed.

Lemma flags_plain (fl : list ascii) :
  forallb (fun x => mem_ascii x flag_chars) fl = true -> forallb plain_char fl = true.
Proof.
  apply forallb_weaken. intros c Hc.
  cbn [mem_ascii flag_chars str list_ascii_of_string existsb] in Hc.
  repeat (apply orb_prop in Hc as [Hc | Hc];
          [apply Ascii.eqb_eq in Hc; subst c; reflexivity|]).
  discriminate Hc.
Qed.

Lemma digits_plain (ds : list ascii) :
  forallb isdigit ds = true -> forallb plain_char ds = true.
Proof.
  apply forallb_weaken. intros c Hc.
  destruct (isdigit_cases c Hc) as (Hz & _ & _ & _ & _ & _ & Hl & _).
  unfold plain_char. rewrite Hz, Hl. reflexivity.
Qed.

(** A sub-specification of the usual shape is a C string without
    conversion letter. *)
Lemma usual_subspec (fl wd pd lm : list ascii) (dot : bool) :
  forallb (fun x => mem_ascii x flag_chars) fl = true ->
  is_numeral wd = true -> forallb isdigit pd = true ->
  modifier_only lm = true -> strpbrk lm conversion_letters = None ->
  no_nul (fl ++ wd ++ precision_part dot pd ++ lm)
  /\ strpbrk (fl ++ wd ++ precision_part dot pd ++ lm) conversion_letters = None
  /\ after_width (precision_part dot pd ++ lm).
Proof.
  intros Hfl Hw Hpd Hlm Hs.
  unfold is_numeral in Hw. apply andb_prop in Hw as (Hwd & _).
  assert (H3 : forallb plain_char (precision_part dot pd) = true).
  { destruct dot; [|reflexivity]. cbn [precision_part forallb].
    rewrite (digits_plain pd Hpd). reflexivity. }
  destruct (plain_prefix _ lm H3 (modifier_only_no_nul lm Hlm) Hs) as (A1 & A2).
  destruct (plain_prefix _ _ (digits_plain wd Hwd) A1 A2) as (B1 & B2).
  destruct (plain_prefix _ _ (flags_plain fl Hfl) B1 B2) as (C1 & C2).
  repeat split; try assumption.
  destruct dot; [right; eexists; reflexivity|left; exact Hlm].
Qed.

Lemma getPrecision_part (P : platform) (dot : bool) (pd lm : list ascii) :
  forallb isdigit pd = true -> modifier_only lm = true ->
  getPrecision P (precision_part dot pd ++ lm)
  = (match precision_part dot pd with
     | _ :: _ :: _ => swrap (int_bits P) (saturate (long_bits P) (numeral pd))
     | _ => PRECISION_UNSPECIFIED
     end, lm).
Proof.
  intros Hpd Hlm. destruct dot; cbn [precision_part app].
  - rewrite (getPrecision_dot P pd lm Hpd Hlm). destruct pd; reflexivity.
  - apply getPrecision_modifier. exact Hlm.
Qed.

(** [convert] on the usual shape, with the parser's part worked out. *)
Lemma convert_usual (P : platform) (M : libm) (fl wd pd lm rest : list ascii)
    (dot : bool) (conv : ascii) (ap : list arg) :
  forallb (fun x => mem_ascii x flag_chars) fl = true ->
  is_numeral wd = true -> forallb isdigit pd = true ->
  modifier_only lm = true -> strpbrk lm conversion_letters = None ->
  (List.length (fl ++ wd ++ precision_part dot pd ++ lm) <= 30)%nat ->
  convert P M ((fl ++ wd ++ precision_part dot pd ++ lm) ++ conv :: rest)
    (List.length (fl ++ wd ++ precision_part dot pd ++ lm)) ap
  = ('(width, ap) <~
       star_arg P (uint_of P (swrap (int_bits P)
                                (saturate (long_bits P) (numeral wd)))) ap ;;
     '(precision, ap) <~
       star_arg P (uint_of P
                     match precision_part dot pd with
                     | _ :: _ :: _ =>
                         swrap (int_bits P) (saturate (long_bits P) (numeral pd))
                     | _ => PRECISION_UNSPECIFIED
                     end) ap ;;
     render P M conv (getLength P lm) width precision
       (fold_left (fun f x => apply_flag x f) fl no_flags) ap).
Proof.
  intros Hfl Hw Hpd Hlm Hs Hlen.
  destruct (usual_subspec fl wd pd lm dot Hfl Hw Hpd Hlm Hs) as (_ & _ & HX).
  rewrite (convert_shape P M fl wd _ rest conv ap Hfl Hw HX Hlen).
  rewrite (getPrecision_part P dot pd lm Hpd Hlm). reflexivity.
Qed.

Lemma render_synonyms (P : platform) (M : libm) (c1 c2 : ascii) (length : length_t)
    (width precision : Z) (flags : fmt_flags_t) (ap : list arg) :
  In (c1, c2) [("i", "d"); ("F", "f"); ("a", "e"); ("A", "E")]%char ->
  render P M c1 length width precision flags ap
  = render P M c2 length width precision flags ap.
Proof.
  intros H. cbn [In] in H.
  destruct H as [H | [H | [H | [H | []]]]]; injection H as <- <-; reflexivity.
Qed.

(** X4.  In a directive that follows complete directives, ['i']
    stands for ['d'], ['F'] for ['f'], ['a'] for ['e'] and ['A'] for
    ['E']: exchanging the letters changes neither the returned length nor
    the destination, whatever the sub-specification and the arguments. *)
Theorem synonymous_conversion_letters (P : platform) (M : libm)
    (buf0 : list ascii) (n : nat) (pre lit sub rest : list ascii)
    (c1 c2 : ascii) (ap : list arg) :
  closed pre ->
  no_nul lit -> strchr lit "%" = None ->
  no_nul sub -> strpbrk sub conversion_letters = None ->
  (List.length sub <= 30)%nat ->
  In (c1, c2) [("i", "d"); ("F", "f"); ("a", "e"); ("A", "E")]%char ->
  zvsnprintf P M buf0 n (pre ++ lit ++ "%"%char :: sub ++ c1 :: rest) ap
  = zvsnprintf P M buf0 n (pre ++ lit ++ "%"%char :: sub ++ c2 :: rest) ap.
Proof.
  intros Hpre Hl Hp Hn Hs Hlen Hc.
  assert (Hm : mem_ascii c1 conversion_letters = true
               /\ mem_ascii c2 conversion_letters = true).
  { cbn [In] in Hc.
    destruct Hc as [H | [H | [H | [H | []]]]]; injection H as <- <-;
      split; reflexivity. }
  apply directive_congruence; try assumption; try apply Hm.
  intros ap0. rewrite !convert_app by exact Hlen.
  destruct (getFlags sub) as [f e1].
  destruct (getWidth P e1) as [w e].
  destruct (star_arg P (uint_of P w) ap0) as [[width ap1]| |]; try reflexivity.
  destruct (getPrecision P e) as [p e'].
  destruct (star_arg P (uint_of P p) ap1) as [[precision ap2]| |]; try reflexivity.
  apply render_synonyms. exact Hc.
Qed.

Lemma synonymous_conversion_letters_witness :
  zvsnprintf lp64_x87 ref_libm (repeat "#"%char 16) 16
    (str "a=%d" ++ str ", b=" ++ "%"%char :: str "05" ++ "i"%char :: str ";")
    [a_int 1; a_int 42]
  = zvsnprintf lp64_x87 ref_libm (repeat "#"%char 16) 16
    (str "a=%d" ++ str ", b=" ++ "%"%char :: str "05" ++ "d"%char :: str ";")
    [a_int 1; a_int 42].
Proof.
  apply (synonymous_conversion_letters lp64_x87 ref_libm (repeat "#"%char 16) 16
           (str "a=%d") (str ", b=") (str "05") (str ";") "i"%char "d"%char
           [a_int 1; a_int 42]).
  - apply (closed_directive (str "a=") [] [] "d"%char);
      try reflexivity; apply closed_nil.
  - reflexivity.
  - reflexivity.
  - reflexivity.
  - reflexivity.
  - simpl; lia.
  - simpl. left. reflexivity.
Defined.

(** The precision left unspecified and the precision 4 are rendered
    alike. *)
Lemma render_default_precision (P : platform) (M : libm) (conv : ascii)
    (length : length_t) (width : Z) (flags : fmt_flags_t) (ap : list arg) :
  render P M conv length width (uint_of P PRECISION_UNSPECIFIED) flags ap
  = render P M conv length width 4 flags ap.
Proof.
  assert (H1 : float_precision P (uint_of P PRECISION_UNSPECIFIED) = 4).
  { unfold float_precision. rewrite Z.eqb_refl. reflexivity. }
  assert (H2 : float_precision P 4 = 4).
  { unfold float_precision, PRECISION_UNSPECIFIED.
    pose proof (uint_of_neg P 1 ltac:(lia)) as H. cbn [Z.opp] in H. rewrite H.
    assert (65536 <= 2 ^ int_bits P)
      by (destruct (int_bits_cases P) as [-> | [-> | ->]]; cbn; lia).
    destruct (Z.eqb_spec 4 (2 ^ int_bits P - 1)); [lia|reflexivity]. }
  unfold render, render_float. rewrite H1, H2. reflexivity.
Qed.

Lemma render_precision_unused (P : platform) (M : libm) (conv : ascii)
    (length : length_t) (width p1 p2 : Z) (flags : fmt_flags_t) (ap : list arg) :
  is_letter conv "fFeEgGaA" = false ->
  render P M conv length width p1 flags ap = render P M conv length width p2 flags ap.
Proof. intros H. unfold render. rewrite H. reflexivity. Qed.

Lemma small_value (P : platform) (v : Z) :
  0 <= v < 10000 ->
  uint_of P (swrap (int_bits P) (saturate (long_bits P) v)) = v.
Proof.
  intros Hn. pose proof (pow2_long_bits P).
  rewrite saturate_small by lia.
  rewrite int_swrap_small by lia.
  apply uint_of_small. lia.
Qed.

Lemma small_width (P : platform) (ds : list ascii) :
  forallb isdigit ds = true -> (List.length ds <= 4)%nat ->
  uint_of P (swrap (int_bits P) (saturate (long_bits P) (numeral ds))) = numeral ds
  /\ 0 <= numeral ds < 10000.
Proof.
  intros Hd Hl. pose proof (numeral_small ds Hd Hl) as Hn.
  pose proof (pow2_long_bits P).
  rewrite saturate_small by lia.
  rewrite int_swrap_small by lia.
  rewrite uint_of_small by lia. split; [reflexivity|exact Hn].
Qed.

(** X5.  A directive with no precision, and one whose ['.'] is
    followed by no digit, behave as the directive with the precision
    [".4"]: same returned length, same destination.  For a floating
    conversion this means four fraction digits, where the C library
    writes six, and none after a lone ['.']. *)
Theorem default_precision_is_four (P : platform) (M : libm)
    (buf0 : list ascii) (n : nat) (pre lit fl wd lm rest : list ascii)
    (conv : ascii) (ap : list arg) :
  closed pre ->
  no_nul lit -> strchr lit "%" = None ->
  forallb (fun x => mem_ascii x flag_chars) fl = true ->
  is_numeral wd = true ->
  modifier_only lm = true -> strpbrk lm conversion_letters = None ->
  (List.length (fl ++ wd ++ str ".4" ++ lm) <= 30)%nat ->
  mem_ascii conv conversion_letters = true ->
  zvsnprintf P M buf0 n
    (pre ++ lit ++ "%"%char :: (fl ++ wd ++ lm) ++ conv :: rest) ap
  = zvsnprintf P M buf0 n
    (pre ++ lit ++ "%"%char :: (fl ++ wd ++ str ".4" ++ lm) ++ conv :: rest) ap /\
  zvsnprintf P M buf0 n
    (pre ++ lit ++ "%"%char :: (fl ++ wd ++ str "." ++ lm) ++ conv :: rest) ap
  = zvsnprintf P M buf0 n
    (pre ++ lit ++ "%"%char :: (fl ++ wd ++ str ".4" ++ lm) ++ conv :: rest) ap.
Proof.
  intros Hpre Hl Hp Hfl Hw Hlm Hs Hlen Hc.
  assert (Hlen' : forall dot pd, (List.length pd <= 1)%nat ->
             (List.length (fl ++ wd ++ precision_part dot pd ++ lm) <= 30)%nat).
  { intros dot pd Hpd. revert Hlen.
    repeat first [rewrite length_app | progress cbn [List.length str list_ascii_of_string]].
    destruct dot; cbn [precision_part List.length]; lia. }
  assert (H4 : forall ap0,
             convert P M ((fl ++ wd ++ precision_part true (str "4") ++ lm)
                          ++ conv :: rest)
               (List.length (fl ++ wd ++ precision_part true (str "4") ++ lm)) ap0
             = ('(width, ap1) <~
                  star_arg P (uint_of P (swrap (int_bits P)
                                (saturate (long_bits P) (numeral wd)))) ap0 ;;
                render P M conv (getLength P lm) width 4
                  (fold_left (fun f x => apply_flag x f) fl no_flags) ap1)).
  { intros ap0.
    rewrite (convert_usual P M fl wd (str "4") lm rest true conv ap0 Hfl Hw eq_refl
               Hlm Hs (Hlen' true (str "4") ltac:(cbn; lia))).
    destruct (star_arg P _ ap0) as [[width ap1]| |]; try reflexivity.
    cbn [precision_part str list_ascii_of_string].
    change (numeral ["4"%char]) with 4.
    rewrite (small_value P 4) by lia.
    rewrite star_arg_plain by (left; lia). reflexivity. }
  assert (Hu : forall dot ap0,
             convert P M ((fl ++ wd ++ precision_part dot [] ++ lm) ++ conv :: rest)
               (List.length (fl ++ wd ++ precision_part dot [] ++ lm)) ap0
             = ('(width, ap1) <~
                  star_arg P (uint_of P (swrap (int_bits P)
                                (saturate (long_bits P) (numeral wd)))) ap0 ;;
                render P M conv (getLength P lm) width 4
                  (fold_left (fun f x => apply_flag x f) fl no_flags) ap1)).
  { intros dot ap0.
    rewrite (convert_usual P M fl wd [] lm rest dot conv ap0 Hfl Hw eq_refl
               Hlm Hs (Hlen' dot [] ltac:(cbn; lia))).
    destruct (star_arg P _ ap0) as [[width ap1]| |]; try reflexivity.
    replace (match precision_part dot [] with
             | _ :: _ :: _ =>
                 swrap (int_bits P) (saturate (long_bits P) (numeral []))
             | _ => PRECISION_UNSPECIFIED
             end) with PRECISION_UNSPECIFIED by (destruct dot; reflexivity).
    rewrite star_arg_plain by (right; reflexivity).
    apply render_default_precision. }
  destruct (usual_subspec fl wd (str "4") lm true Hfl Hw eq_refl Hlm Hs)
    as (N4 & S4 & _).
  split.
  - destruct (usual_subspec fl wd [] lm false Hfl Hw eq_refl Hlm Hs)
      as (N0 & S0 & _).
    apply directive_congruence; try assumption.
    intros ap0. exact (eq_trans (Hu false ap0) (eq_sym (H4 ap0))).
  - destruct (usual_subspec fl wd [] lm true Hfl Hw eq_refl Hlm Hs)
      as (N0 & S0 & _).
    apply directive_congruence; try assumption.
    intros ap0. exact (eq_trans (Hu true ap0) (eq_sym (H4 ap0))).
Qed.

Lemma default_precision_is_four_witness :
  zvsnprintf lp64_x87 ref_libm (repeat "#"%char 16) 16
    (str "a=%d" ++ str ", b=" ++ "%"%char :: (str "+" ++ str "7" ++ str "l")
       ++ "e"%char :: str ";") [a_int 1; a_ldouble (ldouble_of lp64_x87 5 4)]
  = zvsnprintf lp64_x87 ref_libm (repeat "#"%char 16) 16
    (str "a=%d" ++ str ", b=" ++ "%"%char :: (str "+" ++ str "7" ++ str ".4" ++ str "l")
       ++ "e"%char :: str ";") [a_int 1; a_ldouble (ldouble_of lp64_x87 5 4)] /\
  zvsnprintf lp64_x87 ref_libm (repeat "#"%char 16) 16
    (str "a=%d" ++ str ", b=" ++ "%"%char :: (str "+" ++ str "7" ++ str "." ++ str "l")
       ++ "e"%char :: str ";") [a_int 1; a_ldouble (ldouble_of lp64_x87 5 4)]
  = zvsnprintf lp64_x87 ref_libm (repeat "#"%char 16) 16
    (str "a=%d" ++ str ", b=" ++ "%"%char :: (str "+" ++ str "7" ++ str ".4" ++ str "l")
       ++ "e"%char :: str ";") [a_int 1; a_ldouble (ldouble_of lp64_x87 5 4)].
Proof.
  apply (default_precision_is_four lp64_x87 ref_libm (repeat "#"%char 16) 16
           (str "a=%d") (str ", b=") (str "+") (str "7") (str "l") (str ";")
           "e"%char [a_int 1; a_ldouble (ldouble_of lp64_x87 5 4)]).
  - apply (closed_directive (str "a=") [] [] "d"%char);
      try reflexivity; apply closed_nil.
  - reflexivity.
  - reflexivity.
  - reflexivity.
  - reflexivity.
  - reflexivity.
  - reflexivity.
  - simpl; lia.
  - reflexivity.
Defined.

Lemma length_usual (fl wd pd lm : list ascii) (dot : bool) :
  (List.length (fl ++ wd ++ lm)
   <= List.length (fl ++ wd ++ precision_part dot pd ++ lm))%nat.
Proof. rewrite !length_app. lia. Qed.

Lemma precision_value (P : platform) (dot : bool) (pd : list ascii) (ap : list arg) :
  forallb isdigit pd = true -> (List.length pd <= 4)%nat ->
  exists p,
    star_arg P (uint_of P
                  match precision_part dot pd with
                  | _ :: _ :: _ =>
                      swrap (int_bits P) (saturate (long_bits P) (numeral pd))
                  | _ => PRECISION_UNSPECIFIED
                  end) ap = Ok (p, ap).
Proof.
  intros Hd Hl.
  destruct (precision_part dot pd) as [|x [|y l]];
    try (eexists; apply star_arg_plain; right; reflexivity).
  destruct (small_width P pd Hd Hl) as (-> & Hr).
  eexists. apply star_arg_plain. left. lia.
Qed.

(** X6.  Outside the floating conversions a precision of at most
    four digits has no effect: the directive with it and the directive
    without it give the same returned length and the same destination. *)
Theorem precision_ignored_outside_floats (P : platform) (M : libm)
    (buf0 : list ascii) (n : nat) (pre lit fl wd pd lm rest : list ascii)
    (conv : ascii) (ap : list arg) :
  closed pre ->
  no_nul lit -> strchr lit "%" = None ->
  forallb (fun x => mem_ascii x flag_chars) fl = true ->
  is_numeral wd = true ->
  forallb isdigit pd = true -> (List.length pd <= 4)%nat ->
  modifier_only lm = true -> strpbrk lm conversion_letters = None ->
  (List.length (fl ++ wd ++ "."%char :: pd ++ lm) <= 30)%nat ->
  mem_ascii conv conversion_letters = true ->
  is_letter conv "fFeEgGaA" = false ->
  zvsnprintf P M buf0 n
    (pre ++ lit ++ "%"%char :: (fl ++ wd ++ "."%char :: pd ++ lm) ++ conv :: rest) ap
  = zvsnprintf P M buf0 n
    (pre ++ lit ++ "%"%char :: (fl ++ wd ++ lm) ++ conv :: rest) ap.
Proof.
  intros Hpre Hl Hp Hfl Hw Hpd Hpl Hlm Hs Hlen Hc Hnf.
  destruct (usual_subspec fl wd pd lm true Hfl Hw Hpd Hlm Hs) as (N1 & S1 & _).
  destruct (usual_subspec fl wd [] lm false Hfl Hw eq_refl Hlm Hs) as (N0 & S0 & _).
  apply directive_congruence; try assumption.
  intros ap0.
  pose proof (convert_usual P M fl wd pd lm rest true conv ap0 Hfl Hw Hpd Hlm Hs Hlen)
    as H1.
  pose proof (convert_usual P M fl wd [] lm rest false conv ap0 Hfl Hw eq_refl Hlm Hs
                ltac:(pose proof (length_usual fl wd pd lm true);
                      cbn [precision_part app] in *; lia)) as H0.
  cbn [precision_part app] in H1, H0. rewrite H1, H0.
  destruct (star_arg P _ ap0) as [[width ap1]| |]; try reflexivity.
  destruct (precision_value P true pd ap1 Hpd Hpl) as (p1 & E1).
  destruct (precision_value P false [] ap1 eq_refl ltac:(cbn; lia)) as (p0 & E0).
  cbn [precision_part] in E1, E0. rewrite E1, E0.
  apply render_precision_unused. exact Hnf.
Qed.

Lemma precision_ignored_outside_floats_witness :
  zvsnprintf lp64_x87 ref_libm (repeat "#"%char 16) 16
    (str "a=%d" ++ str ", b=" ++ "%"%char :: (str "0" ++ str "5" ++ "."%char :: str "3"
       ++ str "l") ++ "d"%char :: str ";") [a_int 1; a_long 42]
  = zvsnprintf lp64_x87 ref_libm (repeat "#"%char 16) 16
    (str "a=%d" ++ str ", b=" ++ "%"%char :: (str "0" ++ str "5" ++ str "l")
       ++ "d"%char :: str ";") [a_int 1; a_long 42].
Proof.
  apply (precision_ignored_outside_floats lp64_x87 ref_libm (repeat "#"%char 16) 16
           (str "a=%d") (str ", b=") (str "0") (str "5") (str "3") (str "l") (str ";")
           "d"%char [a_int 1; a_long 42]).
  - apply (closed_directive (str "a=") [] [] "d"%char);
      try reflexivity; apply closed_nil.
  - reflexivity.
  - reflexivity.
  - reflexivity.
  - reflexivity.
  - reflexivity.
  - simpl; lia.
  - reflexivity.
  - reflexivity.
  - simpl; lia.
  - reflexivity.
  - reflexivity.
Defined.

(** X7.  The length modifiers ["h"] and ["hh"] are accepted and
    have no effect: with or without them a directive gives the same
    returned length and the same destination, the argument being read and
    rendered as an [int]. *)
Theorem short_modifiers_are_ignored (P : platform) (M : libm)
    (buf0 : list ascii) (n : nat) (pre lit fl wd pd lm rest : list ascii)
    (dot : bool) (conv : ascii) (ap : list arg) :
  closed pre ->
  no_nul lit -> strchr lit "%" = None ->
  forallb (fun x => mem_ascii x flag_chars) fl = true ->
  is_numeral wd = true ->
  forallb isdigit pd = true ->
  lm = str "h" \/ lm = str "hh" ->
  (List.length (fl ++ wd ++ precision_part dot pd ++ lm) <= 30)%nat ->
  mem_ascii conv conversion_letters = true ->
  zvsnprintf P M buf0 n
    (pre ++ lit ++ "%"%char :: (fl ++ wd ++ precision_part dot pd ++ lm)
       ++ conv :: rest) ap
  = zvsnprintf P M buf0 n
    (pre ++ lit ++ "%"%char :: (fl ++ wd ++ precision_part dot pd) ++ conv :: rest) ap.
Proof.
  intros Hpre Hl Hp Hfl Hw Hpd Hlm Hlen Hc.
  assert (Hm : modifier_only lm = true /\ strpbrk lm conversion_letters = None
               /\ getLength P lm = getLength P []).
  { destruct Hlm as [-> | ->]; repeat split; reflexivity. }
  destruct Hm as (Hmo & Hs & Hgl).
  destruct (usual_subspec fl wd pd lm dot Hfl Hw Hpd Hmo Hs) as (N1 & S1 & _).
  destruct (usual_subspec fl wd pd [] dot Hfl Hw Hpd eq_refl eq_refl) as (N0 & S0 & _).
  rewrite app_nil_r in N0, S0.
  apply directive_congruence; try assumption.
  intros ap0.
  pose proof (convert_usual P M fl wd pd lm rest dot conv ap0 Hfl Hw Hpd Hmo Hs Hlen)
    as H1.
  pose proof (convert_usual P M fl wd pd [] rest dot conv ap0 Hfl Hw Hpd eq_refl eq_refl
                ltac:(revert Hlen; rewrite !length_app; cbn [List.length]; lia)) as H0.
  rewrite app_nil_r in H0. rewrite H1, H0, Hgl. reflexivity.
Qed.

Lemma short_modifiers_are_ignored_witness :
  zvsnprintf lp64_x87 ref_libm (repeat "#"%char 16) 16
    (str "a=%d" ++ str ", b=" ++ "%"%char
       :: (str "0" ++ str "5" ++ precision_part false [] ++ str "hh")
       ++ "d"%char :: str ";") [a_int 1; a_int 300]
  = zvsnprintf lp64_x87 ref_libm (repeat "#"%char 16) 16
    (str "a=%d" ++ str ", b=" ++ "%"%char
       :: (str "0" ++ str "5" ++ precision_part false [])
       ++ "d"%char :: str ";") [a_int 1; a_int 300].
Proof.
  apply (short_modifiers_are_ignored lp64_x87 ref_libm (repeat "#"%char 16) 16
           (str "a=%d") (str ", b=") (str "0") (str "5") [] (str "hh") (str ";")
           false "d"%char [a_int 1; a_int 300]).
  - apply (closed_directive (str "a=") [] [] "d"%char);
      try reflexivity; apply closed_nil.
  - reflexivity.
  - reflexivity.
  - reflexivity.
  - reflexivity.
  - reflexivity.
  - right. reflexivity.
  - simpl; lia.
  - reflexivity.
Defined.

Lemma is_nul_chr (v : Z) : is_nul (chr v) = (v mod 256 =? 0).
Proof.
  unfold is_nul, chr, NUL.
  pose proof (Z.mod_pos_bound v 256 ltac:(lia)) as Hr.
  destruct (Z.eqb_spec (v mod 256) 0) as [E|E].
  - rewrite E. reflexivity.
  - apply Ascii.eqb_neq. intros H.
    apply (f_equal N_of_ascii) in H.
    rewrite N_ascii_embedding in H by lia.
    change (N_of_ascii zero) with 0%N in H. lia.
Qed.

(** With a width and a precision of at most four digits no argument is
    taken for them. *)
Lemma convert_usual_small (P : platform) (M : libm) (fl wd pd lm : list ascii)
    (dot : bool) :
  forallb (fun x => mem_ascii x flag_chars) fl = true ->
  is_numeral wd = true -> (List.length wd <= 4)%nat ->
  forallb isdigit pd = true -> (List.length pd <= 4)%nat ->
  modifier_only lm = true -> strpbrk lm conversion_letters = None ->
  (List.length (fl ++ wd ++ precision_part dot pd ++ lm) <= 30)%nat ->
  exists precision,
    forall (conv : ascii) (rest : list ascii) (ap : list arg),
      convert P M ((fl ++ wd ++ precision_part dot pd ++ lm) ++ conv :: rest)
        (List.length (fl ++ wd ++ precision_part dot pd ++ lm)) ap
      = render P M conv (getLength P lm) (numeral wd) precision
          (fold_left (fun f x => apply_flag x f) fl no_flags) ap.
Proof.
  intros Hfl Hw Hwl Hpd Hpl Hlm Hs Hlen.
  pose proof Hw as Hw'. unfold is_numeral in Hw'. apply andb_prop in Hw' as (Hwd & _).
  destruct (small_width P wd Hwd Hwl) as (Ew & Hr).
  destruct (precision_value P dot pd [] Hpd Hpl) as (p & Ep).
  exists p. intros conv rest ap.
  rewrite (convert_usual P M fl wd pd lm rest dot conv ap Hfl Hw Hpd Hlm Hs Hlen).
  rewrite Ew, star_arg_plain by (left; lia).
  unfold star_arg in *. destruct (_ =? _); [discriminate Ep|].
  injection Ep as <-. reflexivity.
Qed.

(** X8.  Flags, a width and a precision of at most four digits and
    length modifiers have no effect on ['%'], ['s'] and ['c']: the output
    is a single ['%'], taking no argument; the string argument up to its
    NUL, neither padded nor cut; the character argument, or nothing at
    all when that character is NUL. *)
Theorem subspec_ignored_by_percent_string_char (P : platform) (M : libm)
    (fl wd pd lm s : list ascii) (dot : bool) (v : Z) (ap : list arg) :
  forallb (fun x => mem_ascii x flag_chars) fl = true ->
  is_numeral wd = true -> (List.length wd <= 4)%nat ->
  forallb isdigit pd = true -> (List.length pd <= 4)%nat ->
  modifier_only lm = true -> strpbrk lm conversion_letters = None ->
  (List.length (fl ++ wd ++ precision_part dot pd ++ lm) <= 30)%nat ->
  formatted P M ("%"%char :: (fl ++ wd ++ precision_part dot pd ++ lm) ++ ["%"%char]) ap
    = Ok (str "%") /\
  formatted P M ("%"%char :: (fl ++ wd ++ precision_part dot pd ++ lm) ++ ["s"%char])
      (a_str s :: ap)
    = Ok (firstn (strlen s) s) /\
  formatted P M ("%"%char :: (fl ++ wd ++ precision_part dot pd ++ lm) ++ ["c"%char])
      (a_int v :: ap)
    = Ok (if v mod 256 =? 0 then [] else [chr v]).
Proof.
  intros Hfl Hw Hwl Hpd Hpl Hlm Hs Hlen.
  destruct (usual_subspec fl wd pd lm dot Hfl Hw Hpd Hlm Hs) as (N1 & S1 & _).
  destruct (convert_usual_small P M fl wd pd lm dot Hfl Hw Hwl Hpd Hpl Hlm Hs Hlen)
    as (p & Hcv).
  repeat split.
  - rewrite (formatted_single P M _ "%" ap N1 S1 eq_refl), Hcv. reflexivity.
  - rewrite (formatted_single P M _ "s" _ N1 S1 eq_refl), Hcv. reflexivity.
  - rewrite (formatted_single P M _ "c" _ N1 S1 eq_refl), Hcv.
    unfold render. cbn [is_letter mem_ascii existsb str list_ascii_of_string
                        Ascii.eqb Bool.eqb orb andb va_int strlen firstn].
    rewrite is_nul_chr. destruct (v mod 256 =? 0); reflexivity.
Qed.

Lemma subspec_ignored_by_percent_string_char_witness :
  formatted lp64_x87 ref_libm
      ("%"%char :: (str "-" ++ str "12" ++ precision_part true (str "3") ++ [])
         ++ ["%"%char]) []
    = Ok (str "%") /\
  formatted lp64_x87 ref_libm
      ("%"%char :: (str "-" ++ str "12" ++ precision_part true (str "3") ++ [])
         ++ ["s"%char]) (a_str (str "abcdef" ++ NUL :: str "xyz") :: [])
    = Ok (firstn (strlen (str "abcdef" ++ NUL :: str "xyz"))
            (str "abcdef" ++ NUL :: str "xyz")) /\
  formatted lp64_x87 ref_libm
      ("%"%char :: (str "-" ++ str "12" ++ precision_part true (str "3") ++ [])
         ++ ["c"%char]) (a_int 256 :: [])
    = Ok (if 256 mod 256 =? 0 then [] else [chr 256]).
Proof.
  apply (subspec_ignored_by_percent_string_char lp64_x87 ref_libm
           (str "-") (str "12") (str "3") [] (str "abcdef" ++ NUL :: str "xyz")
           true 256 []).
  - reflexivity.
  - reflexivity.
  - simpl; lia.
  - reflexivity.
  - simpl; lia.
  - reflexivity.
  - reflexivity.
  - simpl; lia.
Defined.

Lemma float_letter_is_letter (conv : ascii) :
  is_letter conv "fFeEgGaA" = true ->
  mem_ascii conv conversion_letters = true /\ Ascii.eqb conv "%" = false
  /\ is_letter conv "diuxXo" = false.
Proof.
  intros H. unfold is_letter in H.
  cbn [mem_ascii str list_ascii_of_string existsb] in H.
  repeat (apply orb_prop in H as [H | H];
          [apply Ascii.eqb_eq in H; subst conv; repeat split; reflexivity|]).
  discriminate H.
Qed.

(** X9.  With the modifier ['l'] or ['L'] a floating conversion
    reads its argument as a [long double]: ["%lf"] given a [double], which
    the C library accepts, makes the call undefined, whatever the
    destination and its capacity. *)
Theorem long_float_directive_reads_long_double (P : platform) (M : libm)
    (buf0 : list ascii) (n : nat) (lm : list ascii) (conv : ascii) (x : float)
    (ap : list arg) :
  lm = str "l" \/ lm = str "L" ->
  is_letter conv "fFeEgGaA" = true ->
  zvsnprintf P M buf0 n ("%"%char :: lm ++ [conv]) (a_double x :: ap)
    = Undefined BadArgument /\
  zsnprintf P M buf0 n ("%"%char :: lm ++ [conv]) (a_double x :: ap)
    = Undefined BadArgument.
Proof.
  intros Hlm Hc.
  destruct (float_letter_is_letter conv Hc) as (Hm & Hp & Hi).
  assert (H : modifier_only lm = true /\ strpbrk lm conversion_letters = None
              /\ getLength P lm = length_long /\ (List.length lm <= 30)%nat).
  { destruct Hlm as [-> | ->]; repeat split; try reflexivity; cbn; lia. }
  destruct H as (Hmo & Hs & Hgl & Hlen).
  assert (Hz : zvsnprintf P M buf0 n ("%"%char :: lm ++ [conv]) (a_double x :: ap)
               = Undefined BadArgument).
  { unfold zvsnprintf.
    rewrite (scan_directive P M _ n _ [] lm [] conv _ eq_refl eq_refl
               (modifier_only_no_nul lm Hmo) Hs Hm).
    unfold copy_span, memcpy. cbn [List.length remain dest buf Nat.add].
    replace (if (n <=? 0)%nat then n else 0%nat) with 0%nat
      by (destruct n; reflexivity).
    cbn [Nat.leb].
    rewrite (convert_modifier P M lm [] conv _ Hmo Hlen), Hgl.
    unfold render. rewrite Hp, Hi, Hc. reflexivity. }
  split; exact Hz.
Qed.

Lemma long_float_directive_reads_long_double_witness :
  zvsnprintf lp64_x87 ref_libm (repeat "#"%char 16) 16
      ("%"%char :: str "l" ++ ["f"%char]) (a_double (double_of lp64_x87 5 4) :: [])
    = Undefined BadArgument /\
  zsnprintf lp64_x87 ref_libm (repeat "#"%char 16) 16
      ("%"%char :: str "l" ++ ["f"%char]) (a_double (double_of lp64_x87 5 4) :: [])
    = Undefined BadArgument.
Proof.
  apply (long_float_directive_reads_long_double lp64_x87 ref_libm
           (repeat "#"%char 16) 16 (str "l") "f"%char (double_of lp64_x87 5 4) []).
  - left. reflexivity.
  - reflexivity.
Defined.

(** ** The end of the format *)

Lemma strlen_terminated (s junk : list ascii) :
  strlen (s ++ NUL :: junk) = strlen s.
Proof.
  induction s as [|c s IH]; [reflexivity|].
  cbn [app strlen]. rewrite IH. reflexivity.
Qed.

Lemma strchr_terminated (s junk : list ascii) (c : ascii) :
  strchr (s ++ NUL :: junk) c = strchr s c.
Proof.
  induction s as [|x s IH]; [reflexivity|].
  cbn [app strchr]. rewrite IH. reflexivity.
Qed.

Lemma strpbrk_terminated (s junk accept : list ascii) :
  strpbrk (s ++ NUL :: junk) accept = strpbrk s accept.
Proof.
  induction s as [|x s IH]; [reflexivity|].
  cbn [app strpbrk]. rewrite IH. reflexivity.
Qed.

Lemma skipn_app_le (k : nat) (s t : list ascii) :
  (k <= List.length s)%nat -> skipn k (s ++ t) = skipn k s ++ t.
Proof.
  intros H. rewrite skipn_app.
  replace (k - List.length s)%nat with O by lia. reflexivity.
Qed.

Lemma copy_span_prefix (P : platform) (c : cursor) (s t : list ascii) (k : nat) :
  (k <= List.length s)%nat -> copy_span P c (s ++ t) k = copy_span P c s k.
Proof.
  intros H. unfold copy_span, memcpy.
  destruct (remain c <=? k)%nat eqn:E.
  - apply Nat.leb_le in E. rewrite firstn_app_le by lia. reflexivity.
  - rewrite firstn_app_le by lia. reflexivity.
Qed.

(** [scan] does not look behind the NUL that ends the format. *)
Lemma scan_terminated (P : platform) (M : libm) (n : nat) (junk : list ascii)
    (fuel : nat) :
  forall (c : cursor) (src : list ascii) (ap : list arg),
    scan P M fuel n c (src ++ NUL :: junk) ap = scan P M fuel n c src ap.
Proof.
  induction fuel as [|fuel IH]; intros c src ap; [reflexivity|].
  cbn [scan]. rewrite strchr_terminated.
  destruct (strchr src "%") as [k|] eqn:Hk.
  - apply strchr_le in Hk.
    rewrite copy_span_prefix by lia.
    destruct (copy_span P c src k) as [c1| |]; try reflexivity.
    rewrite skipn_app_le by lia.
    remember (skipn (S k) src) as after_escape.
    rewrite strpbrk_terminated, strchr_terminated.
    destruct (strpbrk after_escape conversion_letters) as [j|] eqn:Hj.
    + apply strpbrk_le in Hj.
      rewrite convert_prefix by exact Hj.
      destruct (convert P M after_escape j ap) as [[tok ap']| |]; try reflexivity.
      destruct (copy_token P c1 tok) as [c2| |]; try reflexivity.
      rewrite skipn_app_le by lia. apply IH.
    + destruct (found (strchr after_escape "n")); [reflexivity|]. apply IH.
  - unfold finish. rewrite strlen_terminated.
    rewrite copy_span_prefix by apply strlen_le. reflexivity.
Qed.

(** X10.  Nothing behind the first NUL of the format takes part in
    a call: with anything appended after a NUL the returned length and the
    destination are the same, and so is the outcome of a call that is
    undefined. *)
Theorem format_ends_at_its_first_nul (P : platform) (M : libm)
    (buf0 : list ascii) (n : nat) (fmt junk : list ascii) (ap : list arg) :
  zvsnprintf P M buf0 n (fmt ++ NUL :: junk) ap = zvsnprintf P M buf0 n fmt ap /\
  zsnprintf P M buf0 n (fmt ++ NUL :: junk) ap = zsnprintf P M buf0 n fmt ap.
Proof.
  assert (H : zvsnprintf P M buf0 n (fmt ++ NUL :: junk) ap
              = zvsnprintf P M buf0 n fmt ap).
  { unfold zvsnprintf. rewrite scan_terminated.
    apply scan_fuel_irrelevant; [rewrite length_app|]; lia. }
  split; exact H.
Qed.

(** ** The destination, byte for byte *)

(** X11.  For a destination of at least [n] bytes and a call whose
    untruncated output [text] is defined, the returned value is the
    length of [text] reduced modulo [SIZE_MAX + 1], and the destination
    is, for [n > 0], the first [n - 1] characters of [text] (all of it if
    it is shorter), a NUL, and every byte behind that NUL as it was
    before the call; for [n = 0] it is unchanged. *)
Theorem destination_and_returned_length (P : platform) (M : libm)
    (buf0 : list ascii) (n : nat) (fmt : list ascii) (ap : list arg)
    (text : list ascii) :
  (n <= List.length buf0)%nat ->
  formatted P M fmt ap = Ok text ->
  zvsnprintf P M buf0 n fmt ap
  = Ok (Z.of_nat (List.length text) mod 2 ^ size_t_bits P,
        if (n =? 0)%nat then buf0
        else firstn (n - 1) text ++ NUL
               :: skipn (S (Nat.min (List.length text) (n - 1))) buf0).
Proof.
  intros Hcap Hf.
  pose proof (scan_formatted P M n buf0 Hcap _ _ _ _ [] text
                (holds_init P n buf0 Hcap) Hf) as Hs.
  cbn [app] in Hs. unfold zvsnprintf. rewrite Hs. unfold wrap, assembled.
  destruct (n =? 0)%nat; [reflexivity|].
  do 3 f_equal.
  destruct (Nat.le_ge_cases (List.length text) (n - 1)) as [H|H].
  - rewrite Nat.min_l by exact H. rewrite !firstn_all2 by lia. reflexivity.
  - rewrite Nat.min_r by exact H. reflexivity.
Qed.

Lemma destination_and_returned_length_witness :
  zvsnprintf xc16 ref_libm (repeat "#"%char 8) 4 (str "%s=%u")
    [a_str (str "abc"); a_int 7]
  = Ok (Z.of_nat (List.length (str "abc=7")) mod 2 ^ size_t_bits xc16,
        if (4 =? 0)%nat then repeat "#"%char 8
        else firstn (4 - 1) (str "abc=7") ++ NUL
               :: skipn (S (Nat.min (List.length (str "abc=7")) (4 - 1)))
                    (repeat "#"%char 8)).
Proof.
  apply (destination_and_returned_length xc16 ref_libm (repeat "#"%char 8) 4
           (str "%s=%u") [a_str (str "abc"); a_int 7] (str "abc=7")).
  - simpl. lia.
  - vm_compute. reflexivity.
Defined.

(** ** The flag run *)

Lemma fold_apply_flag (fl : list ascii) :
  forallb (fun x => mem_ascii x flag_chars) fl = true ->
  forall f : fmt_flags_t,
    fold_left (fun f x => apply_flag x f) fl f
    = mk_flags (leftAlign f || mem_ascii "-" fl)
        (if mem_ascii "+" fl then always_sign
         else if sign_eqb (sign f) always_sign then always_sign
         else if mem_ascii " " fl then sign_or_space else sign f)
        (altForm f || mem_ascii "#" fl) (zeropad f || mem_ascii "0" fl) (exp f).
Proof.
  induction fl as [|c fl IH]; intros H f.
  - cbn. destruct f as [la s af zp e]; cbn. rewrite !orb_false_r.
    destruct s; reflexivity.
  - cbn [forallb] in H. apply andb_prop in H as (Hc & H).
    cbn [fold_left]. rewrite (IH H).
    cbn [mem_ascii flag_chars str list_ascii_of_string existsb] in Hc.
    destruct f as [la s af zp e].
    repeat (apply orb_prop in Hc as [Hc | Hc];
            [apply Ascii.eqb_eq in Hc; subst c; unfold mem_ascii; cbn;
             repeat match goal with
                    | |- context [existsb ?p fl] => destruct (existsb p fl)
                    end;
             rewrite ?orb_true_r, ?orb_false_r; destruct s; reflexivity|]).
    discriminate Hc.
Qed.

Lemma fold_flags_of (fl : list ascii) :
  forallb (fun x => mem_ascii x flag_chars) fl = true ->
  fold_left (fun f x => apply_flag x f) fl no_flags = flags_of fl.
Proof. intros H. rewrite (fold_apply_flag fl H). reflexivity. Qed.

(** X12.  On a sub-specification that starts with a run of flag
    characters followed by a width (digits, the first not ['0']), a
    precision part and length modifiers, [getFlags] sets each flag whose
    character occurs in the run, in any order and however often, ['+']
    prevailing over [' '], and leaves [*endptr] at the first character
    after the run. *)
Theorem getFlags_reads_the_flag_run (fl wd pd lm : list ascii) (dot : bool) :
  forallb (fun x => mem_ascii x flag_chars) fl = true ->
  is_numeral wd = true ->
  forallb isdigit pd = true ->
  modifier_only lm = true ->
  getFlags (fl ++ wd ++ precision_part dot pd ++ lm)
  = (flags_of fl, wd ++ precision_part dot pd ++ lm).
Proof.
  intros Hfl Hw Hpd Hlm.
  rewrite (getFlags_shape fl wd _ Hfl Hw).
  - rewrite (fold_flags_of fl Hfl). reflexivity.
  - destruct dot; [right; eexists; reflexivity|left; exact Hlm].
Qed.

Lemma getFlags_reads_the_flag_run_witness :
  getFlags (str " +0- " ++ str "12" ++ precision_part true (str "3") ++ str "ll")
  = (flags_of (str " +0- "), str "12" ++ precision_part true (str "3") ++ str "ll").
Proof.
  apply (getFlags_reads_the_flag_run (str " +0- ") (str "12") (str "3") (str "ll") true);
    reflexivity.
Defined.

(** ** Integer directives with flags and a width *)

(** X13.  An integer directive made of flags, a width of at most four
    digits, a length modifier and a conversion letter is rendered by the
    renderer the letter and the modifier name, with the flags read from
    the flag run and the width read as a decimal numeral: ['d'] by
    [zitoa], ['u'] by [zutoa], ['x'], ['X'] and ['o'] by [zxtoa], [zXtoa]
    and [zotoa], ["ld"] by [zltoa] and ["lld"] by [zlltoa]; the whole
    rendering is the output, and neither the flags nor the width take an
    argument. *)
Theorem integer_directive_meaning (P : platform) (M : libm) (fl wd : list ascii)
    (v : Z) (ap : list arg) :
  forallb (fun x => mem_ascii x flag_chars) fl = true ->
  is_numeral wd = true -> (List.length wd <= 4)%nat ->
  (List.length (fl ++ wd) <= 28)%nat ->
  formatted P M ("%"%char :: (fl ++ wd) ++ str "d") (a_int v :: ap)
    = Ok (zitoa P (uint_of P v) (numeral wd) (flags_of fl)) /\
  formatted P M ("%"%char :: (fl ++ wd) ++ str "u") (a_int v :: ap)
    = Ok (zutoa P (uint_of P v) (numeral wd) (flags_of fl)) /\
  formatted P M ("%"%char :: (fl ++ wd) ++ str "x") (a_int v :: ap)
    = Ok (zxtoa P (uint_of P v) (numeral wd) (flags_of fl)) /\
  formatted P M ("%"%char :: (fl ++ wd) ++ str "X") (a_int v :: ap)
    = Ok (zXtoa P (uint_of P v) (numeral wd) (flags_of fl)) /\
  formatted P M ("%"%char :: (fl ++ wd) ++ str "o") (a_int v :: ap)
    = Ok (zotoa P (uint_of P v) (numeral wd) (flags_of fl)) /\
  formatted P M ("%"%char :: (fl ++ wd ++ str "l") ++ str "d") (a_long v :: ap)
    = Ok (zltoa P (wrap (long_bits P) v) (numeral wd) (flags_of fl)) /\
  formatted P M ("%"%char :: (fl ++ wd ++ str "ll") ++ str "d") (a_llong v :: ap)
    = Ok (zlltoa (u64 v) (numeral wd) (flags_of fl)).
Proof.
  intros Hfl Hw Hwl Hlen.
  pose proof Hw as Hw'. unfold is_numeral in Hw'. apply andb_prop in Hw' as (Hwd & _).
  pose proof (numeral_small wd Hwd Hwl) as Hr.
  assert (Hlm : forall lm, lm = [] \/ lm = str "l" \/ lm = str "ll" ->
             modifier_only lm = true /\ strpbrk lm conversion_letters = None
             /\ (List.length (fl ++ wd ++ precision_part false [] ++ lm) <= 30)%nat).
  { intros lm H. revert Hlen. rewrite !length_app.
    destruct H as [-> | [-> | ->]]; repeat split; try reflexivity; cbn; lia. }
  assert (Hcv : forall lm conv arg0,
             lm = [] \/ lm = str "l" \/ lm = str "ll" ->
             mem_ascii conv conversion_letters = true ->
             formatted P M ("%"%char :: (fl ++ wd ++ lm) ++ [conv]) (arg0 :: ap)
             = ('(tok, _) <~ render P M conv (getLength P lm) (numeral wd)
                               (uint_of P PRECISION_UNSPECIFIED) (flags_of fl)
                               (arg0 :: ap) ;;
                Ok (firstn (strlen tok) tok))).
  { intros lm conv arg0 H Hc. destruct (Hlm lm H) as (Hmo & Hs & Hl30).
    destruct (usual_subspec fl wd [] lm false Hfl Hw eq_refl Hmo Hs) as (N1 & S1 & _).
    cbn [precision_part app] in N1, S1, Hl30.
    rewrite (formatted_single P M _ conv _ N1 S1 Hc).
    pose proof (convert_usual P M fl wd [] lm [] false conv (arg0 :: ap) Hfl Hw eq_refl
                  Hmo Hs Hl30) as E.
    cbn [precision_part app] in E. rewrite E.
    destruct (small_width P wd Hwd Hwl) as (-> & _).
    rewrite star_arg_plain by (left; lia).
    rewrite star_arg_plain by (right; reflexivity).
    rewrite (fold_flags_of fl Hfl). reflexivity. }
  assert (Hs : forall s n, firstn (strlen (zitoa_at s n (numeral wd) (flags_of fl)))
                             (zitoa_at s n (numeral wd) (flags_of fl))
                           = zitoa_at s n (numeral wd) (flags_of fl)).
  { intros s n. apply (whole_string "0123456789 +-");
      [reflexivity|apply made_of_zitoa_at]. }
  assert (Hu : forall s n, firstn (strlen (zutoa_at s n (numeral wd) (flags_of fl)))
                             (zutoa_at s n (numeral wd) (flags_of fl))
                           = zutoa_at s n (numeral wd) (flags_of fl)).
  { intros s n. apply (whole_string "0123456789 ");
      [reflexivity|apply made_of_zutoa_at]. }
  assert (Hx : forall s n upper,
             firstn (strlen (zx64toa s n (numeral wd) (flags_of fl) upper))
               (zx64toa s n (numeral wd) (flags_of fl) upper)
             = zx64toa s n (numeral wd) (flags_of fl) upper).
  { intros s n upper.
    apply (whole_string (if upper then "0123456789ABCDEF " else "0123456789abcdef "));
      [destruct upper; reflexivity|apply made_of_zx64toa]. }
  assert (Ho : forall s n, firstn (strlen (zo64toa s n (numeral wd) (flags_of fl)))
                             (zo64toa s n (numeral wd) (flags_of fl))
                           = zo64toa s n (numeral wd) (flags_of fl)).
  { intros s n. apply (whole_string "01234567 ");
      [reflexivity|apply made_of_zo64toa]. }
  pose proof (Hcv [] "d"%char (a_int v) (or_introl eq_refl) eq_refl) as Ed.
  pose proof (Hcv [] "u"%char (a_int v) (or_introl eq_refl) eq_refl) as Eu.
  pose proof (Hcv [] "x"%char (a_int v) (or_introl eq_refl) eq_refl) as Ex.
  pose proof (Hcv [] "X"%char (a_int v) (or_introl eq_refl) eq_refl) as EX.
  pose proof (Hcv [] "o"%char (a_int v) (or_introl eq_refl) eq_refl) as Eo.
  pose proof (Hcv (str "l") "d"%char (a_long v) (or_intror (or_introl eq_refl)) eq_refl)
    as El.
  pose proof (Hcv (str "ll") "d"%char (a_llong v) (or_intror (or_intror eq_refl)) eq_refl)
    as Ell.
  rewrite app_nil_r in Ed, Eu, Ex, EX, Eo.
  change (getLength P []) with length_int in *.
  change (getLength P (str "l")) with length_long in *.
  change (getLength P (str "ll")) with length_long_long in *.
  destruct (render_signed P M "d" (numeral wd) (uint_of P PRECISION_UNSPECIFIED)
              (flags_of fl) v ap (or_introl eq_refl) ltac:(lia)) as (Rd & Rl & Rll).
  destruct (render_unsigned P M (numeral wd) (uint_of P PRECISION_UNSPECIFIED)
              (flags_of fl) v ap ltac:(lia)) as (Ru & _).
  destruct (render_hex P M false (numeral wd) (uint_of P PRECISION_UNSPECIFIED)
              (flags_of fl) v ap ltac:(lia)) as (Rx & _).
  destruct (render_hex P M true (numeral wd) (uint_of P PRECISION_UNSPECIFIED)
              (flags_of fl) v ap ltac:(lia)) as (RX & _).
  destruct (render_octal P M (numeral wd) (uint_of P PRECISION_UNSPECIFIED)
              (flags_of fl) v ap ltac:(lia)) as (Ro & _).
  cbn iota in Rx, RX.
  rewrite Rd in Ed. rewrite Ru in Eu. rewrite Rx in Ex. rewrite RX in EX.
  rewrite Ro in Eo. rewrite Rl in El. rewrite Rll in Ell.
  unfold zitoa, zutoa, zxtoa, zXtoa, zotoa, zltoa, zlltoa in *.
  rewrite Hs in Ed, El, Ell. rewrite Hu in Eu. rewrite Hx in Ex, EX. rewrite Ho in Eo.
  repeat split; assumption.
Qed.

Lemma integer_directive_meaning_witness :
  formatted ilp32 ref_libm ("%"%char :: (str "+0" ++ str "6") ++ str "d") (a_int 42 :: [])
    = Ok (zitoa ilp32 (uint_of ilp32 42) (numeral (str "6")) (flags_of (str "+0"))) /\
  formatted ilp32 ref_libm ("%"%char :: (str "+0" ++ str "6") ++ str "u") (a_int 42 :: [])
    = Ok (zutoa ilp32 (uint_of ilp32 42) (numeral (str "6")) (flags_of (str "+0"))) /\
  formatted ilp32 ref_libm ("%"%char :: (str "+0" ++ str "6") ++ str "x") (a_int 42 :: [])
    = Ok (zxtoa ilp32 (uint_of ilp32 42) (numeral (str "6")) (flags_of (str "+0"))) /\
  formatted ilp32 ref_libm ("%"%char :: (str "+0" ++ str "6") ++ str "X") (a_int 42 :: [])
    = Ok (zXtoa ilp32 (uint_of ilp32 42) (numeral (str "6")) (flags_of (str "+0"))) /\
  formatted ilp32 ref_libm ("%"%char :: (str "+0" ++ str "6") ++ str "o") (a_int 42 :: [])
    = Ok (zotoa ilp32 (uint_of ilp32 42) (numeral (str "6")) (flags_of (str "+0"))) /\
  formatted ilp32 ref_libm ("%"%char :: (str "+0" ++ str "6" ++ str "l") ++ str "d")
      (a_long 42 :: [])
    = Ok (zltoa ilp32 (wrap (long_bits ilp32) 42) (numeral (str "6"))
            (flags_of (str "+0"))) /\
  formatted ilp32 ref_libm ("%"%char :: (str "+0" ++ str "6" ++ str "ll") ++ str "d")
      (a_llong 42 :: [])
    = Ok (zlltoa (u64 42) (numeral (str "6")) (flags_of (str "+0"))).
Proof.
  apply (integer_directive_meaning ilp32 ref_libm (str "+0") (str "6") 42 []).
  - reflexivity.
  - reflexivity.
  - simpl; lia.
  - simpl; lia.
Defined.

(** ** Padding and sign around the digits *)

Lemma pad_unsigned_layout (cap : nat) (width : Z) (fd : nat) (flags : fmt_flags_t) :
  exists k, pad_unsigned cap width fd flags
            = repeat (if zeropad flags then "0" else " ")%char k.
Proof.
  unfold pad_unsigned, pad. destruct (width =? 0); [exists O; destruct (zeropad flags); reflexivity|].
  eexists. destruct (zeropad flags); reflexivity.
Qed.

Lemma pad_signed_layout (cap : nat) (width : Z) (fd : nat) (n : Z)
    (flags : fmt_flags_t) :
  exists k, pad_signed cap width fd n flags
            = if zeropad flags then addSign n flags ++ repeat "0"%char k
              else repeat " "%char k ++ addSign n flags.
Proof.
  unfold pad_signed, pad. destruct (width =? 0).
  - exists O. cbn [repeat app]. rewrite app_nil_r. destruct (zeropad flags); reflexivity.
  - eexists. destruct (zeropad flags); reflexivity.
Qed.

Lemma unsigned_block_layout (cap : nat) (tochar : Z -> ascii) (ds : list Z)
    (width : Z) (flags : fmt_flags_t) (fd : nat) :
  exists k,
    pad_unsigned cap width fd flags ++ emit tochar ds fd
    = repeat (if zeropad flags then "0" else " ")%char k
      ++ (pad_unsigned cap 0 fd no_flags ++ emit tochar ds fd).
Proof.
  destruct (pad_unsigned_layout cap width fd flags) as (k & ->).
  exists k. reflexivity.
Qed.

Lemma signed_block_layout (cap : nat) (digits : list ascii)
    (width : Z) (flags : fmt_flags_t) (fd : nat) (n : Z) :
  exists k,
    pad_signed cap width fd n flags ++ digits
    = if zeropad flags then addSign n flags ++ repeat "0"%char k ++ digits
      else repeat " "%char k ++ addSign n flags ++ digits.
Proof.
  destruct (pad_signed_layout cap width fd n flags) as (k & ->).
  exists k. destruct (zeropad flags); rewrite <- app_assoc; reflexivity.
Qed.

Lemma zu_layout (s : int_size_t) (n width : Z) (flags : fmt_flags_t) :
  exists k,
    zutoa_at s n width flags
    = repeat (if zeropad flags then "0" else " ")%char k ++ zutoa_at s n 0 no_flags.
Proof.
  destruct s; cbn [zutoa_at].
  - unfold zu64toa. destruct (u64 n <=? UINT32_MAX).
    + apply unsigned_block_layout.
    + destruct (dec64_digits (u64 n)) as [tmp fd].
      destruct (pad_unsigned_layout 20 width fd flags) as (k & ->).
      exists k. reflexivity.
  - apply unsigned_block_layout.
  - apply unsigned_block_layout.
Qed.

Lemma zi_layout (s : int_size_t) (n width : Z) (flags : fmt_flags_t) :
  exists k digits,
    made_of "0123456789" digits = true /\
    zitoa_at s n 0 flags = addSign (swrap (size_bits s) n) flags ++ digits /\
    zitoa_at s n width flags
    = if zeropad flags
      then addSign (swrap (size_bits s) n) flags ++ repeat "0"%char k ++ digits
      else repeat " "%char k ++ addSign (swrap (size_bits s) n) flags ++ digits.
Proof.
  assert (H32 : forall m, - 2 ^ 31 <= m < 2 ^ 31 ->
            exists k digits,
              made_of "0123456789" digits = true /\
              zi32toa m 0 flags = addSign m flags ++ digits /\
              zi32toa m width flags
              = if zeropad flags then addSign m flags ++ repeat "0"%char k ++ digits
                else repeat " "%char k ++ addSign m flags ++ digits).
  { intros m Hm. unfold zi32toa. cbv zeta.
    destruct (abs_wrap 32 m ltac:(lia) Hm) as (Ha & Hr). unfold u32. rewrite Ha.
    set (ds := dec32_digits (Z.abs m)). set (fd := first_nonzero (tl ds) 1 0).
    destruct (signed_block_layout 9 (emit DTOCHAR ds fd) width flags fd m) as (k & E).
    exists k, (emit DTOCHAR ds fd). split; [|split; [reflexivity|exact E]].
    apply made_of_emit, in_radix_decimal_chars; [reflexivity|].
    apply dec32_digits_spec. exact Hr. }
  destruct s; cbn [zitoa_at size_bits].
  - pose proof (swrap_range 64 n ltac:(lia)) as Hn. set (m := swrap 64 n) in *.
    unfold zi64toa.
    destruct ((INT32_MIN <=? m) && (m <=? INT32_MAX)) eqn:E.
    + apply andb_prop in E as (E1 & E2). apply Z.leb_le in E1, E2.
      unfold INT32_MIN, INT32_MAX in *. apply H32. lia.
    + destruct (abs_wrap 64 m ltac:(lia) Hn) as (Ha & Hr). unfold u64. rewrite Ha.
      assert (Hnz : 0 < Z.abs m).
      { apply andb_false_iff in E. unfold INT32_MIN, INT32_MAX in E.
        destruct E as [E|E]; apply Z.leb_gt in E; lia. }
      destruct (dec64_digits_spec (Z.abs m) ltac:(lia)) as (-> & _ & _).
      set (fd := (ndigits 10 (Z.abs m) - 1)%nat).
      set (digits := firstn (S fd) (map DTOCHAR (rev (lsd 20 (Z.abs m))))).
      destruct (signed_block_layout 19 digits width flags fd m) as (k & E').
      exists k, digits. split; [|split; [reflexivity|exact E']].
      apply made_of_dec64_text; [reflexivity|lia].
  - apply H32. apply (swrap_range 32). lia.
  - pose proof (swrap_range 16 n ltac:(lia)) as Hm. set (m := swrap 16 n) in *.
    unfold zi16toa. cbv zeta.
    destruct (abs_wrap 16 m ltac:(lia) Hm) as (Ha & Hr). unfold u16. rewrite Ha.
    set (ds := dec16_digits (Z.abs m)). set (fd := first_nonzero (tl ds) 1 0).
    destruct (signed_block_layout 4 (emit DTOCHAR ds fd) width flags fd m) as (k & E).
    exists k, (emit DTOCHAR ds fd). split; [|split; [reflexivity|exact E]].
    apply made_of_emit, in_radix_decimal_chars; [reflexivity|].
    apply dec16_digits_spec. exact Hr.
Qed.

(** X14.  Width and flags never change the digits.  An unsigned
    decimal, hexadecimal or octal rendering with a width is the rendering
    with width 0 preceded by pad characters, zeros with the zero-pad flag
    and blanks without.  A signed rendering is sign, zeros, digits with
    the zero-pad flag and blanks, sign, digits without, the sign and the
    digits being those written with width 0.  This holds for the three
    sizes and for every value (the negation of the minimum value is taken
    to wrap, as it does on two's complement machines). *)
Theorem width_and_sign_layout (s size : int_size_t) (n width : Z)
    (flags : fmt_flags_t) (upper : bool) :
  (exists k,
      zutoa_at s n width flags
      = repeat (if zeropad flags then "0" else " ")%char k ++ zutoa_at s n 0 no_flags) /\
  (exists k,
      zx64toa size n width flags upper
      = repeat (if zeropad flags then "0" else " ")%char k
        ++ zx64toa size n 0 no_flags upper) /\
  (exists k,
      zo64toa size n width flags
      = repeat (if zeropad flags then "0" else " ")%char k ++ zo64toa size n 0 no_flags) /\
  (exists k digits,
      made_of "0123456789" digits = true /\
      zitoa_at s n 0 flags = addSign (swrap (size_bits s) n) flags ++ digits /\
      zitoa_at s n width flags
      = if zeropad flags
        then addSign (swrap (size_bits s) n) flags ++ repeat "0"%char k ++ digits
        else repeat " "%char k ++ addSign (swrap (size_bits s) n) flags ++ digits).
Proof.
  split; [apply zu_layout|].
  split; [apply unsigned_block_layout|].
  split; [apply unsigned_block_layout|].
  apply zi_layout.
Qed.

(** ** The digit loop of the 64-bit renderers *)

(** X15.  The digit loop of [zu64toa] and [zi64toa] ends, with the
    value used up, after at most 20 stores for a magnitude below [2^64],
    and after at most 19 stores for a magnitude of at most [2^63], the
    largest [zi64toa] can have: the locals [tmp[20]] and [tmp[19]] are not
    overrun.  [reverse] then turns what was stored into the decimal
    numeral of the value. *)
Theorem dec64_scratch_fits (n : Z) :
  0 < n < 2 ^ 64 ->
  exists tmp,
    div10_loop 20 n [] = (0, tmp) /\
    (List.length tmp <= 20)%nat /\
    (n <= 2 ^ 63 -> (List.length tmp <= 19)%nat) /\
    reverse tmp (List.length tmp - 1) = rev tmp /\
    parse 10 (rev tmp) = Some n.
Proof.
  intros Hn.
  assert (H20 : 0 <= n < 10 ^ Z.of_nat 20).
  { change (10 ^ Z.of_nat 20) with 100000000000000000000.
    change (2 ^ 64) with 18446744073709551616 in Hn. lia. }
  exists (map DTOCHAR (lsd 20 n)).
  rewrite (div10_loop_lsd 20 n [] H20). cbn [app].
  destruct (dec64_tmp_fits n) as (H19 & H20').
  rewrite length_map.
  split; [reflexivity|]. split; [apply H20'; exact Hn|].
  split; [intros H; apply H19; split; [apply Hn|exact H]|].
  assert (Hne : map DTOCHAR (lsd 20 n) <> []).
  { destruct (dec64_digits_spec n Hn) as (_ & Hl & Hp).
    intros E. apply (f_equal (@List.length ascii)) in E.
    rewrite length_map, Hl in E. cbn [List.length] in E. lia. }
  split.
  - rewrite <- (length_map DTOCHAR). apply reverse_spec. exact Hne.
  - rewrite <- map_rev.
    destruct (parse_dec64_text n Hn) as (_ & Hp).
    destruct (dec64_digits_spec n Hn) as (_ & Hl & Hpos).
    rewrite firstn_all2 in Hp by (rewrite length_map, length_rev; lia).
    exact Hp.
Qed.

Lemma dec64_scratch_fits_witness :
  exists tmp,
    div10_loop 20 18446744073709551615 [] = (0, tmp) /\
    (List.length tmp <= 20)%nat /\
    (18446744073709551615 <= 2 ^ 63 -> (List.length tmp <= 19)%nat) /\
    reverse tmp (List.length tmp - 1) = rev tmp /\
    parse 10 (rev tmp) = Some 18446744073709551615.
Proof.
  apply (dec64_scratch_fits 18446744073709551615). lia.
Defined.

(** X16.  [reverse(buf, end)] reverses the characters [buf[0..end]]
    and leaves what follows as it is; applied twice it gives the buffer
    back. *)
Theorem reverse_reverses (mid rest : list ascii) :
  mid <> [] ->
  reverse (mid ++ rest) (List.length mid - 1) = rev mid ++ rest /\
  reverse (reverse (mid ++ rest) (List.length mid - 1)) (List.length mid - 1)
  = mid ++ rest.
Proof.
  intros Hne.
  assert (H : forall m r, m <> [] ->
            reverse (m ++ r) (List.length m - 1) = rev m ++ r).
  { intros m r Hm. unfold reverse.
    assert (Hl : (0 < List.length m)%nat) by (destruct m; [contradiction|cbn; lia]).
    pose proof (reverse_loop_spec (S (List.length m - 1)) [] m r ltac:(lia)) as E.
    cbn [List.length app Nat.add] in E. exact E. }
  split; [apply H; exact Hne|].
  rewrite (H mid rest Hne).
  rewrite <- (length_rev mid).
  rewrite H by (intros E; apply (f_equal (@rev ascii)) in E;
                rewrite rev_involutive in E; exact (Hne E)).
  rewrite rev_involutive. reflexivity.
Qed.

Lemma reverse_reverses_witness :
  reverse (str "0123" ++ str "xy") (List.length (str "0123") - 1)
    = rev (str "0123") ++ str "xy" /\
  reverse (reverse (str "0123" ++ str "xy") (List.length (str "0123") - 1))
    (List.length (str "0123") - 1)
  = str "0123" ++ str "xy".
Proof.
  apply (reverse_reverses (str "0123") (str "xy")). discriminate.
Defined.

(** ** The scratch buffer of the scanner *)

(** X17.  A directive whose conversion letter is not one of the
    floating ones never overruns [tmp]: whatever the value, the width
    (also one taken from the arguments) and the flags, the integer,
    pointer and character conversions write at most 22 characters and a
    NUL into its 24 bytes. *)
Theorem integer_directives_fit_tmp (P : platform) (M : libm)
    (after_escape : list ascii) (k : nat) (ap : list arg) :
  is_letter (nth k after_escape NUL) "fFeEgGaA" = false ->
  convert P M after_escape k ap <> Undefined ScratchOverflow.
Proof.
  intros H E. apply only_floats_overflow_tmp in E. rewrite H in E. discriminate E.
Qed.

Lemma integer_directives_fit_tmp_witness :
  convert lp64_x87 ref_libm (str "022llo") 5 [a_llong (-1)]
  <> Undefined ScratchOverflow.
Proof.
  apply (integer_directives_fit_tmp lp64_x87 ref_libm (str "022llo") 5 [a_llong (-1)]).
  reflexivity.
Defined.

(** ** The float renderers: precision and scratch space *)

Lemma rounding_consts_clamp (P : platform) (W : fformat) (p : Z) :
  9 <= p -> rounding_consts P W p = rounding_consts P W 9.
Proof.
  intros Hp. unfold rounding_consts.
  replace ((0 <=? p) && (p <=? 8)) with false; [reflexivity|].
  symmetry. apply andb_false_iff. right. apply Z.leb_gt. lia.
Qed.

Lemma zftoa_gen_clamp (P : platform) (M : libm) (W : fformat) (expw : Z)
    (f : float) (width p : Z) (flags : fmt_flags_t) :
  9 <= p ->
  zftoa_gen P M W expw f width p flags = zftoa_gen P M W expw f width 9 flags.
Proof.
  intros Hp. unfold zftoa_gen. rewrite (rounding_consts_clamp P W p Hp). reflexivity.
Qed.

(** X18.  A precision of 9 or more is rendered as the precision 9,
    by [zftoal], [zftoaf] and the [zftoa] macro, for every value, width
    and flags. *)
Theorem precision_above_nine_is_nine (P : platform) (M : libm) (f : float)
    (width p : Z) (flags : fmt_flags_t) :
  9 <= p ->
  zftoal P M f width p flags = zftoal P M f width 9 flags /\
  zftoaf P M f width p flags = zftoaf P M f width 9 flags /\
  zftoa P M f width p flags = zftoa P M f width 9 flags.
Proof.
  intros Hp. unfold zftoa, zftoal, zftoaf.
  repeat split; try apply zftoa_gen_clamp; try exact Hp.
  destruct (_ =? _); apply zftoa_gen_clamp; exact Hp.
Qed.

Lemma precision_above_nine_is_nine_witness :
  zftoal lp64_x87 ref_libm (ldouble_of lp64_x87 5 4) 0 12 no_flags
    = zftoal lp64_x87 ref_libm (ldouble_of lp64_x87 5 4) 0 9 no_flags /\
  zftoaf lp64_x87 ref_libm (ldouble_of lp64_x87 5 4) 0 12 no_flags
    = zftoaf lp64_x87 ref_libm (ldouble_of lp64_x87 5 4) 0 9 no_flags /\
  zftoa lp64_x87 ref_libm (ldouble_of lp64_x87 5 4) 0 12 no_flags
    = zftoa lp64_x87 ref_libm (ldouble_of lp64_x87 5 4) 0 9 no_flags.
Proof.
  apply (precision_above_nine_is_nine lp64_x87 ref_libm (ldouble_of lp64_x87 5 4)
           0 12 no_flags).
  lia.
Defined.

Lemma ndigits_int32 (n : Z) : 0 <= n <= 2 ^ 32 -> (ndigits 10 n <= 10)%nat.
Proof.
  intros H. apply ndigits_fuel_le; [lia| |lia].
  change (10 ^ Z.of_nat 10) with 10000000000.
  change (2 ^ 32) with 4294967296 in H. lia.
Qed.

Lemma length_zitoa_at_narrow (s : int_size_t) (n : Z) (w : nat) (flags : fmt_flags_t) :
  s <> ZS64 -> (List.length (zitoa_at s n (Z.of_nat w) flags) <= 11)%nat.
Proof.
  intros Hs. rewrite length_zitoa_at.
  pose proof (length_addSign (swrap (size_bits s) n) flags).
  pose proof (swrap_range (size_bits s) n (size_bits_pos s)) as Hr.
  assert (Hd : (ndigits 10 (Z.abs (swrap (size_bits s) n)) <= 10)%nat).
  { apply ndigits_int32.
    assert (2 ^ (size_bits s - 1) <= 2 ^ 32)
      by (apply Z.pow_le_mono_r; destruct s; cbn; try lia; contradiction).
    lia. }
  assert (Hc : (dec_capacity_signed s (swrap (size_bits s) n) <= 10)%nat)
    by (destruct s; cbn [dec_capacity_signed]; try lia; contradiction).
  lia.
Qed.

Lemma length_zutoa_at_narrow (s : int_size_t) (n : Z) (w : nat) (flags : fmt_flags_t) :
  s <> ZS64 -> (List.length (zutoa_at s n (Z.of_nat w) flags) <= 10)%nat.
Proof.
  intros Hs. rewrite length_zutoa_at.
  pose proof (wrap_range (size_bits s) n ltac:(pose proof (size_bits_pos s); lia)) as Hr.
  assert (Hd : (ndigits 10 (wrap (size_bits s) n) <= 10)%nat).
  { apply ndigits_int32.
    assert (2 ^ size_bits s <= 2 ^ 32)
      by (apply Z.pow_le_mono_r; destruct s; cbn; try lia; contradiction).
    lia. }
  assert (Hc : (dec_capacity_unsigned s (wrap (size_bits s) n) <= 10)%nat)
    by (destruct s; cbn [dec_capacity_unsigned]; try lia; contradiction).
  lia.
Qed.

Lemma rounding_consts_range (P : platform) (W : fformat) (p : Z) :
  0 <= fst (fst (rounding_consts P W p)) <= 9.
Proof.
  unfold rounding_consts. cbn [fst].
  destruct ((0 <=? p) && (p <=? 8)) eqn:E; [|lia].
  apply andb_prop in E as (E1 & E2). apply Z.leb_le in E1, E2. lia.
Qed.

Lemma zftoa_gen_fixed_fits (P : platform) (M : libm) (W : fformat) (expw : Z)
    (f : float) (width precision : Z) (flags : fmt_flags_t) (text : list ascii) :
  long_is_64 P = false -> int_size P <> ZS64 ->
  0 <= width -> exp flags = exp_none ->
  flt (of_int W (INT32_MAX - 1)) (SFabs f) = false ->
  zftoa_gen P M W expw f width precision flags = Some text ->
  (List.length text <= 23)%nat.
Proof.
  intros Hl Hi Hw He Hf. unfold zftoa_gen.
  destruct (negb (isfinite f)).
  { destruct (isnan f); [|destruct (_ =? _)]; intros H; injection H as <-; cbn; lia. }
  assert (Hx : exp_is_set flags = false) by (unfold exp_is_set; rewrite He; reflexivity).
  rewrite Hx, Hf. cbn [negb andb]. unfold normalize. rewrite Hx.
  pose proof (rounding_consts_range P W precision) as Hk.
  destruct (rounding_consts P W precision) as [[k frnd] fmul_]. cbn [fst] in Hk.
  destruct (to_sint 32 _) as [whole|]; [|discriminate].
  cbn [andb].
  assert (Hls : long_size P <> ZS64) by (unfold long_size; rewrite Hl; discriminate).
  rewrite <- (Z2Nat.id width Hw). rewrite <- (Z2Nat.id k) by lia.
  set (w := Z.to_nat width). set (kk := Z.to_nat k).
  assert (Hwhole : forall fl',
             Nat.le (List.length (if (INT16_MAX <? whole) || (4 <? Z.of_nat w)
                                  then zltoa P whole (Z.of_nat w) fl'
                                  else zitoa P whole (Z.of_nat w) fl')) 11).
  { intros fl'. destruct ((INT16_MAX <? whole) || (4 <? Z.of_nat w));
      unfold zltoa, zitoa; apply length_zitoa_at_narrow; assumption. }
  assert (Hzero : forall fl', sign fl' = auto_sign ->
             Nat.le (List.length (if (INT16_MAX <? 0) || (4 <? Z.of_nat w)
                                  then zltoa P 0 (Z.of_nat w) fl'
                                  else zitoa P 0 (Z.of_nat w) fl')) 10).
  { intros fl' Hsg.
    assert (Hz : forall s, s <> ZS64 ->
               (List.length (zitoa_at s 0 (Z.of_nat w) fl') <= 10)%nat).
    { intros s Hs. rewrite length_zitoa_at.
      replace (swrap (size_bits s) 0) with 0 by (destruct s; reflexivity).
      unfold addSign. rewrite Hsg. cbn [Z.ltb Z.compare List.length Z.abs Nat.add].
      assert (dec_capacity_signed s 0 <= 10)%nat
        by (destruct s; cbn [dec_capacity_signed]; try lia; contradiction).
      change (ndigits 10 0) with 1%nat. lia. }
    destruct ((INT16_MAX <? 0) || (4 <? Z.of_nat w));
      unfold zltoa, zitoa; apply Hz; assumption. }
  assert (Hfrac : forall v fl',
             (List.length (zultoa P v (Z.of_nat kk) fl') <= 10)%nat
             /\ (List.length (zutoa P v (Z.of_nat kk) fl') <= 10)%nat).
  { intros v fl'. split; unfold zultoa, zutoa;
      apply length_zutoa_at_narrow; assumption. }
  assert (He' : forall fl', exp fl' = exp_none ->
             match exp fl' with
             | exp_e => str "e" ++ zitoa P 0 expw (set_zeropad (set_sign always_sign no_flags))
             | exp_E => str "E" ++ zitoa P 0 expw (set_zeropad (set_sign always_sign no_flags))
             | exp_none => []
             end = []) by (intros fl' ->; reflexivity).
  destruct ((whole =? 0) && signbit f) eqn:Ez.
  - apply andb_prop in Ez as (Ez & _). apply Z.eqb_eq in Ez. subst whole.
    assert (Hxs : exp_is_set (set_sign auto_sign flags) = false) by exact Hx.
    rewrite Hxs, (He' (set_sign auto_sign flags) He).
    pose proof (Hzero (set_sign auto_sign flags) eq_refl) as H0. unfold Nat.le in H0.
    change (INT16_MAX <? 0) with false in H0. cbn [orb] in H0.
    try change (INT16_MAX <? 0) with false. cbn [orb].
    destruct (negb (Z.of_nat kk =? 0)).
    + match goal with
      | |- context [if flt ?a ?b || ?c then _ else _] => destruct (flt a b || c)
      end.
      * destruct (to_uint (long_bits P) _) as [v|]; [|discriminate].
        intros H. injection H as <-.
        destruct (Hfrac v (set_zeropad no_flags)) as (F1 & F2).
        repeat first [rewrite length_app | progress cbn [List.length str list_ascii_of_string]].
        lia.
      * destruct (to_uint (int_bits P) _) as [v|]; [|discriminate].
        intros H. injection H as <-.
        destruct (Hfrac v (set_zeropad no_flags)) as (F1 & F2).
        repeat first [rewrite length_app | progress cbn [List.length str list_ascii_of_string]].
        lia.
    + intros H. injection H as <-.
      repeat first [rewrite length_app | progress cbn [List.length str list_ascii_of_string]].
      lia.
  - rewrite Hx, (He' flags He).
    pose proof (Hwhole flags) as H0. unfold Nat.le in H0.
    destruct (negb (Z.of_nat kk =? 0)).
    + match goal with
      | |- context [if flt ?a ?b || ?c then _ else _] => destruct (flt a b || c)
      end.
      * destruct (to_uint (long_bits P) _) as [v|]; [|discriminate].
        intros H. injection H as <-.
        destruct (Hfrac v (set_zeropad no_flags)) as (F1 & F2).
        repeat first [rewrite length_app | progress cbn [List.length str list_ascii_of_string]].
        lia.
      * destruct (to_uint (int_bits P) _) as [v|]; [|discriminate].
        intros H. injection H as <-.
        destruct (Hfrac v (set_zeropad no_flags)) as (F1 & F2).
        repeat first [rewrite length_app | progress cbn [List.length str list_ascii_of_string]].
        lia.
    + intros H. injection H as <-.
      repeat first [rewrite length_app | progress cbn [List.length str list_ascii_of_string]].
      lia.
Qed.

(** X19.  Where [long] has 32 bits (and [int] no more), a value
    that the renderer keeps in fixed form (no exponent flag, magnitude not
    above [INT32_MAX - 1]) is rendered in at most 23 characters, for every
    width and precision: with its NUL it fits the 24 bytes of [tmp]. *)
Theorem fixed_form_fits_tmp_with_32_bit_long (P : platform) (M : libm) (f : float)
    (width precision : Z) (flags : fmt_flags_t) :
  long_is_64 P = false -> int_size P <> ZS64 ->
  0 <= width -> exp flags = exp_none ->
  flt (of_int (ldouble_fmt P) (INT32_MAX - 1)) (SFabs f) = false ->
  flt (of_int (float_fmt P) (INT32_MAX - 1)) (SFabs f) = false ->
  (forall text, zftoal P M f width precision flags = Some text ->
                (List.length text <= 23)%nat /\ in_tmp text = Ok text) /\
  (forall text, zftoaf P M f width precision flags = Some text ->
                (List.length text <= 23)%nat /\ in_tmp text = Ok text).
Proof.
  intros Hl Hi Hw He Hfl Hff.
  split; intros text H.
  - pose proof (zftoa_gen_fixed_fits P M _ _ f width precision flags text
                  Hl Hi Hw He Hfl H) as Hb.
    split; [exact Hb|apply in_tmp_fits; exact Hb].
  - pose proof (zftoa_gen_fixed_fits P M _ _ f width precision flags text
                  Hl Hi Hw He Hff H) as Hb.
    split; [exact Hb|apply in_tmp_fits; exact Hb].
Qed.

Lemma fixed_form_fits_tmp_with_32_bit_long_witness :
  (forall text,
      zftoal ilp32 ref_libm (ldouble_of ilp32 (-2469) 2) 12 9 (set_zeropad no_flags)
      = Some text ->
      (List.length text <= 23)%nat /\ in_tmp text = Ok text) /\
  (forall text,
      zftoaf ilp32 ref_libm (ldouble_of ilp32 (-2469) 2) 12 9 (set_zeropad no_flags)
      = Some text ->
      (List.length text <= 23)%nat /\ in_tmp text = Ok text).
Proof.
  apply (fixed_form_fits_tmp_with_32_bit_long ilp32 ref_libm
           (ldouble_of ilp32 (-2469) 2) 12 9 (set_zeropad no_flags)).
  - reflexivity.
  - simpl. discriminate.
  - lia.
  - reflexivity.
  - vm_compute. reflexivity.
  - vm_compute. reflexivity.
Defined.

Example fixed_form_example :
  option_map show
    (zftoal ilp32 ref_libm (ldouble_of ilp32 (-2469) 2) 12 9 (set_zeropad no_flags))
  = Some "-0000001234.500000000"%string.
Proof. vm_compute. reflexivity. Qed.

Lemma map_upper_e_plain (text : list ascii) :
  made_of "0123456789 +-." text = true -> map upper_e text = text.
Proof.
  induction text as [|c text IH]; [reflexivity|].
  cbn [made_of forallb]. intros H. apply andb_prop in H as (Hc & H).
  cbn [map]. rewrite (IH H). f_equal.
  cbn [mem_ascii str list_ascii_of_string existsb] in Hc.
  repeat (apply orb_prop in Hc as [Hc | Hc];
          [apply Ascii.eqb_eq in Hc; subst c; reflexivity|]).
  discriminate Hc.
Qed.

Lemma made_of_wider (a b : string) (text : list ascii) :
  made_of b (str a) = true -> made_of a text = true -> made_of b text = true.
Proof.
  intros Hab. apply forallb_weaken. intros c Hc.
  unfold made_of in Hab. induction (str a) as [|x l IH]; [discriminate Hc|].
  cbn [forallb] in Hab. apply andb_prop in Hab as (Hx & Hab).
  cbn [mem_ascii existsb] in Hc. apply orb_prop in Hc as [Hc | Hc].
  - apply Ascii.eqb_eq in Hc. subst c. exact Hx.
  - apply (IH Hab Hc).
Qed.

Lemma upper_e_zitoa_at (s : int_size_t) (n w : Z) (la af zp : bool) (sg : sign_t)
    (e1 e2 : exp_form_t) :
  map upper_e (zitoa_at s n w (mk_flags la sg af zp e1))
  = zitoa_at s n w (mk_flags la sg af zp e2).
Proof.
  rewrite map_upper_e_plain
    by (apply (made_of_wider "0123456789 +-"); [reflexivity|apply made_of_zitoa_at]).
  reflexivity.
Qed.

Lemma upper_e_zutoa_at (s : int_size_t) (n w : Z) (flags : fmt_flags_t) :
  map upper_e (zutoa_at s n w flags) = zutoa_at s n w flags.
Proof.
  apply map_upper_e_plain.
  apply (made_of_wider "0123456789 "); [reflexivity|apply made_of_zutoa_at].
Qed.

Lemma upper_e_zitoa_at_same (s : int_size_t) (n w : Z) (flags : fmt_flags_t) :
  map upper_e (zitoa_at s n w flags) = zitoa_at s n w flags.
Proof.
  apply map_upper_e_plain.
  apply (made_of_wider "0123456789 +-"); [reflexivity|apply made_of_zitoa_at].
Qed.

Lemma zftoa_gen_exp_letter (P : platform) (M : libm) (W : fformat) (expw : Z)
    (f : float) (width precision : Z) (flags : fmt_flags_t) :
  zftoa_gen P M W expw f width precision (set_exp exp_E flags)
  = option_map (map upper_e)
      (zftoa_gen P M W expw f width precision (set_exp exp_e flags)).
Proof.
  destruct flags as [la sg af zp e0].
  unfold zftoa_gen, normalize.
  destruct (negb (isfinite f)).
  { destruct (isnan f); [reflexivity|]. destruct (_ =? _); reflexivity. }
  unfold exp_is_set, set_exp, set_sign. cbv zeta.
  cbn [exp sign zeropad leftAlign altForm andb orb negb].
  repeat (first
            [ match goal with
              | |- context [if ?b then _ else _] =>
                  lazymatch b with
                  | context [mk_flags] => fail
                  | _ => destruct b
                  end
              end
            | match goal with
              | |- context [let '(_, _) := ?p in _] =>
                  lazymatch p with
                  | context [mk_flags] => fail
                  | _ => destruct p
                  end
              end
            | match goal with
              | |- context [match ?o with Some _ => _ | None => _ end] =>
                  lazymatch o with
                  | context [mk_flags] => fail
                  | context [zultoa] => fail
                  | context [zutoa] => fail
                  | _ => destruct o
                  end
              end ];
          cbv zeta;
          cbn [exp sign zeropad leftAlign altForm andb orb negb option_map]);
    try reflexivity;
    apply f_equal;
    unfold zltoa, zitoa, zultoa, zutoa;
    cbn [map str list_ascii_of_string app];
    repeat first [rewrite map_app | rewrite upper_e_zutoa_at
                 | rewrite (upper_e_zitoa_at _ _ _ _ _ _ _ exp_e exp_E)
                 | rewrite upper_e_zitoa_at_same
                 | progress cbn [map str list_ascii_of_string app]];
    reflexivity.
Qed.

(** X20.  The rendering with [exp_E] is the rendering with [exp_e]
    with the letter ['e'] turned into ['E'], and is undefined exactly when
    that one is; this holds for [zftoal], [zftoaf] and the [zftoa] macro
    and for every value, the special ones included. *)
Theorem upper_case_exponent_form (P : platform) (M : libm) (f : float)
    (width precision : Z) (flags : fmt_flags_t) :
  zftoal P M f width precision (set_exp exp_E flags)
    = option_map (map upper_e) (zftoal P M f width precision (set_exp exp_e flags)) /\
  zftoaf P M f width precision (set_exp exp_E flags)
    = option_map (map upper_e) (zftoaf P M f width precision (set_exp exp_e flags)) /\
  zftoa P M f width precision (set_exp exp_E flags)
    = option_map (map upper_e) (zftoa P M f width precision (set_exp exp_e flags)).
Proof.
  unfold zftoa, zftoal, zftoaf.
  repeat split; try apply zftoa_gen_exp_letter.
  destruct (_ =? _); apply zftoa_gen_exp_letter.
Qed.

(** * Rounding in the float renderers *)














